(** * HarmonyCare backend: emergency lifecycle, volunteer dispatch, admin guard

    A shallow embedding of [src/index.js] (an Express application on top of
    Firestore and Firebase Cloud Messaging) and the properties of its
    handlers.

    - [JS]        JavaScript values and the coercions the handlers use
    - [ArraySort] [Array.prototype.sort]
    - [Store]     documents, the shared world, the external calls
    - [Handlers]  the route handlers, one definition per source function
    - [Sched]     interleavings of two handlers at the granularity of calls
    - [Server]    requests served one after the other
    - [Props]     the predicates the statements are written with
    - [Directory] the calls on the [devices] collection and the queries
                  of the read route
    - [Routes]    the two device routes, the read route, the health check
    - [Api]       every route, requests served one after the other
    - [RouteProps] the predicates of the statements about all of them
    - then the lemmas and the theorems.

    Embedded are [haversineKm], [initFirebase] and the seven routes of the
    file. *)

From Stdlib Require Import QArith Qcanon Ascii Lqa.
From stdpp Require Import base strings list gmap numbers pretty sorting.

(** ** JavaScript values *)

Module JS.

(** A number is [NaN] or a finite value, kept exactly as a rational: every
    finite binary64 value is one.  Rounding and the two infinities are
    outside the model; identifiers and millisecond timestamps, which is what
    the handlers compute with, are integers far below 2^53. *)
Inductive num : Type :=
  | NaN
  | Fin (q : Qc).

Definition int (z : Z) : num := Fin (Qc_of_Z z).

(** The primitive values a JSON body, a header or a stored field can hold. *)
Inductive jsval : Type :=
  | JUndefined
  | JNull
  | JBool (b : bool)
  | JNum (n : num)
  | JStr (s : string).

#[global] Instance num_eq_dec : EqDecision num.
Proof. solve_decision. Defined.

#[global] Instance jsval_eq_dec : EqDecision jsval.
Proof. solve_decision. Defined.

Definition is_zero (q : Qc) : bool := bool_decide (q = Qc_of_Z 0).

(** [ToBoolean]: what [!x], [x || y], [x ? a : b] and [filter(Boolean)] test. *)
Definition truthy (v : jsval) : bool :=
  match v with
  | JUndefined | JNull => false
  | JBool b => b
  | JNum NaN => false
  | JNum (Fin q) => negb (is_zero q)
  | JStr s => negb (String.eqb s "")
  end.

Definition typeof_number (v : jsval) : bool :=
  match v with JNum _ => true | _ => false end.

Definition typeof_undefined (v : jsval) : bool :=
  match v with JUndefined => true | _ => false end.

(** [v == null] holds of [null] and [undefined] only. *)
Definition loose_null (v : jsval) : bool :=
  match v with JUndefined | JNull => true | _ => false end.

(** Strict equality [===]; [NaN] differs from itself. *)
Definition strict_eq (a b : jsval) : bool :=
  match a, b with
  | JNum NaN, _ | _, JNum NaN => false
  | _, _ => bool_decide (a = b)
  end.

(** Arithmetic and comparison of numbers: [NaN] is absorbing for the
    operators and makes every comparison false. *)
Definition num_lift (f : Qc → Qc → Qc) (a b : num) : num :=
  match a, b with
  | Fin x, Fin y => Fin (f x y)
  | _, _ => NaN
  end.

Definition num_add : num → num → num := num_lift Qcplus.
Definition num_sub : num → num → num := num_lift Qcminus.
Definition num_mul : num → num → num := num_lift Qcmult.

Definition num_div (a b : num) : num :=
  match a, b with
  | Fin x, Fin y => if is_zero y then NaN else Fin (x / y)%Qc
  | _, _ => NaN
  end.

Definition num_lt (a b : num) : bool :=
  match a, b with
  | Fin x, Fin y => bool_decide (x < y)%Qc
  | _, _ => false
  end.

Definition num_gt (a b : num) : bool := num_lt b a.

(** A thrown [Error]: its [message] and, when one was attached, its [code]. *)
Record Exn : Type := mkExn { message : string; code : option string }.

Definition Error (msg : string) : Exn := mkExn msg None.

(** The parts of the runtime and of the Admin SDK the source calls but does
    not define: the two conversions between strings and numbers, [Math],
    [JSON.parse] ([None] when it throws) and
    [admin.initializeApp({ credential: admin.credential.cert(_) })] ([Some e]
    when it throws [e]).  They are parameters of the whole development. *)
Class Runtime : Type := {
  StringToNumber : string → num;
  NumberToString : Qc → string;
  Math_PI : num;
  Math_sin : num → num;
  Math_cos : num → num;
  Math_asin : num → num;
  Math_sqrt : num → num;
  JSON_parse : string → option string;
  initializeApp : string → option Exn;
}.

Section coercions.
Context `{Runtime}.

(** [Number(v)] *)
Definition Number (v : jsval) : num :=
  match v with
  | JUndefined => NaN
  | JNull => int 0
  | JBool b => if b then int 1 else int 0
  | JNum n => n
  | JStr s => StringToNumber s
  end.

(** [String(v)], also what a template literal applies to its holes. *)
Definition String (v : jsval) : string :=
  match v with
  | JUndefined => "undefined"
  | JNull => "null"
  | JBool b => if b then "true" else "false"
  | JNum NaN => "NaN"
  | JNum (Fin q) => NumberToString q
  | JStr s => s
  end.

End coercions.

End JS.

(** ** [Array.prototype.sort] *)

(** ECMAScript specifies the sort as stable, and reads the comparator's
    result [v] only through [v < 0], [v > 0], a [NaN] counting as [0]; with a
    consistent comparator the outcome is the one stable sorted arrangement,
    which insertion from the right computes ([Array_sort_canonical] below
    shows there is no other).  With an inconsistent comparator ECMAScript
    leaves the order to the implementation. *)
Module ArraySort.
Import JS.

Section sort.
Context {A : Type} (cmp : A → A → num).

Definition goes_after (x y : A) : bool := num_gt (cmp x y) (int 0).

Fixpoint insert_sorted (x : A) (l : list A) : list A :=
  match l with
  | [] => [x]
  | y :: l' => if goes_after x y then y :: insert_sorted x l' else x :: l
  end.

Definition Array_sort (l : list A) : list A := foldr insert_sorted [] l.

End sort.

End ArraySort.

(** ** Documents, the world, and the calls a handler can make *)

Module Store.
Import JS ArraySort.

Definition result (X : Type) : Type := Exn + X.

(** [process.env]: a variable is a string or is not set. *)
Record Env : Type := mkEnv {
  FIREBASE_SERVICE_ACCOUNT_JSON : option string;
  ADMIN_TOKEN : option string;
  RETENTION_DAYS : option string;
}.

Definition env_val (o : option string) : jsval :=
  match o with
  | Some s => JStr s
  | None => JUndefined
  end.

(** A document of the [emergencies] collection.  [acceptedAt] is absent
    until an accept transaction writes it. *)
Record EmergencyDoc : Type := mkEmergency {
  e_id : num;
  e_elderlyId : num;
  e_latitude : jsval;
  e_longitude : jsval;
  e_status : string;
  e_volunteerId : option num;
  e_createdAt : num;
  e_updatedAt : num;
  e_acceptedAt : option num;
}.

(** The argument of [update]: the fields it names, the rest left alone. *)
Record EmergencyPatch : Type := mkPatch {
  p_status : option string;
  p_volunteerId : option (option num);
  p_acceptedAt : option num;
  p_updatedAt : option num;
}.

Definition apply_patch (p : EmergencyPatch) (e : EmergencyDoc) : EmergencyDoc :=
  {| e_id := e_id e;
     e_elderlyId := e_elderlyId e;
     e_latitude := e_latitude e;
     e_longitude := e_longitude e;
     e_status := default (e_status e) (p_status p);
     e_volunteerId := default (e_volunteerId e) (p_volunteerId p);
     e_createdAt := e_createdAt e;
     e_updatedAt := default (e_updatedAt e) (p_updatedAt p);
     e_acceptedAt := match p_acceptedAt p with
                     | Some t => Some t
                     | None => e_acceptedAt e
                     end |}.

(** A document of the [devices] collection; a field never written reads
    [undefined]. *)
Record DeviceDoc : Type := mkDevice {
  d_userId : jsval;
  d_role : jsval;
  d_fcmToken : jsval;
  d_isAvailable : jsval;
  d_latitude : jsval;
  d_longitude : jsval;
  d_lastSeenAt : jsval;
}.

Record AuditEntry : Type := mkAudit {
  a_emergencyId : num;
  a_action : string;
  a_actorRole : string;
  a_actorUserId : option num;
  a_notifiedVolunteerUserIds : option (list jsval);
  a_createdAt : num;
}.

(** A push message handed to Firebase Cloud Messaging. *)
Record Message : Type := mkMessage {
  m_tokens : list jsval;
  m_data : list (string * string);
}.

(** What a transaction callback asks for. *)
Inductive TxWrite : Type :=
  | TxUpdate (ref : string) (patch : EmergencyPatch).

(** A transaction callback: it reads through [tx.get], may call
    [Date.now()], and either throws or leaves writes to commit. *)
Definition TxBody : Type :=
  (string → option EmergencyDoc) → num → result (list TxWrite).

(** The calls to the outside, in the order they were issued. *)
Inductive Call : Type :=
  | CallSet (key : string) (doc : EmergencyDoc)
  | CallGet (key : string)
  | CallUpdate (key : string) (patch : EmergencyPatch)
  | CallTransaction (outcome : result (list TxWrite))
  | CallAuditAdd (entry : AuditEntry)
  | CallVolunteersQuery
  | CallDeviceGet (key : string)
  | CallSendEachForMulticast (msg : Message)
  | CallSend (msg : Message)
  | CallCleanupQuery (cutoff : num)
  | CallBatchCommit (keys : list string).

Definition is_send (c : Call) : bool :=
  match c with
  | CallSendEachForMulticast _ | CallSend _ => true
  | _ => false
  end.

(** Everything the handlers share.  [devices] is kept in document-name
    order, the order a query returns.  [messaging] is [None] while Firebase
    Cloud Messaging takes calls and [Some e] while its calls reject with [e].
    Firestore calls are taken to complete, with two exceptions: an
    [update] of a document that does not exist is rejected, and the client
    refuses an inequality filter on [NaN]. *)
Record World : Type := mkWorld {
  apps_length : nat;
  clock : Z;
  emergencies : gmap string EmergencyDoc;
  devices : list (string * DeviceDoc);
  audit_logs : list AuditEntry;
  messaging : option Exn;
  outbox : list Message;
  calls : list Call;
}.

Definition set_emergencies (f : gmap string EmergencyDoc → gmap string EmergencyDoc)
    (w : World) : World :=
  {| apps_length := apps_length w; clock := clock w;
     emergencies := f (emergencies w); devices := devices w;
     audit_logs := audit_logs w; messaging := messaging w;
     outbox := outbox w; calls := calls w |}.

Definition add_audit (a : AuditEntry) (w : World) : World :=
  {| apps_length := apps_length w; clock := clock w;
     emergencies := emergencies w; devices := devices w;
     audit_logs := audit_logs w ++ [a]; messaging := messaging w;
     outbox := outbox w; calls := calls w |}.

Definition add_outbox (m : Message) (w : World) : World :=
  {| apps_length := apps_length w; clock := clock w;
     emergencies := emergencies w; devices := devices w;
     audit_logs := audit_logs w; messaging := messaging w;
     outbox := outbox w ++ [m]; calls := calls w |}.

Definition add_call (c : Call) (w : World) : World :=
  {| apps_length := apps_length w; clock := clock w;
     emergencies := emergencies w; devices := devices w;
     audit_logs := audit_logs w; messaging := messaging w;
     outbox := outbox w; calls := calls w ++ [c] |}.

Definition add_app (w : World) : World :=
  {| apps_length := S (apps_length w); clock := clock w;
     emergencies := emergencies w; devices := devices w;
     audit_logs := audit_logs w; messaging := messaging w;
     outbox := outbox w; calls := calls w |}.

(** The calls, indexed by what they return. *)
Inductive Op : Type → Type :=
  | InitFirebase (env : Env) : Op unit
  | DateNow : Op num
  | EmergencySet (key : string) (doc : EmergencyDoc) : Op unit
  | EmergencyGet (key : string) : Op (option EmergencyDoc)
  | EmergencyUpdate (key : string) (patch : EmergencyPatch) : Op unit
  | RunTransaction (body : TxBody) : Op unit
  | AuditAdd (entry : AuditEntry) : Op unit
  | VolunteersQuery : Op (list DeviceDoc)
  | DeviceGet (key : string) : Op (option DeviceDoc)
  | SendEachForMulticast (msg : Message) : Op unit
  | Send (msg : Message) : Op unit
  | CleanupQuery (cutoff : num) : Op (list string)
  | BatchCommit (keys : list string) : Op unit.

Definition apply_write (m : gmap string EmergencyDoc) (wr : TxWrite)
    : gmap string EmergencyDoc :=
  match wr with
  | TxUpdate ref patch => alter (apply_patch patch) ref m
  end.

Fixpoint device_lookup (key : string) (ds : list (string * DeviceDoc))
    : option DeviceDoc :=
  match ds with
  | [] => None
  | (k, d) :: ds' => if String.eqb k key then Some d else device_lookup key ds'
  end.

Definition is_available_volunteer (d : DeviceDoc) : bool :=
  strict_eq (d_role d) (JStr "volunteer") && strict_eq (d_isAvailable d) (JBool true).

Definition older_first (a b : string * EmergencyDoc) : num :=
  num_sub (e_createdAt a.2) (e_createdAt b.2).

(** [where('createdAt', '<', cutoff).limit(200)]: Firestore returns the
    matches by ascending [createdAt]. *)
Definition created_before (cutoff : num) (m : gmap string EmergencyDoc) : list string :=
  fst <$> take 200 (Array_sort older_first
    (filter (λ kd, num_lt (e_createdAt kd.2) cutoff = true) (map_to_list m))).

(** What the Firestore client throws when [where] is given [NaN] with an
    operator other than [==] and [!=].  It throws while the query is
    built, before a call is issued. *)
Definition nan_filter : Exn :=
  Error "Invalid query. You can only perform '==' and '!=' comparisons on NaN.".

Definition send_to_messaging (c : Call) (msg : Message) (w : World)
    : result unit * World :=
  match messaging w with
  | Some e => (inl e, add_call c w)
  | None => (inr (), add_call c (add_outbox msg w))
  end.

Section exec.
Context `{Runtime}.

(** [initFirebase], lines 7-25.  It is synchronous, so it runs in one piece. *)
Definition initFirebase (env : Env) (w : World) : result unit * World :=
if bool_decide (apps_length w ≠ 0%nat) then (inr (), w)
else
  let raw := env_val (FIREBASE_SERVICE_ACCOUNT_JSON env) in
  if negb (truthy raw) then (inl (Error "Missing FIREBASE_SERVICE_ACCOUNT_JSON"), w)
  else
    match JSON_parse (String raw) with
    | None => (inl (Error "FIREBASE_SERVICE_ACCOUNT_JSON must be valid JSON"), w)
    | Some serviceAccount =>
        match initializeApp serviceAccount with
        | Some e => (inl e, w)
        | None => (inr (), add_app w)
        end
    end.

(** One call, run against the world in one piece.  That holds of a
  transaction too: Firestore serialises the transactions that read the
  same document, running a callback again when the document changed under
  it, so the reads, the checks and the writes of one transaction are not
  interleaved with another. *)
Definition exec {X : Type} (op : Op X) (w : World) : result X * World :=
match op in Op X return result X * World with
| InitFirebase env => initFirebase env w
| DateNow => (inr (int (clock w)), w)
| EmergencySet key doc =>
    (inr (), add_call (CallSet key doc) (set_emergencies (insert key doc) w))
| EmergencyGet key =>
    (inr (emergencies w !! key), add_call (CallGet key) w)
| EmergencyUpdate key patch =>
    match emergencies w !! key with
    | Some _ =>
        (inr (), add_call (CallUpdate key patch)
                   (set_emergencies (alter (apply_patch patch) key) w))
    | None => (inl (Error "NOT_FOUND: no document to update"),
               add_call (CallUpdate key patch) w)
    end
| RunTransaction body =>
    let outcome := body (λ ref, emergencies w !! ref) (int (clock w)) in
    match outcome with
    | inl e => (inl e, add_call (CallTransaction outcome) w)
    | inr writes =>
        (inr (), add_call (CallTransaction outcome)
                   (set_emergencies (λ m, foldl apply_write m writes) w))
    end
| AuditAdd entry => (inr (), add_call (CallAuditAdd entry) (add_audit entry w))
| VolunteersQuery =>
    (inr (take 200 (filter (λ d, is_available_volunteer d = true) (snd <$> devices w))),
     add_call CallVolunteersQuery w)
| DeviceGet key => (inr (device_lookup key (devices w)), add_call (CallDeviceGet key) w)
| SendEachForMulticast msg => send_to_messaging (CallSendEachForMulticast msg) msg w
| Send msg => send_to_messaging (CallSend msg) msg w
| CleanupQuery cutoff =>
    match cutoff with
    | NaN => (inl nan_filter, w)
    | Fin _ =>
        (inr (created_before cutoff (emergencies w)),
         add_call (CallCleanupQuery cutoff) w)
    end
| BatchCommit keys =>
    (inr (), add_call (CallBatchCommit keys)
               (set_emergencies (λ m, foldl (λ m k, delete k m) m keys) w))
end.

End exec.

(** A handler is a finite tree of calls: each node is one call and what
    the handler does with its result, a rejection included. *)
Inductive Prog (A : Type) : Type :=
  | Ret (a : A)
  | Throw (e : Exn)
  | Do {X : Type} (op : Op X) (k : result X → Prog A).
Arguments Ret {A} a.
Arguments Throw {A} e.
Arguments Do {A X} op k.

Fixpoint bind {A B : Type} (p : Prog A) (f : A → Prog B) : Prog B :=
  match p with
  | Ret a => f a
  | Throw e => Throw e
  | Do op k => Do op (λ r, bind (k r) f)
  end.

(** [await op]: continue with the value, or throw the rejection. *)
Definition perform {X : Type} (op : Op X) : Prog X :=
  Do op (λ r, match r with inl e => Throw e | inr x => Ret x end).

(** [try { p } catch (e) { h e }] *)
Fixpoint try_catch {A : Type} (p : Prog A) (h : Exn → Prog A) : Prog A :=
  match p with
  | Ret a => Ret a
  | Throw e => h e
  | Do op k => Do op (λ r, try_catch (k r) h)
  end.

#[global] Instance prog_ret : MRet Prog := @Ret.
#[global] Instance prog_bind : MBind Prog := λ A B f p, bind p f.

(** Running a handler alone, from start to end. *)
Fixpoint run `{Runtime} {A : Type} (p : Prog A) (w : World) : result A * World :=
  match p with
  | Ret a => (inr a, w)
  | Throw e => (inl e, w)
  | Do op k => let '(r, w') := exec op w in run (k r) w'
  end.

End Store.

(** ** The handlers of [src/index.js] *)

Module Handlers.
Import JS ArraySort Store.

Inductive Body : Type :=
  | BodyError (error : string)
  | BodyOk
  | BodyId (id : num)
  | BodyCleanup (deleted : nat) (days : num).

Record Response : Type := respond { status_code : nat; body : Body }.

(** The body of [POST /api/emergencies]; an absent field is [JUndefined]. *)
Record ReportBody : Type := mkReport {
  r_elderly_id : jsval;
  r_latitude : jsval;
  r_longitude : jsval;
  r_timestamp : jsval;
  r_status : jsval;
}.

(** The body of [PUT /api/emergencies/:id]. *)
Record PutBody : Type := mkPut {
  u_status : jsval;
  u_volunteer_id : jsval;
}.

(** An element of the [volunteers] array. *)
Record Volunteer : Type := mkVolunteer {
  userId : jsval;
  fcmToken : jsval;
  distanceKm : option num;
}.

Section handlers.
Context `{Runtime}.

(** [haversineKm], lines 27-39. *)
Definition haversineKm (aLat aLon bLat bLon : num) : num :=
  let R := int 6371 in
  let dLat := num_div (num_mul (num_sub bLat aLat) Math_PI) (int 180) in
  let dLon := num_div (num_mul (num_sub bLon aLon) Math_PI) (int 180) in
  let lat1 := num_div (num_mul aLat Math_PI) (int 180) in
  let lat2 := num_div (num_mul bLat Math_PI) (int 180) in
  let sinDLat := Math_sin (num_div dLat (int 2)) in
  let sinDLon := Math_sin (num_div dLon (int 2)) in
  let h := num_add (num_mul sinDLat sinDLat)
             (num_mul (num_mul (num_mul (Math_cos lat1) (Math_cos lat2)) sinDLon)
                sinDLon) in
  num_mul (num_mul (int 2) R) (Math_asin (Math_sqrt h)).

(** [e.message || 'Server error'] in the outer [catch] of every handler. *)
Definition server_error (e : Exn) : Prog Response :=
  mret (respond 500
          (BodyError (if truthy (JStr (message e)) then message e else "Server error"))).

(** One turn of the [devicesSnap.forEach] callback, lines 165-182. *)
Definition collectVolunteer (now : num) (latitude longitude : jsval)
    (volunteers : list Volunteer) (d : DeviceDoc) : list Volunteer :=
  let lastSeenAt := if typeof_number (d_lastSeenAt d) then Number (d_lastSeenAt d)
                    else int 0 in
  let maxAgeMs := int (10 * 60 * 1000) in
  if negb (truthy (d_fcmToken d)) then volunteers
  else if num_gt (num_sub now lastSeenAt) maxAgeMs then volunteers
  else
    let distanceKm :=
      if typeof_number (d_latitude d) && typeof_number (d_longitude d)
      then Some (haversineKm (Number latitude) (Number longitude)
                   (Number (d_latitude d)) (Number (d_longitude d)))
      else None in
    volunteers ++ [ {| userId := d_userId d;
                       fcmToken := d_fcmToken d;
                       distanceKm := distanceKm |} ].

Definition collectVolunteers (now : num) (latitude longitude : jsval)
    (devicesSnap : list DeviceDoc) : list Volunteer :=
  foldl (collectVolunteer now latitude longitude) [] devicesSnap.

(** The comparator given to [volunteers.sort], lines 184-189. *)
Definition compareVolunteers (a b : Volunteer) : num :=
  match distanceKm a, distanceKm b with
  | None, None => int 0
  | None, Some _ => int 1
  | Some _, None => int (-1)
  | Some x, Some y => num_sub x y
  end.

(** Lines 164-191: filter, rank, keep the first ten. *)
Definition selectVolunteers (now : num) (latitude longitude : jsval)
    (devicesSnap : list DeviceDoc) : list Volunteer :=
  take 10 (Array_sort compareVolunteers
             (collectVolunteers now latitude longitude devicesSnap)).

(** [POST /api/emergencies], lines 123-220. *)
Definition postEmergencies (env : Env) (req : ReportBody) : Prog Response :=
  try_catch
    (perform (InitFirebase env);;
     let elderly_id := r_elderly_id req in
     let latitude := r_latitude req in
     let longitude := r_longitude req in
     let timestamp := r_timestamp req in
     let status := r_status req in
     if negb (truthy elderly_id) || negb (typeof_number latitude)
        || negb (typeof_number longitude)
     then mret (respond 400 (BodyError "elderly_id, latitude, longitude are required"))
     else
       emergencyId ←
         (if truthy (JNum (Number timestamp)) && num_gt (Number timestamp) (int 0)
          then mret (Number timestamp)
          else perform DateNow);
       now ← perform DateNow;
       let emergencyDoc :=
         {| e_id := emergencyId;
            e_elderlyId := Number elderly_id;
            e_latitude := latitude;
            e_longitude := longitude;
            e_status := String (if truthy status then status else JStr "active");
            e_volunteerId := None;
            e_createdAt := now;
            e_updatedAt := now;
            e_acceptedAt := None |} in
       perform (EmergencySet (String (JNum emergencyId)) emergencyDoc);;
       perform (AuditAdd {| a_emergencyId := emergencyId;
                            a_action := "created";
                            a_actorRole := "elderly";
                            a_actorUserId := Some (Number elderly_id);
                            a_notifiedVolunteerUserIds := None;
                            a_createdAt := now |});;
       devicesSnap ← perform VolunteersQuery;
       let top := selectVolunteers now latitude longitude devicesSnap in
       let tokens := filter (λ t, truthy t = true) (fcmToken <$> top) in
       (if bool_decide (length tokens ≠ 0%nat) then
          perform (SendEachForMulticast
                     {| m_tokens := tokens;
                        m_data := [("type", "emergency_new");
                                   ("emergency_id", String (JNum emergencyId));
                                   ("elderly_id", String elderly_id);
                                   ("latitude", String latitude);
                                   ("longitude", String longitude)] |});;
          pushedAt ← perform DateNow;
          perform (AuditAdd
                     {| a_emergencyId := emergencyId;
                        a_action := "pushed_to_volunteers";
                        a_actorRole := "system";
                        a_actorUserId := None;
                        a_notifiedVolunteerUserIds :=
                          Some (filter (λ x, typeof_number x = true) (userId <$> top));
                        a_createdAt := pushedAt |})
        else mret ());;
       mret (respond 201 (BodyId emergencyId)))
    server_error.

(** The callback given to [db.runTransaction], lines 282-300. *)
Definition acceptTransaction (ref : string) (volunteer_id : jsval) : TxBody :=
  λ tx_get now,
    match tx_get ref with
    | None => inl (Error "NOT_FOUND")
    | Some current =>
        if negb (String.eqb (e_status current) "active")
        then inl (mkExn "ALREADY_TAKEN" (Some "ALREADY_TAKEN"))
        else inr [TxUpdate ref {| p_status := Some "accepted";
                                  p_volunteerId := Some (Some (Number volunteer_id));
                                  p_acceptedAt := Some now;
                                  p_updatedAt := Some now |}]
    end.

(** The inner [catch], lines 301-309: a response to return at once, or
    the error thrown again. *)
Definition acceptCatch (err : Exn) : Prog (option Response) :=
  if String.eqb (message err) "NOT_FOUND"
  then mret (Some (respond 404 (BodyError "Emergency not found")))
  else if bool_decide (code err = Some "ALREADY_TAKEN")
          || String.eqb (message err) "ALREADY_TAKEN"
  then mret (Some (respond 409 (BodyError "Emergency already accepted")))
  else Throw err.

(** [PUT /api/emergencies/:id], lines 259-366. *)
Definition putEmergency (env : Env) (id : string) (req : PutBody) : Prog Response :=
  try_catch
    (perform (InitFirebase env);;
     let emergencyId := Number (JStr id) in
     if negb (truthy (JNum emergencyId))
     then mret (respond 400 (BodyError "Invalid emergency id"))
     else
       let status := u_status req in
       let volunteer_id := u_volunteer_id req in
       if negb (truthy status)
       then mret (respond 400 (BodyError "status is required"))
       else
         let ref := String (JNum emergencyId) in
         if String.eqb (String status) "accepted" then
           if negb (truthy volunteer_id)
           then mret (respond 400 (BodyError "volunteer_id is required for accepted"))
           else
             returned ← try_catch
               (perform (RunTransaction (acceptTransaction ref volunteer_id));;
                mret None)
               acceptCatch;
             match returned with
             | Some response => mret response
             | None =>
                 auditAt ← perform DateNow;
                 perform (AuditAdd {| a_emergencyId := emergencyId;
                                      a_action := "accepted";
                                      a_actorRole := "volunteer";
                                      a_actorUserId := Some (Number volunteer_id);
                                      a_notifiedVolunteerUserIds := None;
                                      a_createdAt := auditAt |});;
                 emergency ← perform (EmergencyGet ref);
                 match emergency with
                 | Some emergency =>
                     elderlyDevice ← perform
                       (DeviceGet ("elderly_" +:+ String (JNum (e_elderlyId emergency))));
                     let elderlyToken :=
                       match elderlyDevice with
                       | Some d => d_fcmToken d
                       | None => JNull
                       end in
                     if truthy elderlyToken then
                       perform (Send
                         {| m_tokens := [elderlyToken];
                            m_data := [("type", "emergency_accepted");
                                       ("emergency_id", String (JNum emergencyId));
                                       ("volunteer_id", String volunteer_id)] |})
                     else mret ()
                 | None => mret ()
                 end;;
                 mret (respond 200 BodyOk)
             end
         else
           patchAt ← perform DateNow;
           let patch :=
             {| p_status := Some (String status);
                p_volunteerId :=
                  if negb (typeof_undefined volunteer_id)
                  then Some (if loose_null volunteer_id then None
                             else Some (Number volunteer_id))
                  else None;
                p_acceptedAt := None;
                p_updatedAt := Some patchAt |} in
           snap ← perform (EmergencyGet ref);
           match snap with
           | None => mret (respond 404 (BodyError "Emergency not found"))
           | Some _ =>
               perform (EmergencyUpdate ref patch);;
               auditAt ← perform DateNow;
               perform (AuditAdd {| a_emergencyId := emergencyId;
                                    a_action := "status_" +:+ String status;
                                    a_actorRole := "system";
                                    a_actorUserId := None;
                                    a_notifiedVolunteerUserIds := None;
                                    a_createdAt := auditAt |});;
               mret (respond 200 BodyOk)
           end)
    server_error.

(** [POST /api/admin/cleanup], lines 368-397.  [token] is the
    [x-admin-token] header and [days] the query parameter of that name. *)
Definition adminCleanup (env : Env) (token days_param : jsval) : Prog Response :=
  try_catch
    (perform (InitFirebase env);;
     if negb (truthy (env_val (ADMIN_TOKEN env)))
        || negb (strict_eq token (env_val (ADMIN_TOKEN env)))
     then mret (respond 403 (BodyError "Forbidden"))
     else
       let days :=
         if truthy days_param then Number days_param
         else if truthy (env_val (RETENTION_DAYS env))
              then Number (env_val (RETENTION_DAYS env))
              else int 30 in
       now ← perform DateNow;
       let cutoff :=
         num_sub now
           (num_mul (num_mul (num_mul (num_mul days (int 24)) (int 60)) (int 60))
              (int 1000)) in
       snap ← perform (CleanupQuery cutoff);
       let count := length snap in
       (if bool_decide (count ≠ 0%nat) then perform (BatchCommit snap) else mret ());;
       mret (respond 200 (BodyCleanup count days)))
    server_error.

End handlers.

End Handlers.

(** ** Two handlers at once *)

(** Node runs a handler without interruption from one [await] to the next,
    so two requests in flight interleave call by call.  A schedule says
    whose call comes next; [race] follows the schedule and then lets the
    first handler, then the second, run to its end.  Every complete
    interleaving of the two is [race s] for some [s]. *)
Module Sched.
Import JS Store.

Inductive Turn : Type := First | Second.

Section sched.
Context `{Runtime}.

Definition step {A : Type} (p : Prog A) (w : World) : Prog A * World :=
  match p with
  | Do op k => let '(r, w') := exec op w in (k r, w')
  | _ => (p, w)
  end.

Fixpoint interleave {A B : Type} (s : list Turn) (p1 : Prog A) (p2 : Prog B)
    (w : World) : Prog A * Prog B * World :=
  match s with
  | [] => (p1, p2, w)
  | First :: s' => let '(p1', w') := step p1 w in interleave s' p1' p2 w'
  | Second :: s' => let '(p2', w') := step p2 w in interleave s' p1 p2' w'
  end.

Definition race {A B : Type} (s : list Turn) (p1 : Prog A) (p2 : Prog B)
    (w : World) : result A * result B * World :=
  let '(p1', p2', w') := interleave s p1 p2 w in
  let '(r1, w1) := run p1' w' in
  let '(r2, w2) := run p2' w1 in
  (r1, r2, w2).

End sched.

End Sched.

(** ** Requests served one after the other *)

Module Server.
Import JS Store Handlers.

Inductive Request : Type :=
  | Report (req : ReportBody)
  | Put (id : string) (req : PutBody)
  | Cleanup (token days : jsval).

Section server.
Context `{Runtime}.

Definition handler (env : Env) (r : Request) : Prog Response :=
  match r with
  | Report req => postEmergencies env req
  | Put id req => putEmergency env id req
  | Cleanup token days => adminCleanup env token days
  end.

Definition serve (env : Env) (r : Request) (w : World) : result Response * World :=
  run (handler env r) w.

(** The responses, in order, and the world left behind. *)
Fixpoint serve_all (env : Env) (rs : list Request) (w : World)
    : list (result Response) * World :=
  match rs with
  | [] => ([], w)
  | r :: rs' =>
      let '(resp, w') := serve env r w in
      let '(resps, w'') := serve_all env rs' w' in
      (resp :: resps, w'')
  end.

End server.

End Server.

(** ** A runtime to evaluate with *)

(** Decimal integers (below 10^21 in size) are read and printed as
    JavaScript does; the other strings read as [NaN], the other numbers
    print as a fraction, and [Math] is replaced by short rational
    approximations.  The closed examples below are computed with it, on
    inputs inside that fragment. *)
Module Decimal.
Import JS.

Definition digit (c : ascii) : option Z :=
  let n := Z.of_nat (nat_of_ascii c) in
  if bool_decide (48 ≤ n ≤ 57)%Z then Some (n - 48)%Z else None.

Fixpoint digits (acc : Z) (s : string) : option Z :=
  match s with
  | EmptyString => Some acc
  | String.String c s' =>
      match digit c with
      | Some d => digits (10 * acc + d)%Z s'
      | None => None
      end
  end.

Definition read (s : string) : num :=
  match s with
  | EmptyString => int 0
  | String.String "-"%char (String.String c s') =>
      match digits 0 (String.String c s') with
      | Some z => int (- z)
      | None => NaN
      end
  | String.String "+"%char (String.String c s') =>
      match digits 0 (String.String c s') with
      | Some z => int z
      | None => NaN
      end
  | _ => match digits 0 s with
         | Some z => int z
         | None => NaN
         end
  end.

Definition print (q : Qc) : string :=
  let n := Qnum (this q) in
  let d := Qden (this q) in
  if bool_decide (d = 1%positive) then pretty n
  else pretty n +:+ "/" +:+ pretty (Zpos d).

Definition on_fin (f : Qc → num) (x : num) : num :=
  match x with
  | NaN => NaN
  | Fin q => f q
  end.

Definition sin3 (x : Qc) : num := Fin (x - x * x * x / Qc_of_Z 6)%Qc.
Definition cos2 (x : Qc) : num := Fin (Qc_of_Z 1 - x * x / Qc_of_Z 2)%Qc.
Definition asin3 (x : Qc) : num := Fin (x + x * x * x / Qc_of_Z 6)%Qc.

(** The square root to twelve decimals. *)
Definition sqrt12 (x : Qc) : num :=
  if bool_decide (x < Qc_of_Z 0)%Qc then NaN
  else
    let scaled := (Qnum (this x) * 10 ^ 24 / Zpos (Qden (this x)))%Z in
    Fin (Qc_of_Z (Z.sqrt scaled) / Qc_of_Z (10 ^ 12))%Qc.

Definition runtime : Runtime := {|
  StringToNumber := read;
  NumberToString := print;
  Math_PI := Fin (Qc_of_Z 355 / Qc_of_Z 113)%Qc;
  Math_sin := on_fin sin3;
  Math_cos := on_fin cos2;
  Math_asin := on_fin asin3;
  Math_sqrt := on_fin sqrt12;
  JSON_parse := Some;
  initializeApp := λ _, None;
|}.

End Decimal.

(** ** What the statements below are about *)

Module Props.
Import JS ArraySort Store Handlers Sched Server.

(** Two worlds with the same data: everything but the count of
    initialised Firebase apps. *)
Definition same_data (w w' : World) : Prop :=
  clock w' = clock w ∧ emergencies w' = emergencies w ∧ devices w' = devices w
  ∧ audit_logs w' = audit_logs w ∧ messaging w' = messaging w
  ∧ outbox w' = outbox w ∧ calls w' = calls w.

(** The calls that write to the [emergencies] collection. *)
Definition is_store_write (c : Call) : bool :=
  match c with
  | CallSet _ _ | CallUpdate _ _ | CallTransaction _ | CallBatchCommit _ => true
  | _ => false
  end.

(** From [w] to [w'] the emergencies, the state of messaging and the
    Firebase app are as they were, and no call wrote to the store. *)
Definition untouched (w w' : World) : Prop :=
  emergencies w' = emergencies w ∧ messaging w' = messaging w
  ∧ apps_length w' = apps_length w
  ∧ ∃ cs, calls w' = calls w ++ cs ∧ Forall (λ c, is_store_write c = false) cs.

Definition quiet_op {X : Type} (op : Op X) : bool :=
  match op with
  | DateNow | EmergencyGet _ | AuditAdd _ | VolunteersQuery | DeviceGet _
  | SendEachForMulticast _ | Send _ | CleanupQuery _ => true
  | _ => false
  end.

(** The responses of the accept path. *)
Definition not_found : Response := respond 404 (BodyError "Emergency not found").
Definition conflict : Response := respond 409 (BodyError "Emergency already accepted").
Definition ok : Response := respond 200 BodyOk.

Definition already_taken : Exn := mkExn "ALREADY_TAKEN" (Some "ALREADY_TAKEN").

(** The answer to the caller whose transaction committed: [ok], unless the
    push to the reporter was rejected, which the outer [catch] turns into a
    500. *)
Definition won (m : option Exn) (r : Response) : Prop :=
  (m = None → r = ok) ∧ (r = ok ∨ status_code r = 500%nat).

(** Whether a response is the 200 of a served request, and whether a
    logged call is a transaction that committed. *)
Definition answered_ok (r : result Response) : bool :=
  match r with
  | inr resp => Nat.eqb (status_code resp) 200
  | inl _ => false
  end.

Definition committed (c : Call) : bool :=
  match c with
  | CallTransaction (inr _) => true
  | _ => false
  end.

(** A committed transaction that wrote the record under [key]. *)
Definition commits_on (key : string) (c : Call) : bool :=
  match c with
  | CallTransaction (inr writes) =>
      existsb (λ wr, match wr with TxUpdate ref _ => String.eqb ref key end) writes
  | _ => false
  end.

Definition accept_requests (rs : list (string * PutBody)) : list Request :=
  (λ x, Put x.1 x.2) <$> rs.

(** The invariant of a stored emergency: it names a volunteer exactly when
    an accept transaction has stamped it, and it does whenever its status
    is ['accepted']. *)
Definition doc_ok (e : EmergencyDoc) : Prop :=
  (is_Some (e_volunteerId e) ↔ is_Some (e_acceptedAt e))
  ∧ (e_status e = "accepted" → is_Some (e_volunteerId e)).

Definition docs_ok (m : gmap string EmergencyDoc) : Prop :=
  ∀ k e, m !! k = Some e → doc_ok e.

(** The record under [key], if there is one, carries no [acceptedAt]. *)
Definition unstamped (key : string) (w : World) : Prop :=
  ∀ e, emergencies w !! key = Some e → e_acceptedAt e = None.

(** From [w] to [w'] the log only grew, and the record under [key] got
    an [acceptedAt] only if a transaction writing it committed in
    between. *)
Definition stamps (key : string) (w w' : World) : Prop :=
  ∃ cs, calls w' = calls w ++ cs
    ∧ (unstamped key w →
       unstamped key w' ∨ Exists (λ c, commits_on key c = true) cs).

(** The time of the last heartbeat; a device that never recorded one
    counts as last seen at the epoch. *)
Definition last_seen (d : DeviceDoc) : num :=
  match d_lastSeenAt d with
  | JNum n => n
  | _ => int 0
  end.

(** The last heartbeat is more than [ms] milliseconds before [now]. *)
Definition older_than (ms : Z) (now : num) (d : DeviceDoc) : Prop :=
  ∃ n t, now = Fin n ∧ last_seen d = Fin t ∧ (Qc_of_Z ms < n - t)%Qc.

(** The candidates the selector keeps: a push token, and a heartbeat not
    more than ten minutes old. *)
Definition retained (now : num) (d : DeviceDoc) : Prop :=
  truthy (d_fcmToken d) = true ∧ ¬ older_than 600000 now d.

#[global] Instance older_than_dec ms now d : Decision (older_than ms now d).
Proof.
  unfold older_than. destruct now as [|n]; [right; by intros (? & ? & ? & _)|].
  destruct (last_seen d) as [|t]; [right; by intros (? & ? & ? & ? & _)|].
  destruct (decide (Qc_of_Z ms < n - t)%Qc) as [Hlt|Hn].
  - left. by exists n, t.
  - right. intros (n' & t' & [= <-] & [= <-] & Hlt). done.
Defined.

#[global] Instance retained_dec now d : Decision (retained now d).
Proof. unfold retained. apply _. Defined.

(** [a] may come before [b]: by ascending distance, the unknown last. *)
Definition ranks_before (a b : Volunteer) : Prop :=
  match distanceKm a, distanceKm b with
  | Some (Fin x), Some (Fin y) => (x ≤ y)%Qc
  | Some _, None => True
  | None, None => True
  | _, _ => False
  end.

(** The distance, when there is one, is a number. *)
Definition distance_known (v : Volunteer) : Prop := distanceKm v ≠ Some NaN.



Section props.
Context `{Runtime}.

(** [initFirebase()] returns: the SDK is initialised already, or the
    environment holds a service account it accepts. *)
Definition firebase_ready (env : Env) (w : World) : Prop :=
  (initFirebase env w).1 = inr ().

Definition after_init (env : Env) (w : World) : World := (initFirebase env w).2.

(** The document key an id in the URL leads to. *)
Definition accept_key (id : string) : string := String (JNum (Number (JStr id))).

(** A [PUT] that passes validation and takes the accept path. *)
Definition valid_accept (id : string) (req : PutBody) : Prop :=
  truthy (JNum (Number (JStr id))) = true
  ∧ u_status req = JStr "accepted"
  ∧ truthy (u_volunteer_id req) = true.

(** The patch of the accept transaction. *)
Definition accept_patch (volunteer_id : jsval) (now : num) : EmergencyPatch :=
  {| p_status := Some "accepted";
     p_volunteerId := Some (Some (Number volunteer_id));
     p_acceptedAt := Some now;
     p_updatedAt := Some now |}.

(** A handler all of whose remaining calls leave the store alone and
    which answers with a response in [Q], while messaging stays [m]. *)
Inductive Tail (m : option Exn) (Q : Response → Prop) : Prog Response → Prop :=
  | Tail_ret r : Q r → Tail m Q (Ret r)
  | Tail_do {X} (op : Op X) k :
      (∀ w, messaging w = m → untouched w (exec op w).2) →
      (∀ w, messaging w = m → Tail m Q (k (exec op w).1)) →
      Tail m Q (Do op k).

(** An accept in flight whose transaction has not run yet. *)
Inductive Pending (env : Env) (key : string) (v : jsval) (m : option Exn)
    : Prog Response → Prop :=
  | Pending_init k :
      Pending env key v m (k (inr ())) →
      Pending env key v m (Do (InitFirebase env) k)
  | Pending_tx k :
      Tail m (won m) (k (inr ())) →
      k (inl already_taken) = Ret conflict →
      k (inl (Error "NOT_FOUND")) = Ret not_found →
      Pending env key v m (Do (RunTransaction (acceptTransaction key v)) k).

(** The record under [key] is open, or was taken by [v]. *)
Definition is_active (key : string) (w : World) : Prop :=
  ∃ e, emergencies w !! key = Some e ∧ e_status e = "active".

Definition accepted_by (key : string) (v : jsval) (w : World) : Prop :=
  ∃ e, emergencies w !! key = Some e ∧ e_status e = "accepted"
       ∧ e_volunteerId e = Some (Number v).

(** Two accepts of the same record, part of the way through: neither
    transaction has run and the record is open, or one of them has
    committed and the other has not run yet or has been turned down. *)
Inductive race_inv (env : Env) (key : string) (v1 v2 : jsval) (m : option Exn)
    : Prog Response → Prog Response → World → Prop :=
  | race_open p1 p2 w :
      Pending env key v1 m p1 → Pending env key v2 m p2 → is_active key w →
      race_inv env key v1 v2 m p1 p2 w
  | race_first p1 p2 w :
      Tail m (won m) p1 → Pending env key v2 m p2 ∨ p2 = Ret conflict →
      accepted_by key v1 w →
      race_inv env key v1 v2 m p1 p2 w
  | race_second p1 p2 w :
      Pending env key v1 m p1 ∨ p1 = Ret conflict → Tail m (won m) p2 →
      accepted_by key v2 w →
      race_inv env key v1 v2 m p1 p2 w.

(** The entry the loop pushes for a device it keeps. *)
Definition entry_of (latitude longitude : jsval) (d : DeviceDoc) : Volunteer :=
  {| userId := d_userId d;
     fcmToken := d_fcmToken d;
     distanceKm :=
       if typeof_number (d_latitude d) && typeof_number (d_longitude d)
       then Some (haversineKm (Number latitude) (Number longitude)
                    (Number (d_latitude d)) (Number (d_longitude d)))
       else None |}.

(** A handler each of whose calls takes the world from [w] to some [w']
    with [G w w'], whatever the calls before it returned. *)
Inductive Guarantees (G : World → World → Prop) {A : Type} : Prog A → Prop :=
  | Guarantees_ret a : Guarantees G (Ret a)
  | Guarantees_throw e : Guarantees G (Throw e)
  | Guarantees_do {X} (op : Op X) k :
      (∀ w, G w (exec op w).2) →
      (∀ r, Guarantees G (k r)) →
      Guarantees G (Do op k).

(** From [w] to [w'] the invariant of the stored emergencies is kept. *)
Definition keeps_docs (w w' : World) : Prop :=
  docs_ok (emergencies w) → docs_ok (emergencies w').

(** From [w] to [w'] at most one accept of the record under [key]
    committed; none did if the record was not open in [w], and after one
    did the record is not open. *)
Definition once (key : string) (w w' : World) : Prop :=
  ∃ cs, calls w' = calls w ++ cs
    ∧ (¬ is_active key w →
       ¬ is_active key w' ∧ filter (λ c, commits_on key c = true) cs = [])
    ∧ (filter (λ c, commits_on key c = true) cs = []
       ∨ (length (filter (λ c, commits_on key c = true) cs) = 1%nat
          ∧ ¬ is_active key w')).

(** The requests under which the invariant is kept: a report that does
    not ask for the status ['accepted'], an accept, a status change that
    leaves [volunteer_id] out, a cleanup. *)
Definition allowed (r : Request) : Prop :=
  match r with
  | Report req =>
      String (if truthy (r_status req) then r_status req else JStr "active") ≠ "accepted"
  | Put id req =>
      String (u_status req) = "accepted" ∨ u_volunteer_id req = JUndefined
  | Cleanup _ _ => True
  end.

(** The worlds the server can be in: it starts with no emergency, serves
    allowed requests, and between two requests anything but the
    emergencies may change (time passes, devices register, messaging
    goes down or comes back). *)
Inductive reachable (env : Env) : World → Prop :=
  | reach_start w : emergencies w = ∅ → reachable env w
  | reach_serve r w : reachable env w → allowed r → reachable env (serve env r w).2
  | reach_other w w' : reachable env w → emergencies w' = emergencies w → reachable env w'.

(** ** A report that passes validation, piece by piece *)

Definition passes_validation (req : ReportBody) : Prop :=
  truthy (r_elderly_id req) = true
  ∧ typeof_number (r_latitude req) = true
  ∧ typeof_number (r_longitude req) = true.

Definition report_id (req : ReportBody) (w : World) : num :=
  if truthy (JNum (Number (r_timestamp req)))
     && num_gt (Number (r_timestamp req)) (int 0)
  then Number (r_timestamp req)
  else int (clock w).

Definition report_key (req : ReportBody) (w : World) : string :=
  String (JNum (report_id req w)).

Definition report_doc (req : ReportBody) (w : World) : EmergencyDoc :=
  {| e_id := report_id req w;
     e_elderlyId := Number (r_elderly_id req);
     e_latitude := r_latitude req;
     e_longitude := r_longitude req;
     e_status := String (if truthy (r_status req) then r_status req else JStr "active");
     e_volunteerId := None;
     e_createdAt := int (clock w);
     e_updatedAt := int (clock w);
     e_acceptedAt := None |}.

Definition created_entry (req : ReportBody) (w : World) : AuditEntry :=
  {| a_emergencyId := report_id req w;
     a_action := "created";
     a_actorRole := "elderly";
     a_actorUserId := Some (Number (r_elderly_id req));
     a_notifiedVolunteerUserIds := None;
     a_createdAt := int (clock w) |}.

Definition report_top (req : ReportBody) (w : World) : list Volunteer :=
  selectVolunteers (int (clock w)) (r_latitude req) (r_longitude req)
    (take 200 (filter (λ d, is_available_volunteer d = true) (snd <$> devices w))).

Definition report_tokens (req : ReportBody) (w : World) : list jsval :=
  filter (λ t, truthy t = true) (fcmToken <$> report_top req w).

Definition report_message (req : ReportBody) (w : World) : Message :=
  {| m_tokens := report_tokens req w;
     m_data := [("type", "emergency_new");
                ("emergency_id", report_key req w);
                ("elderly_id", String (r_elderly_id req));
                ("latitude", String (r_latitude req));
                ("longitude", String (r_longitude req))] |}.

Definition pushed_entry (req : ReportBody) (w : World) : AuditEntry :=
  {| a_emergencyId := report_id req w;
     a_action := "pushed_to_volunteers";
     a_actorRole := "system";
     a_actorUserId := None;
     a_notifiedVolunteerUserIds :=
       Some (filter (λ x, typeof_number x = true) (userId <$> report_top req w));
     a_createdAt := int (clock w) |}.

(** The world once the record and its first audit entry are written and
    the directory has been queried. *)
Definition reported (req : ReportBody) (w : World) : World :=
  add_call CallVolunteersQuery
    (add_call (CallAuditAdd (created_entry req w))
       (add_audit (created_entry req w)
          (add_call (CallSet (report_key req w) (report_doc req w))
             (set_emergencies (insert (report_key req w) (report_doc req w)) w)))).

Definition created (req : ReportBody) (w : World) : Response :=
  respond 201 (BodyId (report_id req w)).

Definition failed (e : Exn) : Response :=
  respond 500 (BodyError (if truthy (JStr (message e)) then message e else "Server error")).

(** The calls a report makes after the directory query. *)
Definition report_tail (req : ReportBody) (w : World) : list Call :=
  if bool_decide (length (report_tokens req w) ≠ 0%nat) then
    match messaging w with
    | Some _ => [CallSendEachForMulticast (report_message req w)]
    | None => [CallSendEachForMulticast (report_message req w);
               CallAuditAdd (pushed_entry req w)]
    end
  else [].

(** The requests that can open the record under [key] again: a report
    whose id leads to [key], a status change to ['active']. *)
Definition reopens (key : string) (r : Request) (w : World) : Prop :=
  match r with
  | Report req => report_key req w = key
  | Put id req => accept_key id = key ∧ String (u_status req) = "active"
  | Cleanup _ _ => False
  end.

(** No request of [rs], served in turn from [w], is one of those. *)
Fixpoint never_reopened (env : Env) (key : string) (rs : list Request) (w : World)
    : Prop :=
  match rs with
  | [] => True
  | r :: rs' => ¬ reopens key r w ∧ never_reopened env key rs' (serve env r w).2
  end.




End props.

End Props.

(** ** Concrete data for the closed examples *)

Module Demo.
Import JS Store Handlers Server.

Definition env : Env :=
  {| FIREBASE_SERVICE_ACCOUNT_JSON := None;
     ADMIN_TOKEN := Some "s3cret";
     RETENTION_DAYS := None |}.

Definition key : string := "1700000000000".

(** An emergency reported by user 5 and still open. *)
Definition open_emergency : EmergencyDoc :=
  {| e_id := int 1700000000000;
     e_elderlyId := int 5;
     e_latitude := JNum (int 10);
     e_longitude := JNum (int 20);
     e_status := "active";
     e_volunteerId := None;
     e_createdAt := int 1700000000000;
     e_updatedAt := int 1700000000000;
     e_acceptedAt := None |}.

Definition volunteer_device (uid : Z) (token : jsval) (lat lon : jsval) (seen : jsval)
    : DeviceDoc :=
  {| d_userId := JNum (int uid);
     d_role := JStr "volunteer";
     d_fcmToken := token;
     d_isAvailable := JBool true;
     d_latitude := lat;
     d_longitude := lon;
     d_lastSeenAt := seen |}.

(** Five volunteers: 7 is two degrees away, 8 has no location, 9 is one
    degree away, 10 has no push token and 11 was last seen an hour ago. *)
Definition directory : list (string * DeviceDoc) :=
  [ ("volunteer_10",
     volunteer_device 10 JUndefined (JNum (int 10)) (JNum (int 20))
       (JNum (int 1700000590000)));
    ("volunteer_11",
     volunteer_device 11 (JStr "token-11") (JNum (int 10)) (JNum (int 20))
       (JNum (int 1699997000000)));
    ("volunteer_7",
     volunteer_device 7 (JStr "token-7") (JNum (int 12)) (JNum (int 20))
       (JNum (int 1700000590000)));
    ("volunteer_8",
     volunteer_device 8 (JStr "token-8") JNull JNull (JNum (int 1700000590000)));
    ("volunteer_9",
     volunteer_device 9 (JStr "token-9") (JNum (int 11)) (JNum (int 20))
       (JNum (int 1700000590000))) ].

Definition world : World :=
  {| apps_length := 1;
     clock := 1700000600000;
     emergencies := {[ key := open_emergency ]};
     devices := directory;
     audit_logs := [];
     messaging := None;
     outbox := [];
     calls := [] |}.

(** The same world while Firebase Cloud Messaging rejects calls. *)
Definition world_messaging_down : World :=
  {| apps_length := 1;
     clock := 1700000600000;
     emergencies := {[ key := open_emergency ]};
     devices := directory;
     audit_logs := [];
     messaging := Some (Error "messaging/server-unavailable");
     outbox := [];
     calls := [] |}.

Definition accept (volunteer : Z) : PutBody :=
  {| u_status := JStr "accepted"; u_volunteer_id := JNum (int volunteer) |}.

Definition set_status (s : string) (volunteer_id : jsval) : PutBody :=
  {| u_status := JStr s; u_volunteer_id := volunteer_id |}.

Definition report (elderly : Z) (timestamp status : jsval) : ReportBody :=
  {| r_elderly_id := JNum (int elderly);
     r_latitude := JNum (int 10);
     r_longitude := JNum (int 20);
     r_timestamp := timestamp;
     r_status := status |}.

(** A server that has not stored any emergency yet. *)
Definition fresh : World :=
  {| apps_length := 1;
     clock := 1700000600000;
     emergencies := ∅;
     devices := directory;
     audit_logs := [];
     messaging := None;
     outbox := [];
     calls := [] |}.

(** Volunteer 7 accepts the open emergency, the status is set back to
    ['active'], volunteer 9 accepts it. *)
Definition reopening : list Request :=
  [ Put key (accept 7); Put key (set_status "active" JUndefined); Put key (accept 9) ].

(** An emergency is reported with the status ['accepted']. *)
Definition born_accepted : list Request :=
  [ Report (report 5 (JNum (int 1700000000000)) (JStr "accepted")) ].

(** An emergency is reported, then cancelled by a request that names
    volunteer 9. *)
Definition cancelled_with_volunteer : list Request :=
  [ Report (report 5 (JNum (int 1700000000000)) JUndefined);
    Put key (set_status "cancelled" (JNum (int 9))) ].

(** An emergency is reported and accepted by volunteer 7. *)
Definition report_then_accept : list Request :=
  [ Report (report 5 (JNum (int 1700000000000)) JUndefined); Put key (accept 7) ].

(** The record [report_then_accept] leaves. *)
Definition accepted_emergency : EmergencyDoc :=
  {| e_id := int 1700000000000;
     e_elderlyId := int 5;
     e_latitude := JNum (int 10);
     e_longitude := JNum (int 20);
     e_status := "accepted";
     e_volunteerId := Some (int 7);
     e_createdAt := int 1700000600000;
     e_updatedAt := int 1700000600000;
     e_acceptedAt := Some (int 1700000600000) |}.

(** Volunteer 7 accepts the open emergency, then user 6 reports an
    emergency with the same timestamp. *)
Definition colliding_report : list Request :=
  [ Put key (accept 7); Report (report 6 (JNum (int 1700000000000)) JUndefined) ].

(** The record the second request of [colliding_report] leaves. *)
Definition second_report_doc : EmergencyDoc :=
  {| e_id := int 1700000000000;
     e_elderlyId := int 6;
     e_latitude := JNum (int 10);
     e_longitude := JNum (int 20);
     e_status := "active";
     e_volunteerId := None;
     e_createdAt := int 1700000600000;
     e_updatedAt := int 1700000600000;
     e_acceptedAt := None |}.


(** A schedule for two handlers. *)
Definition schedule : list Sched.Turn :=
  [ Sched.First; Sched.Second; Sched.Second; Sched.First; Sched.Second ].

End Demo.


(** ** The device directory and the read route *)

(** The routes that write the [devices] collection and the route that
    lists emergencies make one call at a time and are stated run alone,
    so they are written as functions of the world: a handler takes the
    world and gives its result, or the error thrown, and the world it
    leaves. *)
Module Directory.
Import JS ArraySort Store Handlers.

Definition Handler (A : Type) : Type := World → result A * World.

#[global] Instance handler_ret : MRet Handler := λ A a w, (inr a, w).

#[global] Instance handler_bind : MBind Handler := λ A B f m w,
  match m w with
  | (inr a, w') => f a w'
  | (inl e, w') => (inl e, w')
  end.

(** [try { m } catch (e) { h e }] *)
Definition catch {A : Type} (m : Handler A) (h : Exn → Handler A) : Handler A :=
  λ w, match m w with
       | (inr a, w') => (inr a, w')
       | (inl e, w') => h e w'
       end.

(** [String.prototype.trim], which the source calls and does not define. *)
Class StringMethods : Type := { trim : string → string }.

(** What [collection('devices').doc(name)] leads to when it is written.
    The name is the id of a document of the collection; or it is a path
    of more components, separated by [/], to a document of a
    subcollection, which no route reads; or it is refused with an error,
    by [doc] throwing (a path with an even number of components, or with
    an empty one) or by the write being rejected (an id the service does
    not allow). *)
Inductive DocPath : Type :=
  | Document (id : string)
  | Nested
  | Refused (e : Exn).

(** The rules of document names belong to the Firestore client and to the
    service; they are a parameter, as [trim] is. *)
Class Firestore : Type := { doc : string → DocPath }.

(** The argument of [set(_, { merge: true })] on a device: the fields it
    names.  [updatedAt] is written by both device routes, with the value
    of [lastSeenAt], and read by none; [DeviceDoc] does not keep it. *)
Record DevicePatch : Type := mkDevicePatch {
  dp_userId : option jsval;
  dp_role : option jsval;
  dp_fcmToken : option jsval;
  dp_isAvailable : option jsval;
  dp_latitude : option jsval;
  dp_longitude : option jsval;
  dp_lastSeenAt : option jsval;
  dp_updatedAt : option jsval;
}.

(** A document none of whose fields was ever written. *)
Definition blank_device : DeviceDoc :=
  {| d_userId := JUndefined; d_role := JUndefined; d_fcmToken := JUndefined;
     d_isAvailable := JUndefined; d_latitude := JUndefined;
     d_longitude := JUndefined; d_lastSeenAt := JUndefined |}.

Definition merge_device (p : DevicePatch) (d : DeviceDoc) : DeviceDoc :=
  {| d_userId := default (d_userId d) (dp_userId p);
     d_role := default (d_role d) (dp_role p);
     d_fcmToken := default (d_fcmToken d) (dp_fcmToken p);
     d_isAvailable := default (d_isAvailable d) (dp_isAvailable p);
     d_latitude := default (d_latitude d) (dp_latitude p);
     d_longitude := default (d_longitude d) (dp_longitude p);
     d_lastSeenAt := default (d_lastSeenAt d) (dp_lastSeenAt p) |}.

Fixpoint device_update (key : string) (f : DeviceDoc → DeviceDoc)
    (ds : list (string * DeviceDoc)) : list (string * DeviceDoc) :=
  match ds with
  | [] => []
  | (k, d) :: ds' =>
      if String.eqb k key then (k, f d) :: ds' else (k, d) :: device_update key f ds'
  end.

(** A new document takes its place in document-name order. *)
Fixpoint device_create (key : string) (d : DeviceDoc)
    (ds : list (string * DeviceDoc)) : list (string * DeviceDoc) :=
  match ds with
  | [] => [(key, d)]
  | (k, d0) :: ds' =>
      if String.ltb key k then (key, d) :: ds else (k, d0) :: device_create key d ds'
  end.

(** [set(patch, { merge: true })]: the document is created when it does
    not exist, and otherwise keeps the fields the patch does not name. *)
Definition device_set_merge (key : string) (patch : DevicePatch)
    (ds : list (string * DeviceDoc)) : list (string * DeviceDoc) :=
  match device_lookup key ds with
  | Some _ => device_update key (merge_device patch) ds
  | None => device_create key (merge_device patch blank_device) ds
  end.

Definition set_devices (f : list (string * DeviceDoc) → list (string * DeviceDoc))
    (w : World) : World :=
  {| apps_length := apps_length w; clock := clock w;
     emergencies := emergencies w; devices := f (devices w);
     audit_logs := audit_logs w; messaging := messaging w;
     outbox := outbox w; calls := calls w |}.

Definition by_name (a b : string * EmergencyDoc) : num :=
  match String.compare a.1 b.1 with
  | Lt => int (-1)
  | Eq => int 0
  | Gt => int 1
  end.

(** A query of equality filters with [limit(200)]: Firestore returns the
    matches by document name. *)
Definition emergencies_where (P : EmergencyDoc → bool) (m : gmap string EmergencyDoc)
    : list EmergencyDoc :=
  snd <$> take 200 (Array_sort by_name (filter (λ kd, P kd.2 = true) (map_to_list m))).

Section calls.
Context `{Runtime}.

(** A call of [Store], made in one piece. *)
Definition call {X : Type} (op : Op X) : Handler X := exec op.

(** [collection('devices').doc(docId).set(patch, { merge: true })] *)
Definition DeviceSetMerge `{Firestore} (docId : string) (patch : DevicePatch)
    : Handler unit :=
  λ w, match doc docId with
       | Document id => (inr (), set_devices (device_set_merge id patch) w)
       | Nested => (inr (), w)
       | Refused e => (inl e, w)
       end.

Definition EmergenciesWhere (P : EmergencyDoc → bool) : Handler (list EmergencyDoc) :=
  λ w, (inr (emergencies_where P (emergencies w)), w).

End calls.

End Directory.

Module Routes.
Import JS ArraySort Store Handlers Directory.

(** The body of [POST /api/devices/register]; an absent field is
    [JUndefined]. *)
Record RegisterBody : Type := mkRegister {
  g_user_id : jsval;
  g_role : jsval;
  g_fcm_token : jsval;
  g_is_available : jsval;
  g_latitude : jsval;
  g_longitude : jsval;
}.

(** The body of [POST /api/volunteers/availability]. *)
Record AvailabilityBody : Type := mkAvailability {
  v_volunteer_id : jsval;
  v_is_available : jsval;
  v_latitude : jsval;
  v_longitude : jsval;
  v_fcm_token : jsval;
}.

(** An element of the array [GET /api/emergencies/active] answers with. *)
Record ActiveItem : Type := mkActiveItem {
  i_id : num;
  i_elderly_id : num;
  i_latitude : num;
  i_longitude : num;
  i_timestamp : num;
  i_status : string;
  i_volunteer_id : option num;
}.

(** What a route answers: a status with a body, or the array of the read
    route, sent with status 200. *)
Inductive Reply : Type :=
  | Responded (r : Response)
  | Listed (out : list ActiveItem).

Definition reply_status (r : Reply) : nat :=
  match r with
  | Responded r => status_code r
  | Listed _ => 200
  end.

Section routes.
Context `{Runtime} `{StringMethods} `{Firestore}.

(** [e.message || 'Server error'] in the outer [catch] of every handler. *)
Definition error_response (e : Exn) : Response :=
  respond 500 (BodyError (if truthy (JStr (message e)) then message e else "Server error")).

(** [GET /api/health], lines 45-47. *)
Definition health : Handler Response := mret (respond 200 BodyOk).

(** [POST /api/devices/register], lines 49-88. *)
Definition devicesRegister (env : Env) (req : RegisterBody) : Handler Response :=
  catch
    (call (InitFirebase env);;
     let user_id := g_user_id req in
     let role := g_role req in
     let fcm_token := g_fcm_token req in
     let is_available := g_is_available req in
     let latitude := g_latitude req in
     let longitude := g_longitude req in
     if negb (truthy user_id) || negb (truthy role) || negb (truthy fcm_token)
     then mret (respond 400 (BodyError "user_id, role, fcm_token are required"))
     else
       let docId := String role +:+ "_" +:+ String user_id in
       now ← call DateNow;
       DeviceSetMerge docId
         {| dp_userId := Some (JNum (Number user_id));
            dp_role := Some (JStr (String role));
            dp_fcmToken := Some (JStr (String fcm_token));
            dp_isAvailable := Some (JBool (truthy is_available));
            dp_latitude := Some (if typeof_number latitude then latitude else JNull);
            dp_longitude := Some (if typeof_number longitude then longitude else JNull);
            dp_lastSeenAt := Some (JNum now);
            dp_updatedAt := Some (JNum now) |};;
       mret (respond 200 BodyOk))
    (λ e, mret (error_response e)).

(** [typeof fcm_token === 'string' && fcm_token.trim()], line 113: the
    trimmed token when the condition holds. *)
Definition trimmed_token (fcm_token : jsval) : option string :=
  match fcm_token with
  | JStr s => if truthy (JStr (trim s)) then Some (trim s) else None
  | _ => None
  end.

(** [POST /api/volunteers/availability], lines 90-121. *)
Definition volunteersAvailability (env : Env) (req : AvailabilityBody)
    : Handler Response :=
  catch
    (call (InitFirebase env);;
     let volunteer_id := v_volunteer_id req in
     let is_available := v_is_available req in
     let latitude := v_latitude req in
     let longitude := v_longitude req in
     let fcm_token := v_fcm_token req in
     if negb (truthy volunteer_id)
     then mret (respond 400 (BodyError "volunteer_id is required"))
     else
       let docId := "volunteer_" +:+ String volunteer_id in
       now ← call DateNow;
       let patch :=
         {| dp_userId := Some (JNum (Number volunteer_id));
            dp_role := Some (JStr "volunteer");
            dp_fcmToken := JStr <$> trimmed_token fcm_token;
            dp_isAvailable := Some (JBool (truthy is_available));
            dp_latitude := if typeof_number latitude then Some latitude else None;
            dp_longitude := if typeof_number longitude then Some longitude else None;
            dp_lastSeenAt := Some (JNum now);
            dp_updatedAt := Some (JNum now) |} in
       DeviceSetMerge docId patch;;
       mret (respond 200 BodyOk))
    (λ e, mret (error_response e)).

(** The callback of [emergencies.map], lines 243-251. *)
Definition activeItem (e : EmergencyDoc) : ActiveItem :=
  {| i_id := e_id e;
     i_elderly_id := e_elderlyId e;
     i_latitude := Number (e_latitude e);
     i_longitude := Number (e_longitude e);
     i_timestamp := if truthy (JNum (e_createdAt e)) then e_createdAt e else e_id e;
     i_status := e_status e;
     i_volunteer_id := e_volunteerId e |}.

(** [GET /api/emergencies/active], lines 222-257.  [volunteer_id] is the
    query parameter of that name. *)
Definition emergenciesActive (env : Env) (volunteer_id : jsval) : Handler Reply :=
  catch
    (call (InitFirebase env);;
     let volunteerId := if truthy volunteer_id then Some (Number volunteer_id) else None in
     activeSnap ← EmergenciesWhere (λ e, String.eqb (e_status e) "active");
     acceptedSnap ←
       match volunteerId with
       | Some v =>
           if truthy (JNum v)
           then EmergenciesWhere
                  (λ e, String.eqb (e_status e) "accepted"
                        && bool_decide (e_volunteerId e = Some v))
           else mret []
       | None => mret []
       end;
     let emergencies := activeSnap ++ acceptedSnap in
     mret (Listed (activeItem <$> emergencies)))
    (λ e, mret (Responded (error_response e))).

End routes.

End Routes.

(** ** Every route of the application *)

Module Api.
Import JS Store Handlers Server Directory Routes.

Inductive Route : Type :=
  | GetHealth
  | PostDevicesRegister (req : RegisterBody)
  | PostVolunteersAvailability (req : AvailabilityBody)
  | GetEmergenciesActive (volunteer_id : jsval)
  | Emergencies (r : Request).

Section api.
Context `{Runtime} `{StringMethods} `{Firestore}.

(** The three routes of [Server] run as before. *)
Definition emergencyRoute (env : Env) (r : Request) : Handler Response := serve env r.

Definition route (env : Env) (r : Route) : Handler Reply :=
  match r with
  | GetHealth => response ← health; mret (Responded response)
  | PostDevicesRegister req =>
      response ← devicesRegister env req; mret (Responded response)
  | PostVolunteersAvailability req =>
      response ← volunteersAvailability env req; mret (Responded response)
  | GetEmergenciesActive volunteer_id => emergenciesActive env volunteer_id
  | Emergencies r => response ← emergencyRoute env r; mret (Responded response)
  end.

(** The replies, in order, and the world left behind. *)
Fixpoint route_all (env : Env) (rs : list Route) (w : World)
    : list (result Reply) * World :=
  match rs with
  | [] => ([], w)
  | r :: rs' =>
      let '(reply, w') := route env r w in
      let '(replies, w'') := route_all env rs' w' in
      (reply :: replies, w'')
  end.

End api.
End Api.

(** ** What the statements about the other routes are written with *)

Module RouteProps.
Import JS ArraySort Store Handlers Server Props Directory Routes Api.

(** The collections and the messages sent are as they were. *)
Definition same_records (w w' : World) : Prop :=
  emergencies w' = emergencies w ∧ devices w' = devices w
  ∧ audit_logs w' = audit_logs w ∧ outbox w' = outbox w.

(** A status of the 4xx class. *)
Definition client_error (status : nat) : Prop := (400 ≤ status < 500)%nat.

(** The statuses each route can answer with. *)
Definition statuses (r : Route) : list nat :=
  match r with
  | GetHealth => [200]
  | PostDevicesRegister _ | PostVolunteersAvailability _ => [200; 400; 500]
  | GetEmergenciesActive _ => [200; 500]
  | Emergencies (Report _) => [201; 400; 500]
  | Emergencies (Put _ _) => [200; 400; 404; 409; 500]
  | Emergencies (Cleanup _ _) => [200; 403; 500]
  end%nat.

(** A handler that, whatever its calls return, ends with a response in
    [Q]. *)
Inductive Leaves {A : Type} (Q : A → Prop) : Prog A → Prop :=
  | Leaves_ret a : Q a → Leaves Q (Ret a)
  | Leaves_do {X} (op : Op X) k : (∀ r, Leaves Q (k r)) → Leaves Q (Do op k).

(** A handler none of whose calls has changed the records so far: each
    next call leaves them as they are, or is followed only by responses
    outside the 4xx class. *)
Inductive Clean `{Runtime} : Prog Response → Prop :=
  | Clean_ret r : Clean (Ret r)
  | Clean_do {X} (op : Op X) k :
      (∀ w, same_records w (exec op w).2
            ∨ Leaves (λ r, ¬ client_error (status_code r)) (k (exec op w).1)) →
      (∀ r, Clean (k r)) →
      Clean (Do op k).

(** From [w] to [w'] Firebase was initialised at most once, and not
    again if it was initialised in [w]. *)
Definition initialised_once (w w' : World) : Prop :=
  apps_length w' = apps_length w ∨ (apps_length w = 0 ∧ apps_length w' = 1)%nat.

(** The record under [key] is stored and satisfies [P]. *)
Definition record_is (key : string) (P : EmergencyDoc → Prop) (w : World) : Prop :=
  ∃ e, emergencies w !! key = Some e ∧ P e.

(** The record under [key] has status [s]. *)
Definition has_status (key s : string) (w : World) : Prop :=
  record_is key (λ e, e_status e = s) w.

(** A status change in flight that has not written yet: it initialises
    Firebase, reads the clock, reads the record, and then updates it
    with a patch that sets the status [s] and leaves [acceptedAt]
    alone. *)
Inductive Changing `{Runtime} (env : Env) (key s : string) (m : option Exn)
    : Prog Response → Prop :=
  | Changing_init k :
      Changing env key s m (k (inr ())) →
      Changing env key s m (Do (InitFirebase env) k)
  | Changing_now k :
      (∀ now, Changing env key s m (k (inr now))) →
      Changing env key s m (Do DateNow k)
  | Changing_get k :
      (∀ e, Changing env key s m (k (inr (Some e)))) →
      Changing env key s m (Do (EmergencyGet key) k)
  | Changing_update patch k :
      p_status patch = Some s → p_acceptedAt patch = None →
      Tail m (λ r, r = ok) (k (inr ())) →
      Changing env key s m (Do (EmergencyUpdate key patch) k).

(** What the record can be while a status change to [s] and an accept
    race: as it was, with [acceptedAt] still [stamp]; accepted; under the
    new status without having been accepted; under the new status after
    having been accepted. *)
Definition still_open (stamp : option num) (e : EmergencyDoc) : Prop :=
  e_status e = "active" ∧ e_acceptedAt e = stamp.

Definition taken (e : EmergencyDoc) : Prop :=
  e_status e = "accepted" ∧ is_Some (e_acceptedAt e).

Definition changed_untaken (s : string) (stamp : option num) (e : EmergencyDoc) : Prop :=
  e_status e = s ∧ e_acceptedAt e = stamp.

Definition changed_taken (s : string) (e : EmergencyDoc) : Prop :=
  e_status e = s ∧ is_Some (e_acceptedAt e).

(** A status change and an accept of the same record, part of the way
    through. *)
Inductive change_inv `{Runtime} (env : Env) (key s : string) (stamp : option num)
    (v : jsval) (m : option Exn) : Prog Response → Prog Response → World → Prop :=
  | change_open p1 p2 w :
      Changing env key s m p1 → Pending env key v m p2 →
      record_is key (still_open stamp) w →
      change_inv env key s stamp v m p1 p2 w
  | change_after_accept p1 p2 w :
      Changing env key s m p1 → Tail m (won m) p2 → record_is key taken w →
      change_inv env key s stamp v m p1 p2 w
  | change_before_accept p1 p2 w :
      Tail m (λ r, r = ok) p1 → Pending env key v m p2 ∨ p2 = Ret conflict →
      record_is key (changed_untaken s stamp) w →
      change_inv env key s stamp v m p1 p2 w
  | change_done p1 p2 w :
      Tail m (λ r, r = ok) p1 → Tail m (won m) p2 →
      record_is key (changed_taken s) w →
      change_inv env key s stamp v m p1 p2 w.

(** Two status changes of the same record, part of the way through. *)
Inductive changes_inv `{Runtime} (env : Env) (key s1 s2 : string) (m : option Exn)
    : Prog Response → Prog Response → World → Prop :=
  | changes_open p1 p2 w :
      Changing env key s1 m p1 → Changing env key s2 m p2 →
      is_Some (emergencies w !! key) →
      changes_inv env key s1 s2 m p1 p2 w
  | changes_first p1 p2 w :
      Tail m (λ r, r = ok) p1 → Changing env key s2 m p2 →
      is_Some (emergencies w !! key) →
      changes_inv env key s1 s2 m p1 p2 w
  | changes_second p1 p2 w :
      Changing env key s1 m p1 → Tail m (λ r, r = ok) p2 →
      is_Some (emergencies w !! key) →
      changes_inv env key s1 s2 m p1 p2 w
  | changes_done p1 p2 w :
      Tail m (λ r, r = ok) p1 → Tail m (λ r, r = ok) p2 →
      has_status key s1 w ∨ has_status key s2 w →
      changes_inv env key s1 s2 m p1 p2 w.

Section route_props.
Context `{Runtime} `{StringMethods} `{Firestore}.

(** The [days] of a sweep: the query parameter, else [RETENTION_DAYS],
    else 30. *)
Definition cleanup_days (env : Env) (days_param : jsval) : num :=
  if truthy days_param then Number days_param
  else if truthy (env_val (RETENTION_DAYS env))
       then Number (env_val (RETENTION_DAYS env))
       else int 30.

Definition cleanup_cutoff (env : Env) (days_param : jsval) (w : World) : num :=
  num_sub (int (clock w))
    (num_mul (num_mul (num_mul (num_mul (cleanup_days env days_param) (int 24))
                         (int 60)) (int 60)) (int 1000)).

(** The caller presents the configured token. *)
Definition authorised (env : Env) (token : jsval) : Prop :=
  truthy (env_val (ADMIN_TOKEN env)) = true
  ∧ strict_eq token (env_val (ADMIN_TOKEN env)) = true.

(** The records a sweep looks for. *)
Definition older_records (cutoff : num) (m : gmap string EmergencyDoc)
    : list (string * EmergencyDoc) :=
  filter (λ kd, num_lt (e_createdAt kd.2) cutoff = true) (map_to_list m).

(** The patches the two device routes write. *)
Definition register_patch (req : RegisterBody) (now : num) : DevicePatch :=
  {| dp_userId := Some (JNum (Number (g_user_id req)));
     dp_role := Some (JStr (String (g_role req)));
     dp_fcmToken := Some (JStr (String (g_fcm_token req)));
     dp_isAvailable := Some (JBool (truthy (g_is_available req)));
     dp_latitude := Some (if typeof_number (g_latitude req)
                          then g_latitude req else JNull);
     dp_longitude := Some (if typeof_number (g_longitude req)
                           then g_longitude req else JNull);
     dp_lastSeenAt := Some (JNum now);
     dp_updatedAt := Some (JNum now) |}.

Definition availability_patch (req : AvailabilityBody) (now : num) : DevicePatch :=
  {| dp_userId := Some (JNum (Number (v_volunteer_id req)));
     dp_role := Some (JStr "volunteer");
     dp_fcmToken := JStr <$> trimmed_token (v_fcm_token req);
     dp_isAvailable := Some (JBool (truthy (v_is_available req)));
     dp_latitude := if typeof_number (v_latitude req)
                    then Some (v_latitude req) else None;
     dp_longitude := if typeof_number (v_longitude req)
                     then Some (v_longitude req) else None;
     dp_lastSeenAt := Some (JNum now);
     dp_updatedAt := Some (JNum now) |}.

(** What a device route answers once the request has passed validation,
    and the world it leaves: the outcome of writing [patch] under the
    name [docId]. *)
Definition device_written (docId : string) (patch : DevicePatch) (w : World)
    : result Response * World :=
  match doc docId with
  | Document id => (inr ok, set_devices (device_set_merge id patch) w)
  | Nested => (inr ok, w)
  | Refused e => (inr (error_response e), w)
  end.

(** Firestore takes [name] for the id of a document of the collection. *)
Definition names_document (name : string) : Prop := doc name = Document name.

(** The records the read route lists for a caller. *)
Definition listed_for (volunteer_id : jsval) (m : gmap string EmergencyDoc)
    : list EmergencyDoc :=
  emergencies_where (λ e, String.eqb (e_status e) "active") m
  ++ (if truthy volunteer_id && truthy (JNum (Number volunteer_id))
      then emergencies_where
             (λ e, String.eqb (e_status e) "accepted"
                   && bool_decide (e_volunteerId e = Some (Number volunteer_id))) m
      else []).

(** Not created after: both creation times are numbers, in order. *)
Definition not_after (a b : string * EmergencyDoc) : Prop :=
  match e_createdAt a.2, e_createdAt b.2 with
  | Fin x, Fin y => (x ≤ y)%Qc
  | _, _ => False
  end.

(** A [PUT] that passes validation and takes the generic path. *)
Definition valid_change (id : string) (req : PutBody) : Prop :=
  truthy (JNum (Number (JStr id))) = true
  ∧ truthy (u_status req) = true
  ∧ String (u_status req) ≠ "accepted".

(** The patch of the generic path. *)
Definition change_patch (req : PutBody) (now : num) : EmergencyPatch :=
  {| p_status := Some (String (u_status req));
     p_volunteerId :=
       if negb (typeof_undefined (u_volunteer_id req))
       then Some (if loose_null (u_volunteer_id req) then None
                  else Some (Number (u_volunteer_id req)))
       else None;
     p_acceptedAt := None;
     p_updatedAt := Some now |}.

Definition change_entry (id : string) (req : PutBody) (now : num) : AuditEntry :=
  {| a_emergencyId := Number (JStr id);
     a_action := "status_" +:+ String (u_status req);
     a_actorRole := "system";
     a_actorUserId := None;
     a_notifiedVolunteerUserIds := None;
     a_createdAt := now |}.

Definition accept_entry (id : string) (req : PutBody) (now : num) : AuditEntry :=
  {| a_emergencyId := Number (JStr id);
     a_action := "accepted";
     a_actorRole := "volunteer";
     a_actorUserId := Some (Number (u_volunteer_id req));
     a_notifiedVolunteerUserIds := None;
     a_createdAt := now |}.

(** The push token of the device registered for the reporter of [e], as
    the accept path reads it. *)
Definition reporter_token (e : EmergencyDoc) (w : World) : jsval :=
  match device_lookup ("elderly_" +:+ String (JNum (e_elderlyId e))) (devices w) with
  | Some d => d_fcmToken d
  | None => JNull
  end.

Definition accepted_message (id : string) (req : PutBody) (token : jsval) : Message :=
  {| m_tokens := [token];
     m_data := [("type", "emergency_accepted");
                ("emergency_id", accept_key id);
                ("volunteer_id", String (u_volunteer_id req))] |}.

(** A registration that passes validation. *)
Definition valid_register (req : RegisterBody) : Prop :=
  truthy (g_user_id req) = true ∧ truthy (g_role req) = true
  ∧ truthy (g_fcm_token req) = true.

(** The name of the document a registration writes, and the document. *)
Definition register_name (req : RegisterBody) : string :=
  String (g_role req) +:+ "_" +:+ String (g_user_id req).

Definition registered_device (req : RegisterBody) (now : num) : DeviceDoc :=
  {| d_userId := JNum (Number (g_user_id req));
     d_role := JStr (String (g_role req));
     d_fcmToken := JStr (String (g_fcm_token req));
     d_isAvailable := JBool (truthy (g_is_available req));
     d_latitude := if typeof_number (g_latitude req) then g_latitude req else JNull;
     d_longitude := if typeof_number (g_longitude req) then g_longitude req else JNull;
     d_lastSeenAt := JNum now |}.

Definition availability_name (req : AvailabilityBody) : string :=
  "volunteer_" +:+ String (v_volunteer_id req).

(** The stored records that satisfy [P]. *)
Definition matching (P : EmergencyDoc → bool) (m : gmap string EmergencyDoc)
    : list (string * EmergencyDoc) :=
  filter (λ kd, P kd.2 = true) (map_to_list m).

Definition is_open (e : EmergencyDoc) : bool := String.eqb (e_status e) "active".

Definition accepted_by_volunteer (v : num) (e : EmergencyDoc) : bool :=
  String.eqb (e_status e) "accepted" && bool_decide (e_volunteerId e = Some v).

(** The caller gave a volunteer id that reads as a number other than 0. *)
Definition names_volunteer (volunteer_id : jsval) : bool :=
  truthy volunteer_id && truthy (JNum (Number volunteer_id)).

(** From [w] to [w'] audit entries and messages were only added. *)
Definition appended (w w' : World) : Prop :=
  (∃ entries, audit_logs w' = audit_logs w ++ entries)
  ∧ (∃ sent, outbox w' = outbox w ++ sent).

(** Every record is stored under the name its [id] prints as. *)
Definition keyed (m : gmap string EmergencyDoc) : Prop :=
  ∀ k e, m !! k = Some e → k = String (JNum (e_id e)).

Definition keeps_keyed (w w' : World) : Prop :=
  keyed (emergencies w) → keyed (emergencies w').

End route_props.

End RouteProps.

(** ** More data for the closed examples *)

Module Samples.
Import JS Store Handlers Server Directory Routes Api.

(** [trim] on strings whose white space is ASCII. *)
Definition is_space (c : ascii) : bool :=
  let n := nat_of_ascii c in
  Nat.eqb n 32 || (Nat.leb 9 n && Nat.leb n 13).

Fixpoint trim_start (s : string) : string :=
  match s with
  | EmptyString => EmptyString
  | String.String c s' => if is_space c then trim_start s' else s
  end.

Definition ascii_trim (s : string) : string :=
  String.rev (trim_start (String.rev (trim_start s))).

Definition strings : StringMethods := {| trim := ascii_trim |}.

(** Document names as the Firestore client reads them: the components of
    the name are the strings between [/], an empty one at either end left
    out; a name of one component is the id of a document of the
    collection, an odd number of components is a path to a document
    further down, and the client throws for an even number of components
    and for [//].  The ids the service turns down are not looked for. *)
Fixpoint split_path (component : string) (s : string) : list string :=
  match s with
  | EmptyString => [String.rev component]
  | String.String c s' =>
      if Ascii.eqb c "/" then String.rev component :: split_path EmptyString s'
      else split_path (String.String c component) s'
  end.

Definition components (s : string) : list string :=
  filter (λ c, c ≠ EmptyString) (split_path EmptyString s).

Fixpoint double_slash (s : string) : bool :=
  match s with
  | EmptyString => false
  | String.String c s' =>
      match s' with
      | EmptyString => false
      | String.String c' _ => (Ascii.eqb c "/" && Ascii.eqb c' "/") || double_slash s'
      end
  end.

Definition quoted (s : string) : string :=
  String.String (ascii_of_nat 34) s +:+ String.String (ascii_of_nat 34) EmptyString.

Definition client_doc (name : string) : DocPath :=
  if String.eqb name EmptyString then
    Refused (Error ("Value for argument " +:+ quoted "documentPath"
                    +:+ " is not a valid resource path. Path must be a non-empty string."))
  else if double_slash name then
    Refused (Error ("Value for argument " +:+ quoted "documentPath"
                    +:+ " is not a valid resource path. Paths must not contain //."))
  else
    match components name with
    | [id] => Document id
    | cs =>
        if Nat.odd (length cs) then Nested
        else Refused (Error ("Value for argument " +:+ quoted "documentPath"
                             +:+ " must point to a document, but was " +:+ quoted name
                             +:+ ". Your path does not contain an even number of components."))
    end.

Definition firestore : Firestore := {| doc := client_doc |}.

(** A server on which Firebase was never initialised; [Demo.env] has no
    service account. *)
Definition cold : World :=
  {| apps_length := 0;
     clock := 1700000600000;
     emergencies := {[ Demo.key := Demo.open_emergency ]};
     devices := Demo.directory;
     audit_logs := [];
     messaging := None;
     outbox := [];
     calls := [] |}.

(** Volunteer 12 registers as available, one degree from the emergency. *)
Definition volunteer_registration : RegisterBody :=
  {| g_user_id := JNum (int 12);
     g_role := JStr "volunteer";
     g_fcm_token := JStr "token-12";
     g_is_available := JBool true;
     g_latitude := JNum (int 10);
     g_longitude := JNum (int 21) |}.

(** User 5, who reported [Demo.open_emergency], registers a device. *)
Definition reporter_registration : RegisterBody :=
  {| g_user_id := JNum (int 5);
     g_role := JStr "elderly";
     g_fcm_token := JStr "token-5";
     g_is_available := JUndefined;
     g_latitude := JUndefined;
     g_longitude := JUndefined |}.

(** A registration whose role has a [/] in it. *)
Definition registration_with_slash : RegisterBody :=
  {| g_user_id := JNum (int 12);
     g_role := JStr "volunteer/night";
     g_fcm_token := JStr "token-12";
     g_is_available := JBool true;
     g_latitude := JUndefined;
     g_longitude := JUndefined |}.

(** A registration without a push token. *)
Definition registration_without_token : RegisterBody :=
  {| g_user_id := JNum (int 12);
     g_role := JStr "volunteer";
     g_fcm_token := JUndefined;
     g_is_available := JBool true;
     g_latitude := JUndefined;
     g_longitude := JUndefined |}.

(** Volunteer 7 moves and sends a blank token. *)
Definition heartbeat : AvailabilityBody :=
  {| v_volunteer_id := JNum (int 7);
     v_is_available := JBool true;
     v_latitude := JNum (int 13);
     v_longitude := JUndefined;
     v_fcm_token := JStr "  " |}.

(** The emergency of [Demo.world] once volunteer 7 has accepted it. *)
Definition accepted_by_7 : World :=
  (serve (H:=Decimal.runtime) Demo.env (Put Demo.key (Demo.accept 7)) Demo.world).2.

(** Two emergencies, the older created twenty days before the newer. *)
Definition old_emergency : EmergencyDoc :=
  {| e_id := int 1698272000000;
     e_elderlyId := int 6;
     e_latitude := JNum (int 10);
     e_longitude := JNum (int 20);
     e_status := "resolved";
     e_volunteerId := Some (int 9);
     e_createdAt := int 1698272000000;
     e_updatedAt := int 1698272000000;
     e_acceptedAt := Some (int 1698272000000) |}.

Definition archive : World :=
  {| apps_length := 1;
     clock := 1700000600000;
     emergencies := {[ Demo.key := Demo.open_emergency;
                       "1698272000000" := old_emergency ]};
     devices := Demo.directory;
     audit_logs := [];
     messaging := None;
     outbox := [];
     calls := [] |}.

End Samples.
(** * Properties *)

Import JS ArraySort Store Handlers Sched Server Props.

(** Unfolding a handler down to its next call. *)
Ltac unfold_handler :=
  cbn -[String Number truthy acceptTransaction selectVolunteers take filter].

Section run_facts.
Context `{Runtime}.

Lemma run_bind {A B : Type} (p : Prog A) (f : A → Prog B) (w : World) :
  run (p ≫= f) w =
  match run p w with
  | (inr a, w') => run (f a) w'
  | (inl e, w') => (inl e, w')
  end.
Proof.
  revert w. induction p as [a|e|X op k IH]; intros w; try reflexivity.
  simpl. destruct (exec op w) as [r w']. apply IH.
Qed.

Lemma run_try_catch {A : Type} (p : Prog A) (h : Exn → Prog A) (w : World) :
  run (try_catch p h) w =
  match run p w with
  | (inr a, w') => (inr a, w')
  | (inl e, w') => run (h e) w'
  end.
Proof.
  revert w. induction p as [a|e|X op k IH]; intros w; try reflexivity.
  simpl. destruct (exec op w) as [r w']. apply IH.
Qed.

Lemma run_perform {X : Type} (op : Op X) (w : World) : run (perform op) w = exec op w.
Proof. simpl. by destruct (exec op w) as [[e|x] w']. Qed.

Lemma initFirebase_same_data env w : same_data w (after_init env w).
Proof.
  unfold after_init, initFirebase, same_data.
  repeat case_match; simpl; tauto.
Qed.

Lemma run_init_ready env w :
  firebase_ready env w → exec (InitFirebase env) w = (inr (), after_init env w).
Proof.
  unfold firebase_ready, after_init. simpl.
  destruct (initFirebase env w) as [r w']; simpl. by intros ->.
Qed.

Lemma after_init_ready env w : firebase_ready env w → apps_length (after_init env w) ≠ 0%nat.
Proof.
  unfold firebase_ready, after_init, initFirebase.
  repeat case_match; simpl; try done. intros _. by eapply bool_decide_eq_true_1.
Qed.

Lemma ready_mono env w w' :
  apps_length w' = apps_length w → firebase_ready env w → firebase_ready env w'.
Proof. unfold firebase_ready, initFirebase. intros ->. repeat case_match; done. Qed.

Lemma ready_after_init env w : firebase_ready env w → firebase_ready env (after_init env w).
Proof.
  intros Hr. pose proof (after_init_ready env w Hr) as Hn.
  unfold firebase_ready, initFirebase. by rewrite bool_decide_eq_true_2.
Qed.

Lemma strict_eq_str a s : strict_eq a (JStr s) = true ↔ a = JStr s.
Proof.
  destruct a as [| |b|[|q]|s']; simpl; rewrite ?bool_decide_eq_true; try done.
Qed.

Lemma truthy_str s : truthy (JStr s) = true ↔ s ≠ "".
Proof.
  simpl. rewrite negb_true_iff. split.
  - intros E ->. by rewrite String.eqb_refl in E.
  - intros Hne. by apply String.eqb_neq.
Qed.

Lemma run_guarantees (G : World → World → Prop) {A} (p : Prog A) w :
  (∀ w, G w w) → (∀ w1 w2 w3, G w1 w2 → G w2 w3 → G w1 w3) →
  Guarantees G p → G w (run p w).2.
Proof.
  intros Hrefl Htrans HG. revert w.
  induction HG as [a|e|X op k Hop _ IH]; intros w; [done..|].
  simpl. specialize (Hop w). destruct (exec op w) as [r w']. simpl in Hop.
  eapply Htrans; [exact Hop|apply IH].
Qed.

End run_facts.

(** ** Calls that leave the store alone *)

Section tails.
Context `{Runtime}.

Lemma untouched_refl w : untouched w w.
Proof. repeat split. exists []. by rewrite app_nil_r. Qed.

Lemma untouched_trans w1 w2 w3 : untouched w1 w2 → untouched w2 w3 → untouched w1 w3.
Proof.
  intros (E1 & M1 & A1 & cs1 & C1 & F1) (E2 & M2 & A2 & cs2 & C2 & F2).
  repeat split; try congruence.
  exists (cs1 ++ cs2). split; [by rewrite C2, C1, app_assoc|by apply Forall_app].
Qed.

Lemma untouched_ready env w w' :
  untouched w w' → firebase_ready env w → firebase_ready env w'.
Proof. intros (_ & _ & Ha & _). by apply ready_mono. Qed.

Lemma exec_untouched {X} (op : Op X) w : quiet_op op = true → untouched w (exec op w).2.
Proof.
  destruct op; try done; intros _; simpl; unfold send_to_messaging;
    try destruct (messaging w); try destruct cutoff; simpl;
    first [ by apply untouched_refl
          | repeat split; try done; eexists; split;
            [reflexivity | by repeat constructor] ].
Qed.

Lemma run_tail m Q p w :
  Tail m Q p → messaging w = m →
  ∃ r w', run p w = (inr r, w') ∧ Q r ∧ untouched w w'.
Proof.
  intros HT. revert w. induction HT as [r HQ|X op k Hq _ IH]; intros w Hm.
  - exists r, w. split; [done|]. split; [done|apply untouched_refl].
  - simpl. specialize (Hq w Hm). specialize (IH w Hm).
    destruct (exec op w) as [r1 w1]; simpl in *.
    destruct (IH w1) as (r & w' & Hrun & HQ & Hu).
    { destruct Hq as (_ & -> & _). done. }
    exists r, w'. split; [done|]. split; [done|]. by eapply untouched_trans.
Qed.

Lemma step_tail m Q p w :
  Tail m Q p → messaging w = m →
  Tail m Q (step p w).1 ∧ untouched w (step p w).2.
Proof.
  intros HT Hm. destruct HT as [r HQ|X op k Hq Hk].
  - split; [by constructor|apply untouched_refl].
  - simpl. specialize (Hq w Hm). specialize (Hk w Hm).
    destruct (exec op w) as [r1 w1]; simpl in *. done.
Qed.

(** The accept transaction, by the state of the record when it runs. *)
Lemma exec_accept_tx key v w :
  exec (RunTransaction (acceptTransaction key v)) w =
  match emergencies w !! key with
  | None =>
      (inl (Error "NOT_FOUND"), add_call (CallTransaction (inl (Error "NOT_FOUND"))) w)
  | Some e =>
      if String.eqb (e_status e) "active"
      then (inr (),
            add_call (CallTransaction
                        (inr [TxUpdate key (accept_patch v (int (clock w)))]))
              (set_emergencies
                 (alter (apply_patch (accept_patch v (int (clock w)))) key) w))
      else (inl already_taken, add_call (CallTransaction (inl already_taken)) w)
  end.
Proof.
  simpl. unfold acceptTransaction.
  destruct (emergencies w !! key) as [e|]; [|done].
  destruct (String.eqb (e_status e) "active"); done.
Qed.

Ltac tail_step :=
  apply Tail_do;
  [ intros; by apply exec_untouched
  | intros ? ?; cbn -[String Number acceptTransaction] ].

(** A valid accept request is an accept in flight. *)
Lemma pending_put env id req m :
  valid_accept id req →
  Pending env (accept_key id) (u_volunteer_id req) m (putEmergency env id req).
Proof.
  intros (Hid & Hst & Hv). unfold putEmergency.
  cbn [try_catch mbind prog_bind bind perform].
  apply Pending_init. rewrite Hid, Hst. cbn -[String Number acceptTransaction].
  rewrite Hv. cbn -[String Number acceptTransaction].
  apply Pending_tx; [|reflexivity|reflexivity].
  cbn -[String Number acceptTransaction].
  do 3 tail_step.
  destruct (emergencies _ !! _) as [e|]; cbn -[String Number acceptTransaction].
  - tail_step.
    match goal with
    | |- context [if truthy ?x then _ else _] => destruct (truthy x)
    end; cbn -[String Number acceptTransaction].
    + tail_step. unfold send_to_messaging.
      match goal with Hm : messaging _ = m |- _ => rewrite Hm end.
      destruct m as [e'|]; cbn -[String Number acceptTransaction].
      * apply Tail_ret. split; [done|by right].
      * apply Tail_ret. split; [done|by left].
    + apply Tail_ret. split; [done|by left].
  - apply Tail_ret. split; [done|by left].
Qed.

Lemma run_pending env key v m p w :
  Pending env key v m p → firebase_ready env w → messaging w = m →
  ∃ r w' cs,
    run p w = (inr r, w') ∧ messaging w' = m ∧ firebase_ready env w'
    ∧ calls w' = calls w
        ++ CallTransaction (acceptTransaction key v (λ ref, emergencies w !! ref)
                              (int (clock w))) :: cs
    ∧ Forall (λ c, is_store_write c = false) cs
    ∧ match emergencies w !! key with
      | None => r = not_found ∧ emergencies w' = emergencies w
      | Some e =>
          if String.eqb (e_status e) "active"
          then won m r
               ∧ emergencies w' =
                 alter (apply_patch (accept_patch v (int (clock w)))) key (emergencies w)
          else r = conflict ∧ emergencies w' = emergencies w
      end.
Proof.
  intros HP. revert w. induction HP as [k HP IH|k HT Ht Hn]; intros w Hr Hm.
  - cbn [run]. rewrite run_init_ready by done.
    destruct (initFirebase_same_data env w) as (Hc & He & _ & _ & Hmm & _ & Hcalls).
    destruct (IH (after_init env w)) as (r & w' & cs & Hrun & ? & ? & Hcs & ? & Hcase).
    { by apply ready_after_init. } { congruence. }
    exists r, w', cs. rewrite He, Hc, Hcalls in *. done.
  - cbn [run]. rewrite exec_accept_tx.
    unfold acceptTransaction.
    destruct (emergencies w !! key) as [e|] eqn:Hlook.
    + destruct (String.eqb (e_status e) "active") eqn:Hact; cbn [negb].
      * destruct (run_tail _ _ _ (add_call
           (CallTransaction (inr [TxUpdate key (accept_patch v (int (clock w)))]))
           (set_emergencies (alter (apply_patch (accept_patch v (int (clock w)))) key) w))
           HT) as (r & w' & Hrun & Hw & He & Hmm & Ha & cs & Hcs & Hf); [done|].
        simpl in *. exists r, w', cs. split_and!; try done.
        { congruence. }
        { eapply ready_mono; [|exact Hr]. done. }
        { by rewrite Hcs, <- app_assoc. }
      * rewrite Ht. eexists conflict, _, []. simpl. split_and!; try done. by (eapply ready_mono; [|exact Hr]).
    + rewrite Hn. eexists not_found, _, []. simpl. split_and!; try done.
      by (eapply ready_mono; [|exact Hr]).
Qed.

Lemma step_pending env key v m p w :
  Pending env key v m p → firebase_ready env w → messaging w = m →
  messaging (step p w).2 = m ∧ firebase_ready env (step p w).2
  ∧ clock (step p w).2 = clock w
  ∧ ((Pending env key v m (step p w).1 ∧ emergencies (step p w).2 = emergencies w)
     ∨ match emergencies w !! key with
       | None => (step p w).1 = Ret not_found
                 ∧ emergencies (step p w).2 = emergencies w
       | Some e =>
           if String.eqb (e_status e) "active"
           then Tail m (won m) (step p w).1
                ∧ emergencies (step p w).2 =
                  alter (apply_patch (accept_patch v (int (clock w)))) key (emergencies w)
           else (step p w).1 = Ret conflict
                ∧ emergencies (step p w).2 = emergencies w
       end).
Proof.
  intros HP Hr Hm. destruct HP as [k HP|k HT Ht Hn].
  - cbn [step]. rewrite run_init_ready by done. cbn [fst snd].
    destruct (initFirebase_same_data env w) as (Hc & He & _ & _ & Hmm & _).
    repeat split; [congruence|by apply ready_after_init|done|by left].
  - cbn [step]. rewrite exec_accept_tx.
    destruct (emergencies w !! key) as [e|] eqn:Hlook.
    + destruct (String.eqb (e_status e) "active") eqn:Hact; cbn [fst snd].
      * split_and!; try done; [by (eapply ready_mono; [|exact Hr])|by right].
      * split_and!; try done; [by (eapply ready_mono; [|exact Hr])|right; by rewrite Ht].
    + cbn [fst snd]. split_and!; try done; [by (eapply ready_mono; [|exact Hr])|right; by rewrite Hn].
Qed.

Lemma accepted_by_eq key v w w' :
  emergencies w' = emergencies w → accepted_by key v w → accepted_by key v w'.
Proof. intros E (e & He & ?). exists e. by rewrite E. Qed.

Lemma is_active_eq key w w' :
  emergencies w' = emergencies w → is_active key w → is_active key w'.
Proof. intros E (e & He & ?). exists e. by rewrite E. Qed.

Lemma accepted_after_tx key v now w w' :
  is_active key w →
  emergencies w' = alter (apply_patch (accept_patch v now)) key (emergencies w) →
  accepted_by key v w'.
Proof.
  intros (e & He & Hs) E. exists (apply_patch (accept_patch v now) e).
  rewrite E, lookup_alter_eq, He. done.
Qed.

Section race.
Context (env : Env) (key : string) (v1 v2 : jsval) (m : option Exn).

Let good (w : World) : Prop := firebase_ready env w ∧ messaging w = m.

Lemma step_rival v p w v' :
  (Pending env key v m p ∨ p = Ret conflict) → good w → accepted_by key v' w →
  (Pending env key v m (step p w).1 ∨ (step p w).1 = Ret conflict)
  ∧ good (step p w).2 ∧ accepted_by key v' (step p w).2.
Proof.
  intros [HP| ->] [Hr Hm] Hacc; [|by split; [right|]].
  destruct (step_pending _ _ _ _ _ _ HP Hr Hm) as (Hm' & Hr' & _ & Hcase).
  destruct Hacc as (e & He & Hs & Hv).
  rewrite He, Hs in Hcase. simpl in Hcase.
  split; [|split; [by split|]].
  - destruct Hcase as [[? _]|[? _]]; [by left|by right].
  - exists e. by destruct Hcase as [[_ ->]|[_ ->]].
Qed.

Lemma step_winner v p w :
  Tail m (won m) p → good w → accepted_by key v w →
  Tail m (won m) (step p w).1 ∧ good (step p w).2 ∧ accepted_by key v (step p w).2.
Proof.
  intros HT [Hr Hm] Hacc.
  destruct (step_tail _ _ _ _ HT Hm) as (HT' & Hu).
  split; [done|]. split; [split|].
  - by eapply untouched_ready.
  - destruct Hu as (_ & -> & _). done.
  - destruct Hu as (E & _). by eapply accepted_by_eq.
Qed.

Lemma step_opener v p w :
  Pending env key v m p → good w → is_active key w →
  good (step p w).2
  ∧ ((Pending env key v m (step p w).1 ∧ is_active key (step p w).2)
     ∨ (Tail m (won m) (step p w).1 ∧ accepted_by key v (step p w).2)).
Proof.
  intros HP [Hr Hm] Hact.
  destruct (step_pending _ _ _ _ _ _ HP Hr Hm) as (Hm' & Hr' & _ & Hcase).
  split; [by split|].
  destruct Hcase as [[HP' E]|Hcase]; [left; split; [done|by eapply is_active_eq]|].
  pose proof Hact as (e & He & Hs).
  rewrite He, Hs in Hcase. simpl in Hcase. destruct Hcase as [HT E].
  right. split; [done|]. by eapply accepted_after_tx.
Qed.

Lemma race_inv_step_first p1 p2 w :
  race_inv env key v1 v2 m p1 p2 w → good w →
  race_inv env key v1 v2 m (step p1 w).1 p2 (step p1 w).2 ∧ good (step p1 w).2.
Proof.
  intros [p1' p2' w' HP1 HP2 Hact|p1' p2' w' HT HP2 Hacc|p1' p2' w' HP1 HT Hacc] Hg.
  - destruct (step_opener _ _ _ HP1 Hg Hact) as (Hg' & [[? ?]|[? ?]]).
    + split; [by apply race_open|done].
    + split; [apply race_first; auto|done].
  - destruct (step_winner _ _ _ HT Hg Hacc) as (? & ? & ?).
    split; [by apply race_first|done].
  - destruct (step_rival _ _ _ _ HP1 Hg Hacc) as (? & ? & ?).
    split; [by apply race_second|done].
Qed.

Lemma race_inv_step_second p1 p2 w :
  race_inv env key v1 v2 m p1 p2 w → good w →
  race_inv env key v1 v2 m p1 (step p2 w).1 (step p2 w).2 ∧ good (step p2 w).2.
Proof.
  intros [p1' p2' w' HP1 HP2 Hact|p1' p2' w' HT HP2 Hacc|p1' p2' w' HP1 HT Hacc] Hg.
  - destruct (step_opener _ _ _ HP2 Hg Hact) as (Hg' & [[? ?]|[? ?]]).
    + split; [by apply race_open|done].
    + split; [apply race_second; auto|done].
  - destruct (step_rival _ _ _ _ HP2 Hg Hacc) as (? & ? & ?).
    split; [by apply race_first|done].
  - destruct (step_winner _ _ _ HT Hg Hacc) as (? & ? & ?).
    split; [by apply race_second|done].
Qed.

Lemma race_inv_interleave s p1 p2 w :
  race_inv env key v1 v2 m p1 p2 w → good w →
  race_inv env key v1 v2 m (interleave s p1 p2 w).1.1 (interleave s p1 p2 w).1.2
    (interleave s p1 p2 w).2
  ∧ good (interleave s p1 p2 w).2.
Proof.
  revert p1 p2 w. induction s as [|[|] s IH]; intros p1 p2 w Hinv Hg; [done|..]; simpl.
  - destruct (race_inv_step_first _ _ _ Hinv Hg) as [Hinv' Hg'].
    destruct (step p1 w) as [p1' w']. by apply IH.
  - destruct (race_inv_step_second _ _ _ Hinv Hg) as [Hinv' Hg'].
    destruct (step p2 w) as [p2' w']. by apply IH.
Qed.

Lemma run_rival v p w v' :
  (Pending env key v m p ∨ p = Ret conflict) → good w → accepted_by key v' w →
  ∃ w', run p w = (inr conflict, w') ∧ good w' ∧ accepted_by key v' w'.
Proof.
  intros [HP| ->] [Hr Hm] Hacc; [|by exists w].
  destruct (run_pending _ _ _ _ _ _ HP Hr Hm)
    as (r & w' & cs & Hrun & Hm' & Hr' & _ & _ & Hcase).
  pose proof Hacc as (e & He & Hs & Hv).
  rewrite He, Hs in Hcase. simpl in Hcase. destruct Hcase as [-> E].
  exists w'. split; [done|]. split; [by split|]. by eapply accepted_by_eq.
Qed.

Lemma run_winner v p w :
  Tail m (won m) p → good w → accepted_by key v w →
  ∃ r w', run p w = (inr r, w') ∧ won m r ∧ good w' ∧ accepted_by key v w'.
Proof.
  intros HT [Hr Hm] Hacc.
  destruct (run_tail _ _ _ _ HT Hm) as (r & w' & Hrun & Hw & Hu).
  exists r, w'. split; [done|]. split; [done|]. split; [split|].
  - by eapply untouched_ready.
  - destruct Hu as (_ & -> & _). done.
  - destruct Hu as (E & _). by eapply accepted_by_eq.
Qed.

Lemma run_opener v p w :
  Pending env key v m p → good w → is_active key w →
  ∃ r w', run p w = (inr r, w') ∧ won m r ∧ good w' ∧ accepted_by key v w'.
Proof.
  intros HP [Hr Hm] Hact.
  destruct (run_pending _ _ _ _ _ _ HP Hr Hm)
    as (r & w' & cs & Hrun & Hm' & Hr' & _ & _ & Hcase).
  pose proof Hact as (e & He & Hs).
  rewrite He, Hs in Hcase. simpl in Hcase. destruct Hcase as [Hw E].
  exists r, w'. split; [done|]. split; [done|]. split; [by split|].
  by eapply accepted_after_tx.
Qed.

Lemma race_inv_finish p1 p2 w :
  race_inv env key v1 v2 m p1 p2 w → good w →
  ∃ r1 r2 w1 w2,
    run p1 w = (inr r1, w1) ∧ run p2 w1 = (inr r2, w2)
    ∧ ((won m r1 ∧ r2 = conflict ∧ accepted_by key v1 w2)
       ∨ (r1 = conflict ∧ won m r2 ∧ accepted_by key v2 w2)).
Proof.
  intros [p1' p2' w' HP1 HP2 Hact|p1' p2' w' HT HP2 Hacc|p1' p2' w' HP1 HT Hacc] Hg.
  - destruct (run_opener _ _ _ HP1 Hg Hact) as (r1 & w1 & Hrun1 & Hw & Hg1 & Hacc).
    destruct (run_rival v2 p2' w1 v1) as (w2 & Hrun2 & _ & Hacc2); [by left|done..|].
    exists r1, conflict, w1, w2. split_and!; [done..|]. by left.
  - destruct (run_winner _ _ _ HT Hg Hacc) as (r1 & w1 & Hrun1 & Hw & Hg1 & Hacc1).
    destruct (run_rival v2 p2' w1 v1) as (w2 & Hrun2 & _ & Hacc2); [done..|].
    exists r1, conflict, w1, w2. split_and!; [done..|]. by left.
  - destruct (run_rival v1 p1' w' v2) as (w1 & Hrun1 & Hg1 & Hacc1); [done..|].
    destruct (run_winner _ _ _ HT Hg1 Hacc1) as (r2 & w2 & Hrun2 & Hw & _ & Hacc2).
    exists conflict, r2, w1, w2. split_and!; [done..|]. by right.
Qed.

Lemma race_outcome s p1 p2 w :
  race_inv env key v1 v2 m p1 p2 w → good w →
  ∃ r1 r2 w',
    race s p1 p2 w = (inr r1, inr r2, w')
    ∧ ((won m r1 ∧ r2 = conflict ∧ accepted_by key v1 w')
       ∨ (r1 = conflict ∧ won m r2 ∧ accepted_by key v2 w')).
Proof.
  intros Hinv Hg. unfold race.
  destruct (race_inv_interleave s _ _ _ Hinv Hg) as [Hinv' Hg'].
  destruct (interleave s p1 p2 w) as [[p1' p2'] w']. simpl in *.
  destruct (race_inv_finish _ _ _ Hinv' Hg') as (r1 & r2 & w1 & w2 & -> & -> & Hout).
  by exists r1, r2, w2.
Qed.

End race.
End tails.

(** ** Validation and the administrative guard *)

Section validation.
Context `{Runtime}.

(** C10.  A report whose [elderly_id] is the number 0, and an accept
    whose [volunteer_id] is the number 0, are answered 400 without a call
    to the store, to the audit log or to messaging: the data is as it
    was.  The ids are tested with [!], which the number 0 fails. *)
Theorem zero_ids_rejected env w :
  firebase_ready env w →
  (∀ req, r_elderly_id req = JNum (int 0) →
     (run (postEmergencies env req) w).1
       = inr (respond 400 (BodyError "elderly_id, latitude, longitude are required"))
     ∧ same_data w (run (postEmergencies env req) w).2)
  ∧ (∀ id req, u_status req = JStr "accepted" → u_volunteer_id req = JNum (int 0) →
       (∃ msg, (run (putEmergency env id req) w).1 = inr (respond 400 (BodyError msg)))
       ∧ same_data w (run (putEmergency env id req) w).2
       ∧ (truthy (JNum (Number (JStr id))) = true →
          (run (putEmergency env id req) w).1
            = inr (respond 400 (BodyError "volunteer_id is required for accepted")))).
Proof.
  intros Hready. pose proof (initFirebase_same_data env w) as Hsame. split.
  - intros req Hz. unfold postEmergencies.
    rewrite run_try_catch, run_bind, run_perform, run_init_ready by done.
    rewrite Hz. done.
  - intros id req Hs Hz. unfold putEmergency.
    rewrite run_try_catch, run_bind, run_perform, run_init_ready by done.
    rewrite Hs, Hz.
    destruct (truthy (JNum (Number (JStr id)))); simpl; eauto.
    split; [eauto|]. split; [done|]. intros [=].
Qed.

(** C9.  With [ADMIN_TOKEN] unset or empty every call to the cleanup
    route is answered 403; with a token set, so is every call whose
    [x-admin-token] header is not that token; a refused call makes no
    call to the store and leaves the data as it was.  A call that
    presents the token is not refused: it is answered 200 when [days] is
    a number, and 500, with nothing deleted, when it is not, the
    Firestore client refusing the cutoff. *)
Theorem cleanup_guard_fails_closed env token days w :
  firebase_ready env w →
  let out := run (adminCleanup env token days) w in
  let forbidden := out.1 = inr (respond 403 (BodyError "Forbidden")) ∧ same_data w out.2 in
  (ADMIN_TOKEN env = None ∨ ADMIN_TOKEN env = Some "" → forbidden)
  ∧ (∀ secret, ADMIN_TOKEN env = Some secret → token ≠ JStr secret → forbidden)
  ∧ (∀ secret, ADMIN_TOKEN env = Some secret → secret ≠ "" → token = JStr secret →
       match RouteProps.cleanup_days env days with
       | Fin d => ∃ deleted, out.1 = inr (respond 200 (BodyCleanup deleted (Fin d)))
       | NaN => out.1 = inr (failed nan_filter) ∧ same_data w out.2
       end).
Proof.
  intros Hready out forbidden. subst out forbidden. unfold adminCleanup.
  rewrite run_try_catch, run_bind, run_perform, run_init_ready by done.
  pose proof (initFirebase_same_data env w) as Hsame.
  split; [|split].
  - intros [-> | ->]; simpl; done.
  - intros secret -> Hne. simpl.
    destruct (strict_eq token (JStr secret)) eqn:E.
    { apply strict_eq_str in E. done. }
    rewrite orb_true_r. done.
  - intros secret -> Hne ->.
    assert (truthy (env_val (Some secret)) = true) as -> by by apply truthy_str.
    assert (strict_eq (JStr secret) (env_val (Some secret)) = true) as ->
      by by apply strict_eq_str.
    unfold RouteProps.cleanup_days.
    destruct (if truthy days then Number days
              else if truthy (env_val (RETENTION_DAYS env))
                   then Number (env_val (RETENTION_DAYS env)) else int 30) as [|d];
      simpl; [done|].
    case_bool_decide; simpl; eauto.
Qed.

End validation.

(** ** The accept path *)

Section accept.
Context `{Runtime}.

Lemma won_not_failure m r : won m r → r ≠ not_found ∧ r ≠ conflict.
Proof. intros [_ [-> | Hs]]; split; try done; intros ->; done. Qed.

(** C2.  An accept that passes validation is answered 404 exactly when
    no record is stored under the id, and 409 exactly when a record is
    stored and its status is not ['active'] when the transaction reads
    it; either way the collection of emergencies is as it was. *)
Theorem accept_failures env id req w :
  firebase_ready env w → valid_accept id req →
  let out := run (putEmergency env id req) w in
  (out.1 = inr not_found ↔ emergencies w !! accept_key id = None)
  ∧ (out.1 = inr conflict
     ↔ ∃ e, emergencies w !! accept_key id = Some e ∧ e_status e ≠ "active")
  ∧ (out.1 = inr not_found ∨ out.1 = inr conflict → emergencies out.2 = emergencies w).
Proof.
  intros Hready Hvalid out. subst out.
  destruct (run_pending env _ _ (messaging w) _ w (pending_put env id req _ Hvalid))
    as (r & w' & cs & -> & _ & _ & _ & _ & Hcase); [done..|]. simpl.
  destruct (emergencies w !! accept_key id) as [e|].
  - destruct (String.eqb (e_status e) "active") eqn:Hact.
    + apply String.eqb_eq in Hact. destruct Hcase as [Hw _].
      apply won_not_failure in Hw as [? ?].
      split_and!; try (split; [by intros [=]|]).
      * done.
      * intros (e' & [= <-] & ?). done.
      * intros [[=]|[=]]; done.
    + apply String.eqb_neq in Hact. destruct Hcase as [-> E].
      split_and!; try done. split; [|done]. intros _. by exists e.
  - destruct Hcase as [-> E]. split_and!; try done.
    split; [done|]. intros (e & [=] & _).
Qed.

End accept.

(** ** Accepts served in turn *)

Section in_turn.
Context `{Runtime}.

Lemma no_write_no_commit cs :
  Forall (λ c, is_store_write c = false) cs → filter (λ c, committed c = true) cs = [].
Proof.
  induction 1 as [|c cs Hc _ IH]; [done|].
  rewrite filter_cons, IH. destruct c; try done. 
Qed.

Lemma serve_all_cons env r rs w :
  serve_all env (r :: rs) w
  = ((serve env r w).1 :: (serve_all env rs (serve env r w).2).1,
     (serve_all env rs (serve env r w).2).2).
Proof.
  cbn [serve_all]. destruct (serve env r w) as [resp w']. cbn [fst snd].
  by destruct (serve_all env rs w') as [resps w''].
Qed.

Lemma accepts_in_turn env key rs w :
  firebase_ready env w →
  Forall (λ x, valid_accept x.1 x.2 ∧ accept_key x.1 = key) rs →
  let out := serve_all env (accept_requests rs) w in
  ∃ cs, calls out.2 = calls w ++ cs
    ∧ (length (filter (λ r, answered_ok r = true) out.1) ≤ 1)%nat
    ∧ (length (filter (λ c, committed c = true) cs) ≤ 1)%nat
    ∧ (¬ is_active key w →
       filter (λ r, answered_ok r = true) out.1 = []
       ∧ filter (λ c, committed c = true) cs = []).
Proof.
  intros Hr Hrs. cbn zeta. revert w Hr.
  induction Hrs as [|[id req] rs [Hv Hk] _ IH]; intros w Hr.
  { exists []. rewrite app_nil_r. simpl. split_and!; done || lia. }
  simpl in Hv, Hk. unfold accept_requests. rewrite fmap_cons, serve_all_cons.
  fold (accept_requests rs). cbn [fst snd].
  change (serve env (Put id req) w) with (run (putEmergency env id req) w).
  destruct (run_pending env _ _ (messaging w) _ w (pending_put env id req _ Hv))
    as (r & w1 & cs1 & Hrun & _ & Hr1 & Hcalls & Hcs1 & Hcase); [done..|].
  rewrite Hrun. cbn [fst snd]. rewrite Hk in *.
  specialize (IH w1 Hr1). cbn zeta in IH. destruct IH as (cs & Hcs & Hok & Hcm & Hin).
  destruct (serve_all env (accept_requests rs) w1) as [resps w2]. cbn [fst snd] in *.
  eexists (CallTransaction _ :: cs1 ++ cs).
  split; [rewrite Hcs, Hcalls, <- app_assoc; reflexivity|].
  rewrite !filter_cons, filter_app, (no_write_no_commit cs1 Hcs1), app_nil_l.
  assert (¬ is_active key w1 →
          filter (λ r, answered_ok r = true) resps = []
          ∧ filter (λ c, committed c = true) cs = []) as Hin' by done.
  clear Hin. unfold acceptTransaction.
  destruct (emergencies w !! key) as [e|] eqn:He.
  - destruct (String.eqb (e_status e) "active") eqn:Hact; cbn [negb].
    + destruct Hcase as [Hw E].
      destruct Hin' as [-> ->].
      { intros (e' & He' & Hs'). rewrite E, lookup_alter_eq, He in He'.
        by simplify_eq/=. }
      split_and!.
      * case_decide; simpl; lia.
      * case_decide; simpl; lia.
      * intros []. exists e. split; [done|]. by apply String.eqb_eq.
    + destruct Hcase as [-> E].
      destruct Hin' as [-> ->].
      { intros (e' & He' & Hs'). rewrite E, He in He'. simplify_eq.
        by rewrite Hs' in Hact. }
      rewrite !decide_False by done. simpl. split_and!; try lia. done.
  - destruct Hcase as [-> E].
    destruct Hin' as [-> ->].
    { intros (e' & He' & Hs'). rewrite E, He in He'. simplify_eq. }
    rewrite !decide_False by done. simpl. split_and!; try lia. done.
Qed.

End in_turn.

(** ** A report, call by call *)

Section report.
Context `{Runtime}.

Lemma run_report_init env req w :
  firebase_ready env w → passes_validation req →
  run (postEmergencies env req) w =
  let w1 := after_init env w in
  if bool_decide (length (report_tokens req w1) ≠ 0%nat) then
    match messaging w1 with
    | Some e =>
        (inr (failed e),
         add_call (CallSendEachForMulticast (report_message req w1)) (reported req w1))
    | None =>
        (inr (created req w1),
         add_call (CallAuditAdd (pushed_entry req w1))
           (add_audit (pushed_entry req w1)
              (add_call (CallSendEachForMulticast (report_message req w1))
                 (add_outbox (report_message req w1) (reported req w1)))))
    end
  else (inr (created req w1), reported req w1).
Proof.
  intros Hready (He & Hlat & Hlon). unfold postEmergencies.
  rewrite run_try_catch, run_bind, run_perform, run_init_ready by done.
  rewrite He, Hlat, Hlon. cbn [negb orb].
  generalize (after_init env w). intros w1. cbn zeta.
  unfold report_tokens, report_top, report_message, pushed_entry, created, reported,
    created_entry, report_doc, report_key, report_id, failed.
  destruct (truthy (JNum (Number (r_timestamp req))) &&
            num_gt (Number (r_timestamp req)) (int 0)).
  - cbn -[String Number selectVolunteers take filter].
    case_bool_decide.
    + cbn -[String Number selectVolunteers take filter]. unfold send_to_messaging.
      cbn -[String Number selectVolunteers take filter].
      destruct (messaging w1); reflexivity.
    + reflexivity.
  - cbn -[String Number selectVolunteers take filter].
    case_bool_decide.
    + cbn -[String Number selectVolunteers take filter]. unfold send_to_messaging.
      cbn -[String Number selectVolunteers take filter].
      destruct (messaging w1); reflexivity.
    + reflexivity.
Qed.

Lemma same_data_report req w w1 :
  same_data w w1 →
  report_id req w1 = report_id req w ∧ report_key req w1 = report_key req w
  ∧ report_doc req w1 = report_doc req w ∧ created_entry req w1 = created_entry req w
  ∧ report_tokens req w1 = report_tokens req w
  ∧ report_message req w1 = report_message req w
  ∧ pushed_entry req w1 = pushed_entry req w ∧ created req w1 = created req w.
Proof.
  intros (Hc & _ & Hd & _).
  unfold created, pushed_entry, report_message, report_tokens, report_top,
    created_entry, report_doc, report_key, report_id.
  rewrite Hc, Hd. done.
Qed.

(** A report that passes validation, in terms of the world it starts in. *)
Lemma run_report env req w :
  firebase_ready env w → passes_validation req →
  let out := run (postEmergencies env req) w in
  calls out.2 =
    calls w ++ [CallSet (report_key req w) (report_doc req w);
                CallAuditAdd (created_entry req w);
                CallVolunteersQuery] ++ report_tail req w
  ∧ emergencies out.2 = <[report_key req w := report_doc req w]> (emergencies w)
  ∧ (∃ more, audit_logs out.2 = audit_logs w ++ created_entry req w :: more)
  ∧ (messaging w = None ∨ report_tokens req w = [] → out.1 = inr (created req w))
  ∧ (∀ e, messaging w = Some e → report_tokens req w ≠ [] → out.1 = inr (failed e)).
Proof.
  intros Hready Hvalid out. subst out. rewrite run_report_init by done. cbn zeta.
  pose proof (initFirebase_same_data env w) as Hsame.
  destruct (same_data_report req _ _ Hsame)
    as (Hid & Hkey & Hdoc & Hcr & Htok & Hmsg & Hpush & Hcreated).
  destruct Hsame as (_ & Hem & _ & Haud & Hmess & _ & Hcalls).
  unfold report_tail, reported. rewrite Hkey, Hdoc, Hcr, Htok, Hmsg, Hpush, Hcreated, Hmess.
  case_bool_decide as Hlen.
  - assert (report_tokens req w ≠ []) as Hne by (by intros E; rewrite E in Hlen).
    destruct (messaging w) as [e|]; simpl; rewrite Hem, Haud, Hcalls, <- ?app_assoc; simpl.
    + split_and!; try done; [by eexists|by intros [|]|by intros ? [= <-]].
    + split_and!; try done. by eexists.
  - assert (report_tokens req w = []) as Hnil.
    { by apply nil_length_inv. }
    simpl; rewrite Hem, Haud, Hcalls, <- ?app_assoc; simpl.
    split_and!; try done. by eexists.
Qed.

(** C3, as amended.  A report that passes validation writes the record,
    then the ['created'] audit entry, then queries the directory, and
    only after these calls the dispatcher: every call to messaging comes
    after both writes.  If no token was selected or the dispatcher takes
    the call, the answer is 201 with the new id.  If the dispatcher
    rejects the call, the answer is the 500 of the outer [catch]; the
    record and the audit entry stay written. *)
Theorem report_writes_before_notifying env req w :
  firebase_ready env w → passes_validation req →
  let out := run (postEmergencies env req) w in
  let written := [CallSet (report_key req w) (report_doc req w);
                  CallAuditAdd (created_entry req w)] in
  (∃ later, calls out.2 = calls w ++ written ++ CallVolunteersQuery :: later
            ∧ Forall (λ c, is_send c = false) (written ++ [CallVolunteersQuery]))
  ∧ emergencies out.2 !! report_key req w = Some (report_doc req w)
  ∧ created_entry req w ∈ audit_logs out.2
  ∧ (messaging w = None ∨ report_tokens req w = [] → out.1 = inr (created req w))
  ∧ (∀ e, messaging w = Some e → report_tokens req w ≠ [] → out.1 = inr (failed e)).
Proof.
  intros Hready Hvalid out written.
  destruct (run_report env req w Hready Hvalid) as (Hcalls & Hem & [more Haud] & Hok & Hko).
  fold out in Hcalls, Hem, Haud, Hok, Hko. split_and!; try done.
  - exists (report_tail req w). split; [by rewrite Hcalls|]. by repeat constructor.
  - by rewrite Hem, lookup_insert_eq.
  - rewrite Haud. set_solver.
Qed.

(** C8, as amended.  When the id derived for a report is the id of a
    stored record, the report replaces that record: afterwards the
    record under the id is the one built from the request alone (its
    [volunteerId] is null and it has no [acceptedAt]), the other records
    are as they were, and the answer is the one for an id never used:
    201 with the id, or, when tokens were selected and the notification
    dispatch rejects, 500 with the record replaced all the same. *)
Theorem report_replaces_record env req w old :
  firebase_ready env w → passes_validation req →
  emergencies w !! report_key req w = Some old →
  let out := run (postEmergencies env req) w in
  emergencies out.2 !! report_key req w = Some (report_doc req w)
  ∧ e_volunteerId (report_doc req w) = None
  ∧ e_acceptedAt (report_doc req w) = None
  ∧ (∀ k, k ≠ report_key req w → emergencies out.2 !! k = emergencies w !! k)
  ∧ (messaging w = None ∨ report_tokens req w = [] → out.1 = inr (created req w))
  ∧ (∀ e, messaging w = Some e → report_tokens req w ≠ [] → out.1 = inr (failed e)).
Proof.
  intros Hready Hvalid _ out.
  destruct (run_report env req w Hready Hvalid) as (_ & Hem & _ & Hok & Hko).
  fold out in Hem, Hok, Hko. rewrite Hem. split_and!; try done.
  - by rewrite lookup_insert_eq.
  - intros k Hk. by rewrite lookup_insert_ne.
Qed.

End report.

(** ** At most one accept for each time a record is open *)

Section exactly_once.
Context `{Runtime}.

Lemma once_refl key w : once key w w.
Proof. exists []. rewrite app_nil_r. split_and!; [done| |by left]. by intros. Qed.

Lemma once_trans key w1 w2 w3 : once key w1 w2 → once key w2 w3 → once key w1 w3.
Proof.
  intros (cs1 & C1 & I1 & O1) (cs2 & C2 & I2 & O2).
  exists (cs1 ++ cs2). rewrite filter_app.
  split; [by rewrite C2, C1, app_assoc|]. split.
  - intros Hn. destruct (I1 Hn) as [Hn2 ->]. destruct (I2 Hn2) as [Hn3 ->]. done.
  - destruct O1 as [->|[Hlen Hn2]]; [done|].
    destruct (I2 Hn2) as [Hn3 ->]. right. by rewrite app_nil_r.
Qed.

(** A step that leaves the emergencies alone and logs no transaction. *)
Lemma once_untouched key w w' : untouched w w' → once key w w'.
Proof.
  intros (E & _ & _ & cs & Hcs & Hf). exists cs.
  assert (filter (λ c, commits_on key c = true) cs = []) as Hnone.
  { clear Hcs. induction Hf as [|c cs Hc _ IH]; [done|].
    rewrite filter_cons, IH. by destruct c. }
  split_and!; [done| |by left].
  intros Hn. split; [|done]. intros (e & He & Hs). apply Hn. exists e. by rewrite <- E.
Qed.

Lemma once_untouched_data key w w' : same_data w w' → once key w w'.
Proof.
  intros (_ & E & _ & _ & _ & _ & C). exists []. rewrite app_nil_r.
  split; [done|]. split; [|by left].
  intros Hn. split; [|done]. intros (e & He & Hs). apply Hn. exists e. by rewrite <- E.
Qed.

Lemma once_quiet key {X} (op : Op X) w : quiet_op op = true → once key w (exec op w).2.
Proof. intros Hq. by apply once_untouched, exec_untouched. Qed.

Lemma once_init key env w : once key w (exec (InitFirebase env) w).2.
Proof.
  simpl. unfold initFirebase. repeat case_match; simpl; try apply once_refl.
  exists []. split; [by rewrite app_nil_r|]. split; [|by left]. by intros.
Qed.

Lemma once_update key k patch w :
  k ≠ key ∨ (∃ s, p_status patch = Some s ∧ s ≠ "active") →
  once key w (exec (EmergencyUpdate k patch) w).2.
Proof.
  intros Hsafe. simpl. destruct (emergencies w !! k) as [e0|] eqn:Hk; simpl.
  - exists [CallUpdate k patch]. split_and!; [done| |by left].
    intros Hn. split; [|done]. intros (e & He & Hs). simpl in He.
    rewrite lookup_alter in He. case_decide as Hkk.
    + subst k. rewrite Hk in He. simpl in He. simplify_eq.
      destruct Hsafe as [?|(s & Hps & Hne)]; [done|].
      simpl in Hs. rewrite Hps in Hs. simpl in Hs. done.
    + apply Hn. by exists e.
  - exists [CallUpdate k patch]. split_and!; [done| |by left].
    intros Hn. by split.
Qed.

Lemma commits_on_update key k patch :
  commits_on key (CallTransaction (inr [TxUpdate k patch])) = String.eqb k key.
Proof. simpl. by rewrite orb_false_r. Qed.

Lemma once_accept_tx key k v w :
  once key w (exec (RunTransaction (acceptTransaction k v)) w).2.
Proof.
  rewrite exec_accept_tx. destruct (emergencies w !! k) as [e0|] eqn:Hk.
  - destruct (String.eqb (e_status e0) "active") eqn:Hact; cbn [snd].
    + eexists [_]. split; [done|]. rewrite filter_cons, filter_nil, commits_on_update.
      destruct (String.eqb k key) eqn:Hkk.
      * apply String.eqb_eq in Hkk as ->. apply String.eqb_eq in Hact.
        rewrite decide_True by done. split.
        { intros Hn. destruct Hn. by exists e0. }
        right. split; [done|].
        intros (e & He & Hs). simpl in He. rewrite lookup_alter_eq, Hk in He.
        simpl in He. by simplify_eq.
      * apply String.eqb_neq in Hkk. rewrite decide_False by done. split; [|by left].
        intros Hn. split; [|done]. intros (e & He & Hs). simpl in He.
        rewrite lookup_alter_ne in He by done. apply Hn. by exists e.
    + eexists [_]. split; [done|]. split; [|by left]. by intros.
  - eexists [_]. split; [done|]. split; [|by left]. by intros.
Qed.

Lemma once_batch key keys w : once key w (exec (BatchCommit keys) w).2.
Proof.
  simpl. eexists [_]. split; [done|]. split; [|by left].
  intros Hn. split; [|done]. intros (e & He & Hs). simpl in He. apply Hn.
  exists e. split; [|done]. clear Hn. revert He. generalize (emergencies w).
  induction keys as [|k keys IH]; intros m Hm; [done|]. simpl in Hm.
  apply IH in Hm. rewrite lookup_delete in Hm. by case_decide.
Qed.

Ltac once_step :=
  apply Guarantees_do;
  [ intros ?; first [ by apply once_quiet | by apply once_init | by apply once_batch
                    | by apply once_accept_tx ]
  | intros [?|?]; unfold_handler;
    try apply Guarantees_ret; try apply Guarantees_throw ].

Lemma once_put env key id req w :
  ¬ reopens key (Put id req) w → Guarantees (once key) (putEmergency env id req).
Proof.
  intros Hno. simpl in Hno. unfold putEmergency.
  cbn [try_catch mbind prog_bind bind perform].
  once_step.
  destruct (truthy (JNum _)); unfold_handler; [|apply Guarantees_ret].
  destruct (truthy (u_status req)); unfold_handler; [|apply Guarantees_ret].
  destruct (String.eqb (String (u_status req)) "accepted") eqn:Hacc; unfold_handler.
  - destruct (truthy (u_volunteer_id req)); unfold_handler; [|apply Guarantees_ret].
    apply Guarantees_do; [intros w'; by apply once_accept_tx|].
    intros [e|[]]; unfold_handler.
    { unfold acceptCatch. repeat case_match; unfold_handler; apply Guarantees_ret. }
    do 3 once_step.
    case_match; unfold_handler; [|apply Guarantees_ret].
    once_step.
    case_match; unfold_handler; [|apply Guarantees_ret].
    once_step.
  - do 2 once_step.
    case_match; unfold_handler; [|apply Guarantees_ret].
    apply Guarantees_do.
    { intros w'. apply once_update.
      destruct (decide (accept_key id = key)) as [Hk|Hk]; [|by left].
      right. eexists. split; [done|]. intros Hs. by apply Hno. }
    intros [?|?]; unfold_handler; [apply Guarantees_ret|].
    do 2 once_step.
Qed.

Lemma once_cleanup env key token days :
  Guarantees (once key) (adminCleanup env token days).
Proof.
  unfold adminCleanup. cbn [try_catch mbind prog_bind bind perform].
  once_step.
  destruct (_ || _); unfold_handler; [apply Guarantees_ret|].
  do 2 once_step.
  case_bool_decide; unfold_handler; [|apply Guarantees_ret].
  once_step.
Qed.

Lemma run_report_unserved env req w :
  ¬ (firebase_ready env w ∧ passes_validation req) →
  same_data w (run (postEmergencies env req) w).2.
Proof.
  intros Hno. unfold postEmergencies.
  rewrite run_try_catch, run_bind, run_perform.
  pose proof (initFirebase_same_data env w) as Hsame.
  unfold firebase_ready, after_init in *. cbn [exec].
  destruct (initFirebase env w) as [[e|[]] w1]; simpl in *; [done|].
  destruct (truthy (r_elderly_id req)) eqn:He; simpl; [|done].
  destruct (typeof_number (r_latitude req)) eqn:Hlat; simpl; [|done].
  destruct (typeof_number (r_longitude req)) eqn:Hlon; simpl; [|done].
  destruct Hno. by repeat split.
Qed.

Lemma once_report env key req w :
  ¬ reopens key (Report req) w → once key w (run (postEmergencies env req) w).2.
Proof.
  intros Hno. simpl in Hno.
  destruct ((initFirebase env w).1) as [e|[]] eqn:Hready.
  { apply once_untouched_data, run_report_unserved.
    unfold firebase_ready. rewrite Hready. by intros [? _]. }
  destruct (truthy (r_elderly_id req) && typeof_number (r_latitude req)
            && typeof_number (r_longitude req)) eqn:Hvalid.
  2: { apply once_untouched_data, run_report_unserved.
       intros [_ (He & Hlat & Hlon)]. by rewrite He, Hlat, Hlon in Hvalid. }
  apply andb_prop in Hvalid as [Hvalid Hlon]. apply andb_prop in Hvalid as [He Hlat].
  assert (passes_validation req) as Hvalid by done.
  destruct (run_report env req w Hready Hvalid) as (Hcalls & Hem & _).
  eexists. split; [exact Hcalls|].
  assert (filter (λ c, commits_on key c = true)
            ([CallSet (report_key req w) (report_doc req w);
              CallAuditAdd (created_entry req w); CallVolunteersQuery]
             ++ report_tail req w) = []) as ->.
  { unfold report_tail. case_bool_decide; [destruct (messaging w)|]; done. }
  split; [|by left]. intros Hn. split; [|done].
  intros (e' & He' & Hs). apply Hn. exists e'. split; [|done].
  rewrite Hem, lookup_insert_ne in He'; done.
Qed.

Lemma once_serve env key r w : ¬ reopens key r w → once key w (serve env r w).2.
Proof.
  intros Hno. destruct r as [req|id req|token days]; unfold serve; simpl handler.
  - by apply once_report.
  - apply run_guarantees; [apply once_refl|apply once_trans|by eapply once_put].
  - apply run_guarantees; [apply once_refl|apply once_trans|apply once_cleanup].
Qed.

Lemma once_serve_all env key rs w :
  never_reopened env key rs w → once key w (serve_all env rs w).2.
Proof.
  revert w. induction rs as [|r rs IH]; intros w Hnever; [apply once_refl|].
  destruct Hnever as [Hno Hnever]. rewrite serve_all_cons. cbn [snd].
  eapply once_trans; [by apply once_serve|by apply IH].
Qed.

(** C1, as amended.  Take two accepts of the same record that pass
    validation.  (1) An accept makes one call that writes to the store,
    the transaction, and it is its first call: read, check and write are
    not separate calls.  (2) If the record is open, then however the
    calls of the two handlers interleave, one accept commits and is
    answered 200 (500 if the push to the reporter is rejected), the
    other is answered 409, and the record is left ['accepted'] with the
    volunteer of the one that committed.  (3) Of any number of accepts
    of the record served in turn, at most one commits and at most one is
    answered 200.  (4) In any sequence of requests, at most one accept of
    the record commits as long as no request opens the record again, which
    only a status change to ['active'] or a report with the same id does. *)
Theorem accept_once_per_opening env id1 req1 id2 req2 w :
  firebase_ready env w →
  valid_accept id1 req1 → valid_accept id2 req2 →
  accept_key id2 = accept_key id1 →
  let key := accept_key id1 in
  let m := messaging w in
  (∃ outcome cs,
     calls (run (putEmergency env id1 req1) w).2 = calls w ++ CallTransaction outcome :: cs
     ∧ Forall (λ c, is_store_write c = false) cs)
  ∧ (is_active key w → ∀ s, ∃ r1 r2 w',
       race s (putEmergency env id1 req1) (putEmergency env id2 req2) w
         = (inr r1, inr r2, w')
       ∧ ((won m r1 ∧ r2 = conflict ∧ accepted_by key (u_volunteer_id req1) w')
          ∨ (r1 = conflict ∧ won m r2 ∧ accepted_by key (u_volunteer_id req2) w')))
  ∧ (∀ rs, Forall (λ x, valid_accept x.1 x.2 ∧ accept_key x.1 = key) rs →
       let out := serve_all env (accept_requests rs) w in
       ∃ cs, calls out.2 = calls w ++ cs
         ∧ (length (filter (λ r, answered_ok r = true) out.1) ≤ 1)%nat
         ∧ (length (filter (λ c, committed c = true) cs) ≤ 1)%nat)
  ∧ (∀ rs, never_reopened env key rs w →
       ∃ cs, calls (serve_all env rs w).2 = calls w ++ cs
         ∧ (length (filter (λ c, commits_on key c = true) cs) ≤ 1)%nat).
Proof.
  intros Hready Hv1 Hv2 Hkey key m. split; [|split; [|split]].
  - destruct (run_pending env _ _ m _ w (pending_put env id1 req1 _ Hv1))
      as (r & w' & cs & -> & _ & _ & Hcalls & Hcs & _); [done..|].
    by eexists _, cs.
  - intros Hact s.
    apply (race_outcome env key (u_volunteer_id req1) (u_volunteer_id req2) m);
      [|done].
    apply race_open; [by apply pending_put| |done].
    unfold key. rewrite <- Hkey. by apply pending_put.
  - intros rs Hrs.
    destruct (accepts_in_turn env key rs w Hready Hrs) as (cs & ? & ? & ? & _).
    by exists cs.
  - intros rs Hnever.
    destruct (once_serve_all env key rs w Hnever) as (cs & Hcs & _ & [Hnone|[Hone _]]).
    + exists cs. split; [done|]. rewrite Hnone. simpl. lia.
    + exists cs. split; [done|]. rewrite Hone. lia.
Qed.

End exactly_once.

(** ** The volunteer selector *)

Section sort_facts.
Context {A : Type} (cmp : A → A → num).

Lemma insert_sorted_perm x l : insert_sorted cmp x l ≡ₚ x :: l.
Proof.
  induction l as [|y l IH]; [done|]. simpl.
  destruct (goes_after cmp x y); [|done].
  by rewrite IH, Permutation_swap.
Qed.

Lemma Array_sort_perm l : Array_sort cmp l ≡ₚ l.
Proof.
  induction l as [|x l IH]; [done|]. simpl.
  by rewrite insert_sorted_perm, IH.
Qed.

Section sorted.
Context (R : relation A) (good : A → Prop).
Context `{!Transitive R}.
Context (Hafter : ∀ x y, good x → good y → goes_after cmp x y = true → R y x).
Context (Hnot : ∀ x y, good x → good y → goes_after cmp x y = false → R x y).

Lemma insert_sorted_sorted x l :
  good x → Forall good l → StronglySorted R l →
  StronglySorted R (insert_sorted cmp x l).
Proof.
  intros Hx Hl Hs. induction Hs as [|y l Hs IH Hy]; simpl.
  - by repeat constructor.
  - apply Forall_cons in Hl as [Hgy Hl].
    destruct (goes_after cmp x y) eqn:Hg.
    + constructor; [by apply IH|].
      rewrite insert_sorted_perm. constructor; [by apply Hafter|done].
    + constructor; [by constructor|].
      constructor; [by apply Hnot|].
      eapply Forall_impl; [exact Hy|]. intros z Hz. etrans; [|exact Hz].
      by apply Hnot.
Qed.

Lemma Array_sort_sorted l :
  Forall good l → StronglySorted R (Array_sort cmp l).
Proof.
  induction 1 as [|x l Hx Hl IH]; simpl; [constructor|].
  apply insert_sorted_sorted; [done| |done].
  by rewrite Array_sort_perm.
Qed.

End sorted.

Section stable.
Context (P : A → Prop) `{!∀ x, Decision (P x)}.
Context (Htie : ∀ x y, P x → P y → goes_after cmp x y = false).

Lemma insert_sorted_stable x l :
  filter P (insert_sorted cmp x l) = filter P (x :: l).
Proof.
  induction l as [|y l IH]; [done|]. simpl.
  destruct (goes_after cmp x y) eqn:Hg; [|done].
  rewrite (filter_cons _ y), IH, !filter_cons.
  destruct (decide (P x)) as [Hx|Hx], (decide (P y)) as [Hy|Hy]; try done.
  rewrite Htie in Hg; done.
Qed.

Lemma Array_sort_stable l : filter P (Array_sort cmp l) = filter P l.
Proof.
  induction l as [|x l IH]; [done|]. simpl.
  by rewrite insert_sorted_stable, !filter_cons, IH.
Qed.

End stable.
End sort_facts.

(** A sorted and stable arrangement is determined by the list it
    arranges. *)
Section unique.
Context {A K : Type} `{EqDecision K} (R : relation A) (key : A → K).
Context (Hanti : ∀ x y, R x y → R y x → key x = key y).

Lemma sorted_stable_unique l1 l2 :
  l1 ≡ₚ l2 → StronglySorted R l1 → StronglySorted R l2 →
  (∀ k, filter (λ x, key x = k) l1 = filter (λ x, key x = k) l2) →
  l1 = l2.
Proof.
  revert l2. induction l1 as [|x l1 IH]; intros l2 Hperm Hs1 Hs2 Hst.
  { by apply Permutation_nil_l in Hperm. }
  destruct l2 as [|y l2]; [by apply Permutation_nil_r in Hperm|].
  apply StronglySorted_inv in Hs1 as [Hs1 Hx], Hs2 as [Hs2 Hy].
  rewrite Forall_forall in Hx, Hy.
  assert (x = y) as <-.
  { assert (x ∈ y :: l2) as Hin1 by (rewrite <- Hperm; left).
    assert (y ∈ x :: l1) as Hin2 by (rewrite Hperm; left).
    apply elem_of_cons in Hin1 as [?|Hin1]; [done|].
    apply elem_of_cons in Hin2 as [?|Hin2]; [done|].
    pose proof (Hanti x y (Hx _ Hin2) (Hy _ Hin1)) as Hk.
    specialize (Hst (key x)). rewrite !filter_cons in Hst.
    rewrite decide_True in Hst by done. rewrite decide_True in Hst by done.
    by simplify_eq. }
  f_equal. apply IH; [by eapply Permutation_cons_inv|done..|].
  intros k. specialize (Hst k). rewrite !filter_cons in Hst.
  case_decide; by simplify_eq.
Qed.

End unique.

Section selector.
Context `{Runtime}.

Lemma Qc_of_Z_0 : Qc_of_Z 0 = 0%Qc.
Proof. by apply Qc_is_canon. Qed.

Lemma num_gt_older now d :
  num_gt (num_sub now (last_seen d)) (int (10 * 60 * 1000)) = true ↔ older_than 600000 now d.
Proof.
  unfold older_than, num_gt, num_lt, num_sub, num_lift.
  destruct now as [|n], (last_seen d) as [|t]; simpl.
  1-3: split; [done|intros (? & ? & ? & ? & ?); done].
  rewrite bool_decide_eq_true. split.
  - intros Hlt. by exists n, t.
  - intros (n' & t' & [= <-] & [= <-] & Hlt). done.
Qed.

Lemma last_seen_code d :
  (if typeof_number (d_lastSeenAt d) then Number (d_lastSeenAt d) else int 0) = last_seen d.
Proof. unfold last_seen. by destruct (d_lastSeenAt d). Qed.

Lemma collectVolunteer_spec now lat lon vs d :
  collectVolunteer now lat lon vs d
  = vs ++ (if decide (retained now d) then [entry_of lat lon d] else []).
Proof.
  unfold collectVolunteer. rewrite last_seen_code.
  destruct (decide (retained now d)) as [[Htok Hn]|Hnot].
  - rewrite Htok. cbn [negb]. destruct (num_gt _ _) eqn:Hgt; [|done].
    apply num_gt_older in Hgt. done.
  - destruct (truthy (d_fcmToken d)) eqn:Htok; cbn [negb]; [|by rewrite app_nil_r].
    destruct (num_gt _ _) eqn:Hgt; [by rewrite app_nil_r|].
    destruct Hnot. split; [done|]. intros Ho. apply num_gt_older in Ho. congruence.
Qed.

Lemma collectVolunteers_spec now lat lon snap :
  collectVolunteers now lat lon snap
  = entry_of lat lon <$> filter (retained now) snap.
Proof.
  unfold collectVolunteers.
  enough (∀ acc, foldl (collectVolunteer now lat lon) acc snap
                 = acc ++ (entry_of lat lon <$> filter (retained now) snap)) as Hgen
    by apply (Hgen []).
  induction snap as [|d snap IH]; intros acc; simpl.
  - by rewrite app_nil_r.
  - rewrite IH, collectVolunteer_spec, filter_cons.
    destruct (decide (retained now d)); simpl.
    + by rewrite <- app_assoc.
    + by rewrite app_nil_r.
Qed.
(** C5.  The selector's candidates are the entries of exactly those
    devices of the snapshot that have a push token and whose last
    heartbeat is not more than ten minutes before the selection time, in
    the order of the snapshot; a device without a recorded heartbeat
    counts as last seen at time 0, which is more than ten minutes before
    any selection time past 600000.  Every entry the selector returns is
    one of them. *)
Theorem selection_filters now lat lon snap :
  collectVolunteers now lat lon snap = entry_of lat lon <$> filter (retained now) snap
  ∧ (∀ v, v ∈ selectVolunteers now lat lon snap →
       ∃ d, d ∈ snap ∧ v = entry_of lat lon d
            ∧ truthy (d_fcmToken d) = true ∧ ¬ older_than 600000 now d)
  ∧ (∀ d, d ∈ snap → truthy (d_fcmToken d) = false ∨ older_than 600000 now d →
       d ∉ filter (retained now) snap)
  ∧ (∀ d n, typeof_number (d_lastSeenAt d) = false → now = Fin n →
       (Qc_of_Z 600000 < n)%Qc → older_than 600000 now d)
  ∧ (∀ d n t, retained now d → now = Fin n → d_lastSeenAt d = JNum (Fin t) →
       (n - t ≤ Qc_of_Z 600000)%Qc).
Proof.
  split; [apply collectVolunteers_spec|]. split; [|split; [|split]].
  - intros v Hv. unfold selectVolunteers in Hv.
    apply elem_of_take in Hv as (i & Hv & _). apply list_elem_of_lookup_2 in Hv.
    rewrite Array_sort_perm, collectVolunteers_spec in Hv.
    apply list_elem_of_fmap in Hv as (d & -> & Hd).
    apply list_elem_of_filter in Hd as [[Htok Hfresh] Hd].
    by exists d.
  - intros d _ Hout Hd. apply list_elem_of_filter in Hd as [[Htok Hfresh] _].
    destruct Hout as [Hno|Hold]; [congruence|done].
  - intros d n Hty -> Hn. exists n, (Qc_of_Z 0). split; [done|]. split.
    + unfold last_seen. by destruct (d_lastSeenAt d).
    + by rewrite Qc_of_Z_0, (right_id 0%Qc Qcminus).
  - intros d n t [_ Hfresh] -> Ht. apply Qcle_ngt. intros Hlt. apply Hfresh.
    exists n, t. unfold last_seen. by rewrite Ht.
Qed.

#[local] Instance ranks_before_trans : Transitive ranks_before.
Proof.
  intros a b c. unfold ranks_before.
  destruct (distanceKm a) as [[|x]|], (distanceKm b) as [[|y]|],
    (distanceKm c) as [[|z]|]; try done.
  apply Qcle_trans.
Qed.

Lemma Qc_sub_pos (x y : Qc) : (Qc_of_Z 0 < x - y)%Qc ↔ (y < x)%Qc.
Proof. symmetry. apply Qclt_minus_iff. Qed.

Lemma compare_after a b :
  distance_known a → distance_known b →
  goes_after compareVolunteers a b = true → ranks_before b a.
Proof.
  unfold distance_known, goes_after, compareVolunteers, ranks_before, num_gt.
  destruct (distanceKm a) as [[|x]|], (distanceKm b) as [[|y]|]; try done.
  intros _ _ Hlt%bool_decide_eq_true_1. apply (proj1 (Qc_sub_pos _ _)) in Hlt.
  by apply Qclt_le_weak.
Qed.

Lemma compare_not_after a b :
  distance_known a → distance_known b →
  goes_after compareVolunteers a b = false → ranks_before a b.
Proof.
  unfold distance_known, goes_after, compareVolunteers, ranks_before, num_gt.
  destruct (distanceKm a) as [[|x]|], (distanceKm b) as [[|y]|]; try done.
  intros _ _ Hlt%bool_decide_eq_false_1.
  apply Qcle_ngt. intros Hyx. apply Hlt. by apply (proj2 (Qc_sub_pos _ _)).
Qed.


Lemma compare_tie k a b :
  distanceKm a = k → distanceKm b = k → goes_after compareVolunteers a b = false.
Proof.
  intros Ha Hb. unfold goes_after, compareVolunteers, num_gt. rewrite Ha, Hb.
  destruct k as [[|x]|]; try done.
  apply bool_decide_eq_false_2. intros Hlt. apply (proj1 (Qc_sub_pos _ _)) in Hlt.
  by apply Qclt_not_eq in Hlt.
Qed.

Lemma ranks_before_antisym a b :
  ranks_before a b → ranks_before b a → distanceKm a = distanceKm b.
Proof.
  unfold ranks_before.
  destruct (distanceKm a) as [[|x]|], (distanceKm b) as [[|y]|]; try done.
  intros Hxy Hyx. do 2 f_equal. by apply Qcle_antisym.
Qed.

(** The arrangement [Array_sort] computes is the only one that is
    sorted and stable. *)
Lemma Array_sort_canonical vs l :
  Forall distance_known vs →
  l ≡ₚ vs → StronglySorted ranks_before l →
  (∀ k, filter (λ v, distanceKm v = k) l = filter (λ v, distanceKm v = k) vs) →
  l = Array_sort compareVolunteers vs.
Proof.
  intros Hknown Hperm Hsorted Hstable.
  apply (sorted_stable_unique ranks_before distanceKm ranks_before_antisym).
  - by rewrite Array_sort_perm.
  - done.
  - by apply (Array_sort_sorted compareVolunteers ranks_before distance_known
                compare_after compare_not_after).
  - intros k. rewrite Hstable. symmetry. apply Array_sort_stable.
    intros x y. apply compare_tie.
Qed.


End selector.

(** ** The distance between two points *)











Section distance.
Context `{Runtime}.














End distance.

(** ** The invariant of stored emergencies *)

Section invariant.
Context `{Runtime}.

Lemma keeps_quiet {X} (op : Op X) w :
  quiet_op op = true → docs_ok (emergencies w) → docs_ok (emergencies (exec op w).2).
Proof. intros Hq Hw. by destruct (exec_untouched op w Hq) as (-> & _). Qed.

Lemma keeps_init env w :
  docs_ok (emergencies w) → docs_ok (emergencies (exec (InitFirebase env) w).2).
Proof.
  simpl. unfold initFirebase. by repeat case_match.
Qed.

Lemma keeps_set key doc w :
  doc_ok doc → docs_ok (emergencies w) →
  docs_ok (emergencies (exec (EmergencySet key doc) w).2).
Proof.
  intros Hd Hw k e. simpl. rewrite lookup_insert.
  case_decide; [by intros [= <-]|apply Hw].
Qed.

Lemma keeps_alter f key (m : gmap string EmergencyDoc) :
  (∀ e, doc_ok e → doc_ok (f e)) → docs_ok m → docs_ok (alter f key m).
Proof.
  intros Hf Hm k e. rewrite lookup_alter. case_decide; [|apply Hm].
  subst k. destruct (m !! key) as [e0|] eqn:He0; simpl; [|done].
  intros [= <-]. apply Hf. by eapply Hm.
Qed.

Lemma keeps_update key patch w :
  (∀ e, doc_ok e → doc_ok (apply_patch patch e)) → docs_ok (emergencies w) →
  docs_ok (emergencies (exec (EmergencyUpdate key patch) w).2).
Proof.
  intros Hp Hw. simpl. destruct (emergencies w !! key); simpl; [|done].
  by apply keeps_alter.
Qed.

Lemma keeps_accept_tx key v w :
  docs_ok (emergencies w) →
  docs_ok (emergencies (exec (RunTransaction (acceptTransaction key v)) w).2).
Proof.
  intros Hw. rewrite exec_accept_tx.
  destruct (emergencies w !! key) as [e|]; [|done].
  destruct (String.eqb (e_status e) "active"); [|done]. simpl.
  apply keeps_alter; [|done]. intros e' _. split; simpl; [|by eauto].
  split; eauto.
Qed.

Lemma keeps_batch keys w :
  docs_ok (emergencies w) → docs_ok (emergencies (exec (BatchCommit keys) w).2).
Proof.
  simpl. generalize (emergencies w). induction keys as [|k keys IH]; intros m Hm; [done|].
  simpl. apply IH. intros k' e. rewrite lookup_delete. case_decide; [done|apply Hm].
Qed.

Ltac keeps_step :=
  apply Guarantees_do;
  [ intros ? ?; first [ by apply keeps_quiet | by apply keeps_init | by apply keeps_batch ]
  | intros [?|?]; unfold_handler;
    try apply Guarantees_ret; try apply Guarantees_throw ].

Lemma keeps_report env req :
  allowed (Report req) → Guarantees keeps_docs (postEmergencies env req).
Proof.
  intros Hst. simpl in Hst. unfold postEmergencies.
  cbn [try_catch mbind prog_bind bind perform].
  keeps_step.
  destruct (_ || _); unfold_handler; [apply Guarantees_ret|].
  destruct (_ && _); unfold_handler; [|keeps_step].
  all: keeps_step.
  all: apply Guarantees_do;
    [ intros w Hw; apply keeps_set; [|done]; split; simpl; [|done];
      split; intros [? [=]]
    | intros [?|?]; unfold_handler; [apply Guarantees_ret|] ].
  all: do 2 keeps_step.
  all: case_bool_decide; unfold_handler; [|apply Guarantees_ret].
  all: do 3 keeps_step.
Qed.

Lemma keeps_put env id req :
  allowed (Put id req) → Guarantees keeps_docs (putEmergency env id req).
Proof.
  intros Hst. simpl in Hst. unfold putEmergency.
  cbn [try_catch mbind prog_bind bind perform].
  keeps_step.
  destruct (truthy (JNum _)); unfold_handler; [|apply Guarantees_ret].
  destruct (truthy (u_status req)); unfold_handler; [|apply Guarantees_ret].
  destruct (String.eqb (String (u_status req)) "accepted") eqn:Hacc; unfold_handler.
  - destruct (truthy (u_volunteer_id req)); unfold_handler; [|apply Guarantees_ret].
    apply Guarantees_do; [intros w Hw; by apply keeps_accept_tx|].
    intros [e|[]]; unfold_handler.
    { unfold acceptCatch. repeat case_match; unfold_handler; apply Guarantees_ret. }
    do 3 keeps_step.
    case_match; unfold_handler; [|apply Guarantees_ret].
    keeps_step.
    case_match; unfold_handler; [|apply Guarantees_ret].
    keeps_step.
  - destruct Hst as [Hst| ->]; [by rewrite Hst in Hacc|].
    do 2 keeps_step.
    case_match; unfold_handler; [|apply Guarantees_ret].
    apply Guarantees_do.
    { intros w Hw. apply keeps_update; [|done]. intros e' [Hiff Hs].
      split; simpl; [done|]. intros Heq. by rewrite Heq in Hacc. }
    intros [?|?]; unfold_handler; [apply Guarantees_ret|].
    do 2 keeps_step.
Qed.

Lemma keeps_cleanup env token days : Guarantees keeps_docs (adminCleanup env token days).
Proof.
  unfold adminCleanup. cbn [try_catch mbind prog_bind bind perform].
  keeps_step.
  destruct (_ || _); unfold_handler; [apply Guarantees_ret|].
  do 2 keeps_step.
  case_bool_decide; unfold_handler; [|apply Guarantees_ret].
  keeps_step.
Qed.

(** *** [acceptedAt] comes from an accept *)

Lemma stamps_refl key w : stamps key w w.
Proof. exists []. rewrite app_nil_r. split; [done|]. by left. Qed.

Lemma stamps_trans key w1 w2 w3 : stamps key w1 w2 → stamps key w2 w3 → stamps key w1 w3.
Proof.
  intros (cs1 & C1 & S1) (cs2 & C2 & S2). exists (cs1 ++ cs2).
  split; [by rewrite C2, C1, app_assoc|]. intros Hu.
  destruct (S1 Hu) as [Hu2|Hc]; [|right; apply Exists_app; by left].
  destruct (S2 Hu2) as [Hu3|Hc]; [by left|right; apply Exists_app; by right].
Qed.

Lemma stamps_same key w w' c :
  emergencies w' = emergencies w → calls w' = calls w ++ c → stamps key w w'.
Proof.
  intros E C. exists c. split; [done|]. intros Hu. left. intros e. rewrite E. apply Hu.
Qed.

Lemma stamps_quiet key {X} (op : Op X) w : quiet_op op = true → stamps key w (exec op w).2.
Proof.
  intros Hq. destruct (exec_untouched op w Hq) as (E & _ & _ & cs & C & _).
  by eapply stamps_same.
Qed.

Lemma stamps_init key env w : stamps key w (exec (InitFirebase env) w).2.
Proof.
  destruct (initFirebase_same_data env w) as (_ & E & _ & _ & _ & _ & C).
  apply (stamps_same _ _ _ []); [done|]. by rewrite app_nil_r.
Qed.

Lemma stamps_set key k doc w :
  e_acceptedAt doc = None → stamps key w (exec (EmergencySet k doc) w).2.
Proof.
  intros Hdoc. eexists [_]. split; [done|]. intros Hu. left. intros e. simpl.
  rewrite lookup_insert. case_decide; [by intros [= <-]|apply Hu].
Qed.

Lemma stamps_update key k patch w :
  p_acceptedAt patch = None → stamps key w (exec (EmergencyUpdate k patch) w).2.
Proof.
  intros Hp. simpl. destruct (emergencies w !! k) as [e0|] eqn:Hk; simpl.
  - eexists [_]. split; [done|]. intros Hu. left. intros e. simpl.
    rewrite lookup_alter. case_decide as Hkk; [|apply Hu].
    subst k. rewrite Hk. simpl. intros [= <-]. simpl. rewrite Hp. by apply Hu.
  - eexists [_]. split; [done|]. intros Hu. by left.
Qed.

Lemma stamps_accept_tx key k v w :
  stamps key w (exec (RunTransaction (acceptTransaction k v)) w).2.
Proof.
  rewrite exec_accept_tx. destruct (emergencies w !! k) as [e0|] eqn:Hk.
  - destruct (String.eqb (e_status e0) "active") eqn:Hact; cbn [snd].
    + eexists [_]. split; [done|]. intros Hu.
      destruct (String.eqb k key) eqn:Hkk.
      * right. apply Exists_cons_hd. by rewrite commits_on_update.
      * apply String.eqb_neq in Hkk. left. intros e. simpl.
        rewrite lookup_alter_ne by done. apply Hu.
    + eexists [_]. split; [done|]. intros Hu. by left.
  - eexists [_]. split; [done|]. intros Hu. by left.
Qed.

Lemma stamps_batch key keys w : stamps key w (exec (BatchCommit keys) w).2.
Proof.
  simpl. eexists [_]. split; [done|]. intros Hu. left. intros e He. simpl in He.
  apply Hu. revert He. generalize (emergencies w).
  induction keys as [|k keys IH]; intros m Hm; [done|]. simpl in Hm.
  apply IH in Hm. rewrite lookup_delete in Hm. by case_decide.
Qed.

Ltac stamps_step :=
  apply Guarantees_do;
  [ intros ?; first [ by apply stamps_quiet | by apply stamps_init
                    | by apply stamps_batch | by apply stamps_accept_tx
                    | by apply stamps_set | by apply stamps_update ]
  | intros [?|?]; unfold_handler;
    try apply Guarantees_ret; try apply Guarantees_throw ].

Lemma stamps_report env key req : Guarantees (stamps key) (postEmergencies env req).
Proof.
  unfold postEmergencies. cbn [try_catch mbind prog_bind bind perform].
  stamps_step.
  destruct (_ || _); unfold_handler; [apply Guarantees_ret|].
  destruct (_ && _); unfold_handler; [|stamps_step].
  all: do 4 stamps_step.
  all: case_bool_decide; unfold_handler; [|apply Guarantees_ret].
  all: do 3 stamps_step.
Qed.

Lemma stamps_put env key id req : Guarantees (stamps key) (putEmergency env id req).
Proof.
  unfold putEmergency. cbn [try_catch mbind prog_bind bind perform].
  stamps_step.
  destruct (truthy (JNum _)); unfold_handler; [|apply Guarantees_ret].
  destruct (truthy (u_status req)); unfold_handler; [|apply Guarantees_ret].
  destruct (String.eqb (String (u_status req)) "accepted"); unfold_handler.
  - destruct (truthy (u_volunteer_id req)); unfold_handler; [|apply Guarantees_ret].
    apply Guarantees_do; [intros w'; by apply stamps_accept_tx|].
    intros [e|[]]; unfold_handler.
    { unfold acceptCatch. repeat case_match; unfold_handler; apply Guarantees_ret. }
    do 3 stamps_step.
    case_match; unfold_handler; [|apply Guarantees_ret].
    stamps_step.
    case_match; unfold_handler; [|apply Guarantees_ret].
    stamps_step.
  - do 2 stamps_step.
    case_match; unfold_handler; [|apply Guarantees_ret].
    do 3 stamps_step.
Qed.

Lemma stamps_cleanup env key token days :
  Guarantees (stamps key) (adminCleanup env token days).
Proof.
  unfold adminCleanup. cbn [try_catch mbind prog_bind bind perform].
  stamps_step.
  destruct (_ || _); unfold_handler; [apply Guarantees_ret|].
  do 2 stamps_step.
  case_bool_decide; unfold_handler; [|apply Guarantees_ret].
  stamps_step.
Qed.

Lemma stamps_serve env key r w : stamps key w (serve env r w).2.
Proof.
  unfold serve. apply run_guarantees; [apply stamps_refl|apply stamps_trans|].
  destruct r; simpl; [apply stamps_report|apply stamps_put|apply stamps_cleanup].
Qed.

(** C4, as amended.  In every world reached from an empty collection
    through reports that do not ask for the status ['accepted'], accepts,
    status changes that leave [volunteer_id] out and cleanups, a stored
    emergency names a volunteer exactly when an accept transaction has
    stamped it with [acceptedAt], and names one whenever its status is
    ['accepted'].  The stamp is the trace of the accept: whatever request
    is served next, a record without [acceptedAt] gets one only if an
    accept transaction on it commits. *)
Theorem volunteer_iff_accepted env w k e :
  reachable env w → emergencies w !! k = Some e →
  doc_ok e ∧ ∀ r, stamps k w (serve env r w).2.
Proof.
  intros Hreach Hk. split; [|intros r; apply stamps_serve].
  revert k e Hk. change (docs_ok (emergencies w)).
  induction Hreach as [w Hw|r w _ IH Hr|w w' _ IH Hw].
  - intros k e. by rewrite Hw, lookup_empty.
  - unfold serve. refine (run_guarantees keeps_docs (handler env r) w _ _ _ IH).
    + by unfold keeps_docs.
    + unfold keeps_docs. auto.
    + destruct r; simpl; [by apply keeps_report|by apply keeps_put|apply keeps_cleanup].
  - by rewrite Hw.
Qed.

End invariant.

(** ** Closed examples *)

(** The examples are computed with the runtime of [Decimal], on the data
    of [Demo]. *)
#[local] Existing Instance Decimal.runtime.

(** Against C1 as stated: volunteer 7 accepts the open emergency, a status
    change sets it back to ['active'], volunteer 9 accepts it.  All three
    requests are answered 200, two accept transactions commit on the one
    id, and the record ends with volunteer 9. *)
Lemma accept_twice_after_reopening :
  (serve_all Demo.env Demo.reopening Demo.world).1 = [inr ok; inr ok; inr ok]
  ∧ length (filter (λ c, committed c = true)
              (calls (serve_all Demo.env Demo.reopening Demo.world).2)) = 2%nat
  ∧ e_volunteerId <$> emergencies (serve_all Demo.env Demo.reopening Demo.world).2 !! Demo.key
    = Some (Some (int 9)).
Proof. vm_compute. done. Qed.

(** [accept_once_per_opening] on the open emergency of [Demo.world], with
    volunteers 7 and 9 racing under [Demo.schedule]. *)
Lemma accept_once_per_opening_witness :
  firebase_ready Demo.env Demo.world
  ∧ valid_accept Demo.key (Demo.accept 7) ∧ valid_accept Demo.key (Demo.accept 9)
  ∧ is_active Demo.key Demo.world
  ∧ ∃ r1 r2 w',
      race Demo.schedule (putEmergency Demo.env Demo.key (Demo.accept 7))
        (putEmergency Demo.env Demo.key (Demo.accept 9)) Demo.world
      = (inr r1, inr r2, w')
      ∧ ((won None r1 ∧ r2 = conflict ∧ accepted_by Demo.key (JNum (int 7)) w')
         ∨ (r1 = conflict ∧ won None r2 ∧ accepted_by Demo.key (JNum (int 9)) w')).
Proof.
  assert (firebase_ready Demo.env Demo.world) as Hready by reflexivity.
  assert (valid_accept Demo.key (Demo.accept 7)) as Hv7 by (by vm_compute).
  assert (valid_accept Demo.key (Demo.accept 9)) as Hv9 by (by vm_compute).
  assert (is_active Demo.key Demo.world) as Hact.
  { exists Demo.open_emergency. by vm_compute. }
  split_and!; try done.
  destruct (accept_once_per_opening Demo.env Demo.key (Demo.accept 7) Demo.key
              (Demo.accept 9) Demo.world Hready Hv7 Hv9 eq_refl) as (_ & Hrace & _).
  exact (Hrace Hact Demo.schedule).
Defined.

(** [accept_failures] on an id nothing is stored under. *)
Lemma accept_failures_witness :
  firebase_ready Demo.env Demo.world
  ∧ valid_accept "42" (Demo.accept 7)
  ∧ (run (putEmergency Demo.env "42" (Demo.accept 7)) Demo.world).1 = inr not_found
  ∧ emergencies (run (putEmergency Demo.env "42" (Demo.accept 7)) Demo.world).2
    = emergencies Demo.world.
Proof.
  assert (firebase_ready Demo.env Demo.world) as Hready by reflexivity.
  assert (valid_accept "42" (Demo.accept 7)) as Hvalid by (by vm_compute).
  destruct (accept_failures Demo.env "42" (Demo.accept 7) Demo.world Hready Hvalid)
    as (Hnf & _ & Hsame).
  assert ((run (putEmergency Demo.env "42" (Demo.accept 7)) Demo.world).1 = inr not_found)
    as Hresp by (apply Hnf; by vm_compute).
  split; [exact Hready|]. split; [exact Hvalid|]. split; [exact Hresp|].
  apply Hsame. by left.
Defined.

(** Against C3 as stated: while messaging rejects calls, a report that
    passes validation and finds volunteers to notify is answered 500 with
    the dispatcher's message, not 201 with the id; the record is stored. *)
Lemma report_fails_when_dispatch_rejects :
  passes_validation (Demo.report 5 JUndefined JUndefined)
  ∧ (run (postEmergencies Demo.env (Demo.report 5 JUndefined JUndefined))
       Demo.world_messaging_down).1
    = inr (respond 500 (BodyError "messaging/server-unavailable"))
  ∧ e_status <$> emergencies
      (run (postEmergencies Demo.env (Demo.report 5 JUndefined JUndefined))
         Demo.world_messaging_down).2 !! "1700000600000" = Some "active".
Proof. by vm_compute. Qed.

(** [report_writes_before_notifying] on the same report. *)
Lemma report_writes_before_notifying_witness :
  firebase_ready Demo.env Demo.world_messaging_down
  ∧ passes_validation (Demo.report 5 JUndefined JUndefined)
  ∧ is_Some (emergencies
       (run (postEmergencies Demo.env (Demo.report 5 JUndefined JUndefined))
          Demo.world_messaging_down).2 !! "1700000600000")
  ∧ (run (postEmergencies Demo.env (Demo.report 5 JUndefined JUndefined))
       Demo.world_messaging_down).1
    = inr (failed (Error "messaging/server-unavailable")).
Proof.
  assert (firebase_ready Demo.env Demo.world_messaging_down) as Hready by reflexivity.
  assert (passes_validation (Demo.report 5 JUndefined JUndefined)) as Hvalid
    by (by vm_compute).
  destruct (report_writes_before_notifying Demo.env (Demo.report 5 JUndefined JUndefined)
              Demo.world_messaging_down Hready Hvalid) as (_ & Hrec & _ & _ & Hko).
  split; [exact Hready|]. split; [exact Hvalid|]. split.
  - eexists. exact Hrec.
  - apply Hko; by vm_compute.
Defined.

(** Against C4 as stated: a report that asks for the status ['accepted']
    stores an accepted record without a volunteer; and a status change that
    names a volunteer stores the volunteer in a record no accept ever
    touched. *)
Lemma volunteer_set_apart_from_accept :
  (e_status <$> emergencies (serve_all Demo.env Demo.born_accepted Demo.fresh).2 !! Demo.key
   = Some "accepted"
   ∧ e_volunteerId <$> emergencies (serve_all Demo.env Demo.born_accepted Demo.fresh).2
       !! Demo.key = Some None)
  ∧ (e_status <$> emergencies
       (serve_all Demo.env Demo.cancelled_with_volunteer Demo.fresh).2 !! Demo.key
     = Some "cancelled"
     ∧ e_volunteerId <$> emergencies
         (serve_all Demo.env Demo.cancelled_with_volunteer Demo.fresh).2 !! Demo.key
       = Some (Some (int 9))
     ∧ e_acceptedAt <$> emergencies
         (serve_all Demo.env Demo.cancelled_with_volunteer Demo.fresh).2 !! Demo.key
       = Some None).
Proof. by vm_compute. Qed.

(** [volunteer_iff_accepted] on the record left by a report and an
    accept. *)
Lemma volunteer_iff_accepted_witness :
  reachable Demo.env
    (serve Demo.env (Put Demo.key (Demo.accept 7))
       (serve Demo.env (Report (Demo.report 5 (JNum (int 1700000000000)) JUndefined))
          Demo.fresh).2).2
  ∧ emergencies
      (serve Demo.env (Put Demo.key (Demo.accept 7))
         (serve Demo.env (Report (Demo.report 5 (JNum (int 1700000000000)) JUndefined))
            Demo.fresh).2).2 !! Demo.key
    = Some Demo.accepted_emergency
  ∧ doc_ok Demo.accepted_emergency
  ∧ ∀ r, stamps Demo.key
      (serve Demo.env (Put Demo.key (Demo.accept 7))
         (serve Demo.env (Report (Demo.report 5 (JNum (int 1700000000000)) JUndefined))
            Demo.fresh).2).2
      (serve Demo.env r
         (serve Demo.env (Put Demo.key (Demo.accept 7))
            (serve Demo.env (Report (Demo.report 5 (JNum (int 1700000000000)) JUndefined))
               Demo.fresh).2).2).2.
Proof.
  assert (reachable Demo.env Demo.fresh) as Hfresh by (apply reach_start; reflexivity).
  assert (allowed (Report (Demo.report 5 (JNum (int 1700000000000)) JUndefined)))
    as Hreport by (vm_compute; discriminate).
  assert (allowed (Put Demo.key (Demo.accept 7))) as Haccept by (left; reflexivity).
  pose proof (reach_serve Demo.env _ _ (reach_serve Demo.env _ _ Hfresh Hreport) Haccept)
    as Hreach.
  split; [exact Hreach|].
  assert (emergencies
      (serve Demo.env (Put Demo.key (Demo.accept 7))
         (serve Demo.env (Report (Demo.report 5 (JNum (int 1700000000000)) JUndefined))
            Demo.fresh).2).2 !! Demo.key
    = Some Demo.accepted_emergency) as Hlook by (vm_compute; reflexivity).
  split; [exact Hlook|].
  exact (volunteer_iff_accepted Demo.env _ Demo.key _ Hreach Hlook).
Defined.

(** [selection_filters] on [Demo.directory]: volunteer 10 has no token
    and volunteer 11 was last seen an hour before; 7, 8 and 9 are kept, in
    the order of the directory. *)
Lemma selection_filters_witness :
  userId <$> collectVolunteers (int 1700000600000) (JNum (int 10)) (JNum (int 20))
               (snd <$> Demo.directory)
  = [JNum (int 7); JNum (int 8); JNum (int 9)].
Proof.
  destruct (selection_filters (int 1700000600000) (JNum (int 10)) (JNum (int 20))
              (snd <$> Demo.directory)) as (-> & _).
  by vm_compute.
Defined.



(** [Decimal.runtime] is within the bounds. *)






(** Against C8 as stated: the emergency accepted by volunteer 7 is
    replaced by the record of a later report with the same timestamp, which
    is answered 201; the acceptance is gone. *)
Lemma report_overwrites_accepted_record :
  (serve_all Demo.env Demo.colliding_report Demo.world).1
  = [inr ok; inr (respond 201 (BodyId (int 1700000000000)))]
  ∧ e_volunteerId <$> emergencies (serve Demo.env (Put Demo.key (Demo.accept 7))
                                     Demo.world).2 !! Demo.key = Some (Some (int 7))
  ∧ emergencies (serve_all Demo.env Demo.colliding_report Demo.world).2 !! Demo.key
    = Some Demo.second_report_doc.
Proof. by vm_compute. Qed.

(** [report_replaces_record] on the open emergency of [Demo.world]. *)
Lemma report_replaces_record_witness :
  firebase_ready Demo.env Demo.world
  ∧ passes_validation (Demo.report 6 (JNum (int 1700000000000)) JUndefined)
  ∧ emergencies Demo.world !! Demo.key = Some Demo.open_emergency
  ∧ emergencies
      (run (postEmergencies Demo.env (Demo.report 6 (JNum (int 1700000000000)) JUndefined))
         Demo.world).2 !! Demo.key = Some Demo.second_report_doc.
Proof.
  assert (firebase_ready Demo.env Demo.world) as Hready by reflexivity.
  assert (passes_validation (Demo.report 6 (JNum (int 1700000000000)) JUndefined))
    as Hvalid by (by vm_compute).
  assert (emergencies Demo.world
            !! report_key (Demo.report 6 (JNum (int 1700000000000)) JUndefined) Demo.world
          = Some Demo.open_emergency) as Hold by (by vm_compute).
  destruct (report_replaces_record Demo.env _ Demo.world _ Hready Hvalid Hold)
    as (Hnew & _).
  split; [exact Hready|]. split; [exact Hvalid|]. split; [exact Hold|]. exact Hnew.
Defined.

(** [cleanup_guard_fails_closed] on a call that presents a wrong token. *)
Lemma cleanup_guard_fails_closed_witness :
  firebase_ready Demo.env Demo.world
  ∧ (run (adminCleanup Demo.env (JStr "guess") JUndefined) Demo.world).1
    = inr (respond 403 (BodyError "Forbidden"))
  ∧ emergencies (run (adminCleanup Demo.env (JStr "guess") JUndefined) Demo.world).2
    = emergencies Demo.world.
Proof.
  assert (firebase_ready Demo.env Demo.world) as Hready by reflexivity.
  destruct (cleanup_guard_fails_closed Demo.env (JStr "guess") JUndefined Demo.world Hready)
    as (_ & Hwrong & _).
  destruct (Hwrong "s3cret") as (Hresp & _ & Hem & _); [done..|].
  split; [exact Hready|]. split; [exact Hresp|exact Hem].
Defined.

(** [zero_ids_rejected] on a report by user 0 and an accept by
    volunteer 0. *)
Lemma zero_ids_rejected_witness :
  firebase_ready Demo.env Demo.world
  ∧ (run (postEmergencies Demo.env (Demo.report 0 JUndefined JUndefined)) Demo.world).1
    = inr (respond 400 (BodyError "elderly_id, latitude, longitude are required"))
  ∧ (run (putEmergency Demo.env Demo.key (Demo.accept 0)) Demo.world).1
    = inr (respond 400 (BodyError "volunteer_id is required for accepted")).
Proof.
  assert (firebase_ready Demo.env Demo.world) as Hready by reflexivity.
  destruct (zero_ids_rejected Demo.env Demo.world Hready) as (Hreport & Haccept).
  split; [exact Hready|]. split.
  - by apply Hreport.
  - by apply Haccept.
Defined.

(** * The other routes, and more about the three *)

Import Directory Routes Api RouteProps.

(** ** Every route answers *)

Section answers.
Context `{Runtime} `{StringMethods} `{Firestore}.

Lemma run_leaves {A} (Q : A → Prop) p w : Leaves Q p → ∃ a, (run p w).1 = inr a ∧ Q a.
Proof.
  intros HL. revert w. induction HL as [a Ha|X op k _ IH]; intros w; [by exists a|].
  simpl. destruct (exec op w) as [r w']. apply IH.
Qed.

Lemma Leaves_impl {A} (Q Q' : A → Prop) p : (∀ a, Q a → Q' a) → Leaves Q p → Leaves Q' p.
Proof. intros HQ. induction 1; constructor; auto. Qed.

Ltac leaves_step :=
  apply Leaves_do; intros [?|?]; unfold_handler;
  try (apply Leaves_ret; simpl; set_solver).

Lemma report_leaves env req :
  Leaves (λ r, status_code r ∈ [201; 400; 500]%nat) (postEmergencies env req).
Proof.
  unfold postEmergencies. cbn [try_catch mbind prog_bind bind perform].
  leaves_step.
  destruct (_ || _); unfold_handler; [apply Leaves_ret; set_solver|].
  destruct (_ && _); unfold_handler; [|leaves_step].
  all: do 4 leaves_step.
  all: case_bool_decide; unfold_handler; [|apply Leaves_ret; set_solver].
  all: do 3 leaves_step.
Qed.

Lemma put_leaves env id req :
  Leaves (λ r, status_code r ∈ [200; 400; 404; 409; 500]%nat) (putEmergency env id req).
Proof.
  unfold putEmergency. cbn [try_catch mbind prog_bind bind perform].
  leaves_step.
  destruct (truthy (JNum _)); unfold_handler; [|apply Leaves_ret; set_solver].
  destruct (truthy (u_status req)); unfold_handler; [|apply Leaves_ret; set_solver].
  destruct (String.eqb (String (u_status req)) "accepted"); unfold_handler.
  - destruct (truthy (u_volunteer_id req)); unfold_handler; [|apply Leaves_ret; set_solver].
    apply Leaves_do. intros [e|[]]; unfold_handler.
    { unfold acceptCatch. repeat case_match; unfold_handler; apply Leaves_ret; set_solver. }
    do 3 leaves_step.
    case_match; unfold_handler; [|apply Leaves_ret; set_solver].
    leaves_step.
    case_match; unfold_handler; [|apply Leaves_ret; set_solver].
    leaves_step.
  - do 2 leaves_step.
    case_match; unfold_handler; [|apply Leaves_ret; set_solver].
    do 3 leaves_step.
Qed.

Lemma cleanup_leaves env token days :
  Leaves (λ r, status_code r ∈ [200; 403; 500]%nat) (adminCleanup env token days).
Proof.
  unfold adminCleanup. cbn [try_catch mbind prog_bind bind perform].
  leaves_step.
  destruct (_ || _); unfold_handler; [apply Leaves_ret; set_solver|].
  do 2 leaves_step.
  case_bool_decide; unfold_handler; [|apply Leaves_ret; set_solver].
  leaves_step.
Qed.

(** What the two device routes and the read route do once [initFirebase]
    has returned. *)
Lemma run_register env req w :
  devicesRegister env req w =
  match initFirebase env w with
  | (inl e, w1) => (inr (error_response e), w1)
  | (inr _, w1) =>
      if negb (truthy (g_user_id req)) || negb (truthy (g_role req))
         || negb (truthy (g_fcm_token req))
      then (inr (respond 400 (BodyError "user_id, role, fcm_token are required")), w1)
      else device_written (String (g_role req) +:+ "_" +:+ String (g_user_id req))
             (register_patch req (int (clock w1))) w1
  end.
Proof.
  unfold devicesRegister, catch, mbind, handler_bind, call, mret, handler_ret,
    device_written, DeviceSetMerge, register_patch. simpl.
  destruct (initFirebase env w) as [[e|[]] w1]; [done|].
  destruct (_ || _); [done|]. by destruct (doc _).
Qed.

Lemma run_availability env req w :
  volunteersAvailability env req w =
  match initFirebase env w with
  | (inl e, w1) => (inr (error_response e), w1)
  | (inr _, w1) =>
      if negb (truthy (v_volunteer_id req))
      then (inr (respond 400 (BodyError "volunteer_id is required")), w1)
      else device_written ("volunteer_" +:+ String (v_volunteer_id req))
             (availability_patch req (int (clock w1))) w1
  end.
Proof.
  unfold volunteersAvailability, catch, mbind, handler_bind, call, mret, handler_ret,
    device_written, DeviceSetMerge, availability_patch. simpl.
  destruct (initFirebase env w) as [[e|[]] w1]; [done|].
  destruct (negb _); [done|]. by destruct (doc _).
Qed.

Lemma run_active env volunteer_id w :
  emergenciesActive env volunteer_id w =
  match initFirebase env w with
  | (inl e, w1) => (inr (Responded (error_response e)), w1)
  | (inr _, w1) =>
      (inr (Listed (activeItem <$> listed_for volunteer_id (emergencies w1))), w1)
  end.
Proof.
  unfold emergenciesActive, catch, mbind, handler_bind, call, mret, handler_ret,
    listed_for, EmergenciesWhere. cbn -[truthy Number initFirebase].
  destruct (initFirebase env w) as [[e|[]] w1]; [done|].
  destruct (truthy volunteer_id); cbn -[truthy Number]; [|reflexivity].
  destruct (truthy (JNum (Number volunteer_id))); reflexivity.
Qed.

Lemma run_emergencies env r w :
  route env (Emergencies r) w =
  match serve env r w with
  | (inr response, w') => (inr (Responded response), w')
  | (inl e, w') => (inl e, w')
  end.
Proof.
  unfold route, emergencyRoute, mbind, handler_bind, mret, handler_ret.
  by destruct (serve env r w) as [[e|r'] w'].
Qed.

(** X1.  Every request is answered: no route lets an error escape, and
    each answers with one of its own statuses. *)
Theorem every_request_answered env r w :
  ∃ reply, (route env r w).1 = inr reply ∧ reply_status reply ∈ statuses r.
Proof.
  destruct r as [|req|req|v|[req|id req|token days]].
  - eexists. split; [reflexivity|]. simpl. set_solver.
  - unfold route, mbind, handler_bind, mret, handler_ret. rewrite run_register.
    destruct (initFirebase env w) as [[e|[]] w1]; [eexists; split; [reflexivity|simpl; set_solver]|].
    destruct (_ || _); [eexists; split; [reflexivity|simpl; set_solver]|].
    unfold device_written.
    destruct (doc _); eexists; (split; [reflexivity|simpl; set_solver]).
  - unfold route, mbind, handler_bind, mret, handler_ret. rewrite run_availability.
    destruct (initFirebase env w) as [[e|[]] w1]; [eexists; split; [reflexivity|simpl; set_solver]|].
    destruct (negb _); [eexists; split; [reflexivity|simpl; set_solver]|].
    unfold device_written.
    destruct (doc _); eexists; (split; [reflexivity|simpl; set_solver]).
  - unfold route. rewrite run_active.
    destruct (initFirebase env w) as [[e|[]] w1]; eexists; (split; [reflexivity|simpl; set_solver]).
  - rewrite run_emergencies. unfold serve.
    assert (Leaves (λ resp, status_code resp ∈ statuses (Emergencies (Report req)))
              (handler env (Report req))) as HL by apply report_leaves.
    destruct (run_leaves _ _ w HL) as (a & Ha & HQ).
    destruct (run _ w) as [[e|r'] w']; simplify_eq/=. by exists (Responded a).
  - rewrite run_emergencies. unfold serve.
    assert (Leaves (λ resp, status_code resp ∈ statuses (Emergencies (Put id req)))
              (handler env (Put id req))) as HL by apply put_leaves.
    destruct (run_leaves _ _ w HL) as (a & Ha & HQ).
    destruct (run _ w) as [[e|r'] w']; simplify_eq/=. by exists (Responded a).
  - rewrite run_emergencies. unfold serve.
    assert (Leaves (λ resp, status_code resp ∈ statuses (Emergencies (Cleanup token days)))
              (handler env (Cleanup token days))) as HL by apply cleanup_leaves.
    destruct (run_leaves _ _ w HL) as (a & Ha & HQ).
    destruct (run _ w) as [[e|r'] w']; simplify_eq/=. by exists (Responded a).
Qed.

End answers.

(** ** When Firebase cannot be initialised *)

Section init.
Context `{Runtime} `{StringMethods} `{Firestore}.

Lemma run_init_failed env (k : unit → Prog Response) w e :
  (initFirebase env w).1 = inl e →
  run (try_catch (perform (InitFirebase env) ≫= k) server_error) w
  = (inr (error_response e), (initFirebase env w).2).
Proof.
  intros He. rewrite run_try_catch, run_bind, run_perform. simpl.
  destruct (initFirebase env w) as [r w1]. simpl in He. subst r. done.
Qed.

Lemma initFirebase_failed env w e : (initFirebase env w).1 = inl e → (initFirebase env w).2 = w.
Proof. unfold initFirebase. repeat case_match; simpl; congruence. Qed.

Lemma route_init_failed env r w e :
  r ≠ GetHealth → (initFirebase env w).1 = inl e →
  route env r w = (inr (Responded (error_response e)), w).
Proof.
  intros Hr He. pose proof (initFirebase_failed env w e He) as Hw.
  destruct r as [|req|req|v|[req|id req|token days]]; [done|..].
  - unfold route, mbind, handler_bind, mret, handler_ret. rewrite run_register.
    destruct (initFirebase env w) as [r w1]. simpl in *. by subst.
  - unfold route, mbind, handler_bind, mret, handler_ret. rewrite run_availability.
    destruct (initFirebase env w) as [r w1]. simpl in *. by subst.
  - unfold route. rewrite run_active.
    destruct (initFirebase env w) as [r w1]. simpl in *. by subst.
  - rewrite run_emergencies. unfold serve, handler, postEmergencies.
    rewrite (run_init_failed env _ w e He), Hw. done.
  - rewrite run_emergencies. unfold serve, handler, putEmergency.
    rewrite (run_init_failed env _ w e He), Hw. done.
  - rewrite run_emergencies. unfold serve, handler, adminCleanup.
    rewrite (run_init_failed env _ w e He), Hw. done.
Qed.

(** X2.  While no Firebase app is initialised, every route but the
    health check answers 500 and changes nothing, whatever the request:
    with the message of [initFirebase] when the service account is unset
    or empty or is not JSON, and with the message of the SDK when it
    refuses the account.  This comes before validation and before the
    administrative guard. *)
Theorem uninitialised_routes_answer_500 env r w :
  apps_length w = 0%nat → r ≠ GetHealth →
  let raw := FIREBASE_SERVICE_ACCOUNT_JSON env in
  let failing msg := route env r w = (inr (Responded (respond 500 (BodyError msg))), w) in
  (raw = None ∨ raw = Some "" → failing "Missing FIREBASE_SERVICE_ACCOUNT_JSON")
  ∧ (∀ s, raw = Some s → s ≠ "" → JSON_parse s = None →
       failing "FIREBASE_SERVICE_ACCOUNT_JSON must be valid JSON")
  ∧ (∀ s account e, raw = Some s → s ≠ "" → JSON_parse s = Some account →
       initializeApp account = Some e →
       route env r w = (inr (Responded (error_response e)), w)).
Proof.
  intros Happs Hr raw failing. subst raw failing. cbn beta. split_and!.
  - intros Hraw.
    rewrite (route_init_failed env r w (Error "Missing FIREBASE_SERVICE_ACCOUNT_JSON")); try done.
    unfold initFirebase. rewrite Happs. by destruct Hraw as [-> | ->].
  - intros s Hraw Hs Hparse.
    rewrite (route_init_failed env r w
               (Error "FIREBASE_SERVICE_ACCOUNT_JSON must be valid JSON")); try done.
    unfold initFirebase. rewrite Happs, Hraw. simpl.
    apply String.eqb_neq in Hs as ->. simpl. by rewrite Hparse.
  - intros s account e Hraw Hs Hparse Hinit.
    apply route_init_failed; [done|].
    unfold initFirebase. rewrite Happs, Hraw. simpl.
    apply String.eqb_neq in Hs as ->. simpl. by rewrite Hparse, Hinit.
Qed.

(** Firebase is initialised by the first call that needs it and by no
    later one. *)
Lemma exec_initialised_once {X} (op : Op X) w : initialised_once w (exec op w).2.
Proof.
  destruct op; simpl; unfold send_to_messaging; try (by left).
  all: try (case_match; by left).
  unfold initFirebase. case_bool_decide as Happs; [by left|].
  repeat case_match; simpl; try (by left).
  right. split; [done|]. simpl. by rewrite Happs.
Qed.

Lemma initialised_once_trans w1 w2 w3 :
  initialised_once w1 w2 → initialised_once w2 w3 → initialised_once w1 w3.
Proof. unfold initialised_once. lia. Qed.

Lemma run_initialised_once {A} (p : Prog A) w : initialised_once w (run p w).2.
Proof.
  revert w. induction p as [a|e|X op k IH]; intros w; [by left..|].
  simpl. pose proof (exec_initialised_once op w) as Hop.
  destruct (exec op w) as [r w']. eapply initialised_once_trans; [exact Hop|apply IH].
Qed.

Lemma route_initialised_once env r w : initialised_once w (route env r w).2.
Proof.
  pose proof (exec_initialised_once (InitFirebase env) w) as Hinit. simpl in Hinit.
  destruct r as [|req|req|v|r].
  - by left.
  - unfold route, mbind, handler_bind, mret, handler_ret. rewrite run_register.
    destruct (initFirebase env w) as [[e|[]] w1]; [done|].
    destruct (_ || _); [done|]. unfold device_written. by destruct (doc _).
  - unfold route, mbind, handler_bind, mret, handler_ret. rewrite run_availability.
    destruct (initFirebase env w) as [[e|[]] w1]; [done|].
    destruct (negb _); [done|]. unfold device_written. by destruct (doc _).
  - unfold route. rewrite run_active. by destruct (initFirebase env w) as [[e|[]] w1].
  - rewrite run_emergencies. pose proof (run_initialised_once (handler env r) w) as Hrun.
    unfold serve. by destruct (run (handler env r) w) as [[e|r'] w'].
Qed.

(** X3.  Over any sequence of requests Firebase is initialised at most
    once: an app that exists is never initialised again, and without one
    the requests leave at most one. *)
Theorem firebase_initialised_once env rs w :
  (apps_length w ≠ 0%nat → apps_length (route_all env rs w).2 = apps_length w)
  ∧ (apps_length w = 0%nat → (apps_length (route_all env rs w).2 ≤ 1)%nat).
Proof.
  enough (initialised_once w (route_all env rs w).2) as Hen
    by (unfold initialised_once in Hen; lia).
  revert w. induction rs as [|r rs IH]; intros w; [by left|].
  simpl. pose proof (route_initialised_once env r w) as Hr.
  destruct (route env r w) as [reply w1]. specialize (IH w1).
  destruct (route_all env rs w1) as [replies w2].
  eapply initialised_once_trans; [exact Hr|exact IH].
Qed.

End init.

(** ** Requests turned down *)

Section refused.
Context `{Runtime} `{StringMethods} `{Firestore}.

Lemma same_records_refl w : same_records w w.
Proof. done. Qed.

Lemma same_records_trans w1 w2 w3 :
  same_records w1 w2 → same_records w2 w3 → same_records w1 w3.
Proof. unfold same_records. intros (-> & -> & -> & ->) (-> & -> & -> & ->). done. Qed.

Lemma same_records_init env w : same_records w (initFirebase env w).2.
Proof. destruct (initFirebase_same_data env w) as (_ & ? & ? & ? & _ & ? & _). done. Qed.

Lemma untouched_op_records {X} (op : Op X) w :
  match op with
  | InitFirebase _ | DateNow | EmergencyGet _ | VolunteersQuery | DeviceGet _
  | CleanupQuery _ => True
  | _ => False
  end → same_records w (exec op w).2.
Proof.
  destruct op; try done; intros _; simpl; [apply same_records_init|by destruct cutoff].
Qed.

Lemma Leaves_Clean p : Leaves (λ r, ¬ client_error (status_code r)) p → Clean p.
Proof.
  induction 1 as [a Ha|X op k Hk IH]; [constructor|].
  apply Clean_do; [|done]. intros w. right. apply Hk.
Qed.

Lemma run_clean p w :
  Clean p → ∀ r, (run p w).1 = inr r → client_error (status_code r) →
  same_records w (run p w).2.
Proof.
  intros HC. revert w. induction HC as [r0|X op k Hop _ IH]; intros w r Hr Hc; [done|].
  simpl in *. specialize (Hop w). destruct (exec op w) as [r1 w1]. simpl in Hop.
  destruct Hop as [Hsame|HL].
  - eapply same_records_trans; [exact Hsame|]. by eapply IH.
  - destruct (run_leaves _ _ w1 HL) as (a & Ha & Hna). congruence.
Qed.

Ltac settled := apply Leaves_ret; unfold client_error; simpl; lia.

Ltac settled_step :=
  apply Leaves_do; intros [?|?]; unfold_handler; try settled.

Ltac clean_step :=
  apply Clean_do;
  [ intros ?; left; by apply untouched_op_records
  | intros [?|?]; unfold_handler; try apply Clean_ret ].

Lemma report_clean env req : Clean (postEmergencies env req).
Proof.
  unfold postEmergencies. cbn [try_catch mbind prog_bind bind perform].
  clean_step.
  destruct (_ || _); unfold_handler; [apply Clean_ret|].
  apply Leaves_Clean.
  destruct (_ && _); unfold_handler; [|settled_step].
  all: do 4 settled_step.
  all: case_bool_decide; unfold_handler; [|settled].
  all: do 3 settled_step.
Qed.

Lemma put_clean env id req : Clean (putEmergency env id req).
Proof.
  unfold putEmergency. cbn [try_catch mbind prog_bind bind perform].
  clean_step.
  destruct (truthy (JNum _)); unfold_handler; [|apply Clean_ret].
  destruct (truthy (u_status req)); unfold_handler; [|apply Clean_ret].
  destruct (String.eqb (String (u_status req)) "accepted"); unfold_handler.
  - destruct (truthy (u_volunteer_id req)); unfold_handler; [|apply Clean_ret].
    apply Clean_do.
    + intros w. rewrite exec_accept_tx.
      destruct (emergencies w !! _) as [e0|]; [|by left].
      destruct (String.eqb (e_status e0) "active"); [|by left].
      right. cbn [fst]. unfold_handler.
      do 3 settled_step.
      case_match; unfold_handler; [|settled].
      settled_step.
      case_match; unfold_handler; [|settled].
      settled_step.
    + intros [e|[]]; unfold_handler.
      { unfold acceptCatch. repeat case_match; unfold_handler; apply Clean_ret. }
      apply Leaves_Clean.
      do 3 settled_step.
      case_match; unfold_handler; [|settled].
      settled_step.
      case_match; unfold_handler; [|settled].
      settled_step.
  - do 2 clean_step.
    case_match; unfold_handler; [|apply Clean_ret].
    apply Leaves_Clean. do 3 settled_step.
Qed.

Lemma cleanup_clean env token days : Clean (adminCleanup env token days).
Proof.
  unfold adminCleanup. cbn [try_catch mbind prog_bind bind perform].
  clean_step.
  destruct (_ || _); unfold_handler; [apply Clean_ret|].
  apply Leaves_Clean. do 2 settled_step.
  case_bool_decide; unfold_handler; [|settled].
  settled_step.
Qed.

(** X4.  A request answered with a status of the 4xx class (400, 403,
    404, 409) has changed nothing: the emergencies, the devices, the
    audit log and the messages sent are as they were before it. *)
Theorem client_errors_change_nothing env r w reply :
  (route env r w).1 = inr reply → client_error (reply_status reply) →
  same_records w (route env r w).2.
Proof.
  pose proof (same_records_init env w) as Hinit.
  destruct r as [|req|req|v|r].
  - intros [= <-]. unfold client_error. simpl. lia.
  - unfold route, mbind, handler_bind, mret, handler_ret. rewrite run_register.
    destruct (initFirebase env w) as [[e|[]] w1]; simpl.
    + intros [= <-]. unfold client_error. simpl. lia.
    + destruct (_ || _); simpl; [by intros [= <-]|]. unfold device_written.
      destruct (doc _); simpl; intros [= <-]; unfold client_error; simpl; lia.
  - unfold route, mbind, handler_bind, mret, handler_ret. rewrite run_availability.
    destruct (initFirebase env w) as [[e|[]] w1]; simpl.
    + intros [= <-]. unfold client_error. simpl. lia.
    + destruct (negb _); simpl; [by intros [= <-]|]. unfold device_written.
      destruct (doc _); simpl; intros [= <-]; unfold client_error; simpl; lia.
  - unfold route. rewrite run_active.
    destruct (initFirebase env w) as [[e|[]] w1]; simpl; intros [= <-];
      unfold client_error; simpl; lia.
  - rewrite run_emergencies. unfold serve.
    assert (Clean (handler env r)) as HC.
    { destruct r; [apply report_clean|apply put_clean|apply cleanup_clean]. }
    pose proof (run_clean _ w HC) as Hrun.
    destruct (run (handler env r) w) as [[e|r'] w']; simpl in *; [done|].
    intros [= <-] Hc. by apply (Hrun r').
Qed.

End refused.

(** ** The retention sweep *)

Section sweep.
Context `{Runtime} `{StringMethods} `{Firestore}.

Lemma run_cleanup env token days w :
  firebase_ready env w → authorised env token → cleanup_days env days ≠ NaN →
  run (adminCleanup env token days) w =
  let w1 := after_init env w in
  let keys := created_before (cleanup_cutoff env days w1) (emergencies w1) in
  (inr (respond 200 (BodyCleanup (length keys) (cleanup_days env days))),
   if bool_decide (length keys ≠ 0%nat)
   then add_call (CallBatchCommit keys)
          (set_emergencies (λ m, foldl (λ m k, delete k m) m keys)
             (add_call (CallCleanupQuery (cleanup_cutoff env days w1)) w1))
   else add_call (CallCleanupQuery (cleanup_cutoff env days w1)) w1).
Proof.
  intros Hready [Htok Heq] Hnum. unfold adminCleanup.
  rewrite run_try_catch, run_bind, run_perform, run_init_ready by done.
  rewrite Htok, Heq. cbn [negb orb]. generalize (after_init env w). intros w1.
  destruct (cleanup_days env days) as [|d] eqn:Hd; [done|].
  unfold cleanup_cutoff. rewrite Hd. unfold cleanup_days in Hd. rewrite Hd.
  cbn -[String Number truthy created_before].
  case_bool_decide; reflexivity.
Qed.

(** With a cutoff that is not a number the query is refused before any
    call is issued. *)
Lemma run_cleanup_nan env token days w :
  firebase_ready env w → authorised env token → cleanup_days env days = NaN →
  run (adminCleanup env token days) w = (inr (error_response nan_filter), after_init env w).
Proof.
  intros Hready [Htok Heq] Hd. unfold adminCleanup.
  rewrite run_try_catch, run_bind, run_perform, run_init_ready by done.
  rewrite Htok, Heq. cbn [negb orb]. generalize (after_init env w). intros w1.
  unfold cleanup_days in Hd. rewrite Hd. reflexivity.
Qed.

Lemma lookup_foldl_delete (keys : list string) (m : gmap string EmergencyDoc) k :
  foldl (λ m k, delete k m) m keys !! k = if decide (k ∈ keys) then None else m !! k.
Proof.
  revert m. induction keys as [|k0 keys IH]; intros m; simpl; [done|].
  rewrite IH, lookup_delete.
  destruct (decide (k ∈ keys)) as [Hin|Hin], (decide (k ∈ k0 :: keys)) as [Hin'|Hin'];
    try done.
  - destruct Hin'. by apply list_elem_of_further.
  - apply elem_of_cons in Hin' as [->|?]; [|done]. by rewrite decide_True.
  - rewrite decide_False; [done|]. intros ->. apply Hin'. apply list_elem_of_here.
Qed.


Lemma created_before_older cutoff (m : gmap string EmergencyDoc) :
  ∃ l, created_before cutoff m = fst <$> take 200 l
       ∧ l ≡ₚ older_records cutoff m.
Proof. eexists. split; [reflexivity|]. apply Array_sort_perm. Qed.


Lemma created_before_elem cutoff (m : gmap string EmergencyDoc) k :
  k ∈ created_before cutoff m →
  ∃ e, m !! k = Some e ∧ num_lt (e_createdAt e) cutoff = true.
Proof.
  destruct (created_before_older cutoff m) as (l & -> & Hl). intros Hk.
  apply list_elem_of_fmap in Hk as ([k' e] & -> & Hke).
  apply elem_of_take in Hke as (i & Hke & _). apply list_elem_of_lookup_2 in Hke.
  rewrite Hl in Hke. apply list_elem_of_filter in Hke as [Hlt Hke].
  apply elem_of_map_to_list in Hke. by exists e.
Qed.

Lemma created_before_all cutoff (m : gmap string EmergencyDoc) k e :
  (length (older_records cutoff m) ≤ 200)%nat →
  m !! k = Some e → num_lt (e_createdAt e) cutoff = true →
  k ∈ created_before cutoff m.
Proof.
  destruct (created_before_older cutoff m) as (l & -> & Hl). intros Hlen Hk Hlt.
  rewrite take_ge by by rewrite Hl.
  apply list_elem_of_fmap. exists (k, e). split; [done|]. rewrite Hl.
  apply list_elem_of_filter. split; [done|]. by apply elem_of_map_to_list.
Qed.

#[local] Instance not_after_trans : Transitive not_after.
Proof.
  intros a b c. unfold not_after.
  destruct (e_createdAt a.2), (e_createdAt b.2), (e_createdAt c.2); try done.
  apply Qcle_trans.
Qed.





(** X6.  When [days] does not convert to a number the cutoff is [NaN],
    the Firestore client refuses the query, and the sweep answers 500
    with the message of the client; no call is issued and nothing is
    deleted. *)
Theorem sweep_without_numeric_days env token days w :
  firebase_ready env w → authorised env token → cleanup_days env days = NaN →
  let out := run (adminCleanup env token days) w in
  out.1 = inr (respond 500 (BodyError (message nan_filter)))
  ∧ same_data w out.2.
Proof.
  intros Hready Hauth Hnan out. subst out. rewrite run_cleanup_nan by done.
  split; [done|]. apply initFirebase_same_data.
Qed.

End sweep.

(** ** What a status change and an accept leave behind *)

Section put_effects.
Context `{Runtime} `{StringMethods} `{Firestore}.

Lemma alter_lookup_insert (f : EmergencyDoc → EmergencyDoc) k e
    (m : gmap string EmergencyDoc) :
  m !! k = Some e → alter f k m = <[k := f e]> m.
Proof.
  intros Hk. apply map_eq. intros k'. rewrite lookup_alter, lookup_insert.
  case_decide; [subst; by rewrite Hk|done].
Qed.

Lemma run_change env id req w :
  firebase_ready env w → valid_change id req →
  run (putEmergency env id req) w =
  let w1 := after_init env w in
  let key := accept_key id in
  let patch := change_patch req (int (clock w1)) in
  let entry := change_entry id req (int (clock w1)) in
  match emergencies w1 !! key with
  | None => (inr not_found, add_call (CallGet key) w1)
  | Some _ =>
      (inr ok,
       add_call (CallAuditAdd entry)
         (add_audit entry
            (add_call (CallUpdate key patch)
               (set_emergencies (alter (apply_patch patch) key)
                  (add_call (CallGet key) w1)))))
  end.
Proof.
  intros Hready (Hid & Hst & Hna). unfold putEmergency.
  rewrite run_try_catch, run_bind, run_perform, run_init_ready by done.
  rewrite Hid, Hst. cbn [negb]. apply String.eqb_neq in Hna. rewrite Hna.
  generalize (after_init env w). intros w1. cbn zeta.
  unfold change_patch, change_entry, accept_key.
  cbn -[String Number truthy].
  destruct (emergencies w1 !! _) as [e|] eqn:Hk; cbn -[String Number truthy]; [|done].
  rewrite Hk. reflexivity.
Qed.

(** X7.  A status change (a [PUT] whose status is not ['accepted']) of
    an id without a record answers 404 and changes nothing.  On a stored
    record it answers 200 and stores the status as given, without
    checking it against the life cycle; [volunteerId] is overwritten
    exactly when the body has a [volunteer_id] (with null for null), the
    other fields but [updatedAt] are kept, the other records are as they
    were, one audit entry [status_<status>] is added, and nobody is
    notified. *)
Theorem status_change_rewrites_record env id req w :
  firebase_ready env w → valid_change id req →
  let out := run (putEmergency env id req) w in
  let key := accept_key id in
  (emergencies w !! key = None → out.1 = inr not_found ∧ same_records w out.2)
  ∧ (∀ e, emergencies w !! key = Some e →
       out.1 = inr ok
       ∧ (∃ e', emergencies out.2 = <[key := e']> (emergencies w)
            ∧ e_status e' = String (u_status req)
            ∧ e_volunteerId e' =
                (if typeof_undefined (u_volunteer_id req) then e_volunteerId e
                 else if loose_null (u_volunteer_id req) then None
                      else Some (Number (u_volunteer_id req)))
            ∧ e_updatedAt e' = int (clock w)
            ∧ e_id e' = e_id e ∧ e_elderlyId e' = e_elderlyId e
            ∧ e_latitude e' = e_latitude e ∧ e_longitude e' = e_longitude e
            ∧ e_createdAt e' = e_createdAt e ∧ e_acceptedAt e' = e_acceptedAt e)
       ∧ audit_logs out.2 = audit_logs w ++ [change_entry id req (int (clock w))]
       ∧ outbox out.2 = outbox w ∧ devices out.2 = devices w).
Proof.
  intros Hready Hvalid out key. subst out key. rewrite run_change by done. cbn zeta.
  destruct (initFirebase_same_data env w) as (Hc & Hem & Hd & Ha & _ & Ho & _).
  rewrite Hem, Hc. split.
  - intros ->. split; [done|]. by repeat split.
  - intros e He. rewrite He. cbn [fst snd]. split; [done|]. split_and!.
    + eexists. split; [simpl; rewrite Hem; by apply alter_lookup_insert|].
      simpl. split_and!; try done. by destruct (u_volunteer_id req).
    + simpl. by rewrite Ha.
    + done.
    + done.
Qed.

(** An accept of an open record. *)
Lemma run_accept env id req w e :
  firebase_ready env w → valid_accept id req →
  emergencies w !! accept_key id = Some e → e_status e = "active" →
  run (putEmergency env id req) w =
  let w1 := after_init env w in
  let key := accept_key id in
  let patch := accept_patch (u_volunteer_id req) (int (clock w1)) in
  let entry := accept_entry id req (int (clock w1)) in
  let e' := apply_patch patch e in
  let w2 :=
    add_call (CallDeviceGet ("elderly_" +:+ String (JNum (e_elderlyId e))))
      (add_call (CallGet key)
         (add_call (CallAuditAdd entry)
            (add_audit entry
               (add_call (CallTransaction (inr [TxUpdate key patch]))
                  (set_emergencies (alter (apply_patch patch) key) w1))))) in
  let token := reporter_token e w1 in
  let push := accepted_message id req token in
  if truthy token then
    match messaging w1 with
    | Some err => (inr (error_response err), add_call (CallSend push) w2)
    | None => (inr ok, add_call (CallSend push) (add_outbox push w2))
    end
  else (inr ok, w2).
Proof.
  intros Hready (Hid & Hst & Hv) He Hact. unfold putEmergency.
  rewrite run_try_catch, run_bind, run_perform, run_init_ready by done.
  rewrite Hid, Hst, Hv. change (truthy (JStr "accepted")) with true. cbn [negb].
  destruct (initFirebase_same_data env w) as (_ & Hem & _).
  rewrite <- Hem in He. revert He. generalize (after_init env w). intros w1 He.
  cbn zeta. change (String (JStr "accepted") =? "accepted")%string with true. cbn match.
  unfold accept_entry, reporter_token, accepted_message, accept_key in *.
  cbn -[String Number truthy]. unfold acceptTransaction.
  rewrite He. cbn -[String Number truthy]. rewrite Hact.
  cbn -[String Number truthy]. rewrite lookup_alter_eq, He.
  cbn -[String Number truthy].
  destruct (device_lookup _ (devices w1)) as [d|]; cbn -[String Number truthy].
  - destruct (truthy (d_fcmToken d)); cbn -[String Number truthy]; [|done].
    unfold send_to_messaging. cbn -[String Number truthy].
    destruct (messaging w1); reflexivity.
  - reflexivity.
Qed.

(** X8.  An accept of an open record stores status ['accepted'], the
    volunteer and the time, keeping the other fields, and adds one
    ['accepted'] audit entry.  The reporter is then sent one push, to
    the token of the device registered as [elderly_<elderlyId>], if there
    is one: without a token the answer is 200 and nothing is sent; if
    messaging rejects the push the answer is 500, after the acceptance
    was stored. *)
Theorem accept_records_and_notifies env id req w e :
  firebase_ready env w → valid_accept id req →
  emergencies w !! accept_key id = Some e → e_status e = "active" →
  let out := run (putEmergency env id req) w in
  let token := reporter_token e w in
  let push := accepted_message id req token in
  (∃ e', emergencies out.2 = <[accept_key id := e']> (emergencies w)
     ∧ e_status e' = "accepted"
     ∧ e_volunteerId e' = Some (Number (u_volunteer_id req))
     ∧ e_acceptedAt e' = Some (int (clock w)) ∧ e_updatedAt e' = int (clock w)
     ∧ e_id e' = e_id e ∧ e_elderlyId e' = e_elderlyId e
     ∧ e_latitude e' = e_latitude e ∧ e_longitude e' = e_longitude e
     ∧ e_createdAt e' = e_createdAt e)
  ∧ audit_logs out.2 = audit_logs w ++ [accept_entry id req (int (clock w))]
  ∧ devices out.2 = devices w
  ∧ (truthy token = false → out.1 = inr ok ∧ outbox out.2 = outbox w)
  ∧ (truthy token = true → messaging w = None →
       out.1 = inr ok ∧ outbox out.2 = outbox w ++ [push])
  ∧ (∀ err, truthy token = true → messaging w = Some err →
       out.1 = inr (error_response err) ∧ outbox out.2 = outbox w).
Proof.
  intros Hready Hvalid He Hact out token push. subst out token push.
  rewrite (run_accept env id req w e) by done. cbn zeta.
  destruct (initFirebase_same_data env w) as (Hc & Hem & Hd & Ha & Hm & Ho & _).
  assert (reporter_token e (after_init env w) = reporter_token e w) as ->.
  { unfold reporter_token. by rewrite Hd. }
  rewrite Hc, Hm.
  assert (alter (apply_patch (accept_patch (u_volunteer_id req) (int (clock w))))
            (accept_key id) (emergencies (after_init env w))
          = <[accept_key id :=
                apply_patch (accept_patch (u_volunteer_id req) (int (clock w))) e]>
              (emergencies w)) as Halter.
  { rewrite Hem. by apply alter_lookup_insert. }
  split_and!.
  - exists (apply_patch (accept_patch (u_volunteer_id req) (int (clock w))) e).
    split; [|by split_and!].
    destruct (truthy (reporter_token e w)); [destruct (messaging w)|]; simpl; exact Halter.
  - destruct (truthy (reporter_token e w)); [destruct (messaging w)|]; simpl; by rewrite Ha.
  - destruct (truthy (reporter_token e w)); [destruct (messaging w)|]; simpl; done.
  - intros ->. simpl. done.
  - intros -> ->. simpl. by rewrite Ho.
  - intros err -> ->. simpl. done.
Qed.

End put_effects.

(** ** Who a report notifies *)

Section notified.
Context `{Runtime} `{StringMethods} `{Firestore}.

Lemma strict_eq_true a : strict_eq a (JBool true) = true ↔ a = JBool true.
Proof.
  unfold strict_eq. destruct a as [| |b|[|q]|s]; simpl; try (split; done).
  all: rewrite bool_decide_eq_true; done.
Qed.

Lemma report_top_retained req w v :
  v ∈ report_top req w →
  ∃ name d, (name, d) ∈ devices w
    ∧ v = entry_of (r_latitude req) (r_longitude req) d
    ∧ d_role d = JStr "volunteer" ∧ d_isAvailable d = JBool true
    ∧ retained (int (clock w)) d.
Proof.
  unfold report_top, selectVolunteers. intros Hv.
  apply elem_of_take in Hv as (i & Hv & _). apply list_elem_of_lookup_2 in Hv.
  rewrite Array_sort_perm, collectVolunteers_spec in Hv.
  apply list_elem_of_fmap in Hv as (d & -> & Hd).
  apply list_elem_of_filter in Hd as [Hret Hd].
  apply elem_of_take in Hd as (j & Hd & _). apply list_elem_of_lookup_2 in Hd.
  apply list_elem_of_filter in Hd as [Hav Hd].
  apply list_elem_of_fmap in Hd as ([name d'] & -> & Hd).
  apply andb_true_iff in Hav as [Hrole Havail].
  apply strict_eq_str in Hrole. apply strict_eq_true in Havail.
  by exists name, d'.
Qed.

Lemma report_tokens_top req w : report_tokens req w = fcmToken <$> report_top req w.
Proof.
  unfold report_tokens.
  assert (Forall (λ v, truthy (fcmToken v) = true) (report_top req w)) as Hall.
  { apply Forall_forall. intros v Hv.
    apply report_top_retained in Hv as (name & d & _ & -> & _ & _ & Htok & _). done. }
  induction Hall as [|v vs Hv _ IH]; [done|].
  rewrite fmap_cons, filter_cons, decide_True by done. by rewrite IH.
Qed.

(** X9.  A report notifies at most ten devices, one for each volunteer
    it selected, and each of them is a stored device with role
    ['volunteer'], marked available, with a push token and a heartbeat
    not more than ten minutes old; the report does not write to the
    devices. *)
Theorem report_notifies_fresh_volunteers env req w :
  firebase_ready env w → passes_validation req →
  let out := run (postEmergencies env req) w in
  let tokens := report_tokens req w in
  (length tokens ≤ 10)%nat
  ∧ tokens = fcmToken <$> report_top req w
  ∧ (∀ t, t ∈ tokens →
       ∃ name d, (name, d) ∈ devices w ∧ d_fcmToken d = t ∧ truthy t = true
         ∧ d_role d = JStr "volunteer" ∧ d_isAvailable d = JBool true
         ∧ ¬ older_than 600000 (int (clock w)) d)
  ∧ (messaging w = None → tokens ≠ [] →
       outbox out.2 = outbox w ++ [report_message req w])
  ∧ (tokens = [] ∨ messaging w ≠ None → outbox out.2 = outbox w)
  ∧ devices out.2 = devices w.
Proof.
  intros Hready Hvalid out tokens. subst out tokens.
  rewrite run_report_init by done. cbn zeta.
  pose proof (initFirebase_same_data env w) as Hsame.
  destruct (same_data_report req _ _ Hsame) as (_ & _ & _ & _ & -> & -> & _).
  destruct Hsame as (_ & _ & Hd & _ & Hm & Ho & _). rewrite Hm.
  split_and!.
  - rewrite report_tokens_top, length_fmap. unfold report_top, selectVolunteers.
    rewrite length_take. lia.
  - apply report_tokens_top.
  - intros t Ht. rewrite report_tokens_top in Ht.
    apply list_elem_of_fmap in Ht as (v & -> & Hv).
    apply report_top_retained in Hv as (name & d & Hin & -> & Hrole & Hav & Htok & Hfresh).
    by exists name, d.
  - intros -> Hne. rewrite bool_decide_true; [|by destruct (report_tokens req w)].
    simpl. by rewrite Ho.
  - intros [Hnil|Hdown].
    + rewrite Hnil. simpl. done.
    + case_bool_decide; [|done]. destruct (messaging w); [done|]. by destruct Hdown.
  - case_bool_decide; [destruct (messaging w)|]; done.
Qed.

End notified.

(** ** The device directory *)

Section directory.
Context `{Runtime} `{StringMethods} `{Firestore}.

Lemma device_lookup_update key key' f ds :
  device_lookup key' (device_update key f ds)
  = if String.eqb key key' then f <$> device_lookup key' ds else device_lookup key' ds.
Proof.
  induction ds as [|[k d] ds IH]; simpl; [by destruct (String.eqb key key')|].
  destruct (String.eqb k key) eqn:Hk; simpl.
  - apply String.eqb_eq in Hk as ->. by destruct (String.eqb key key').
  - rewrite IH. destruct (String.eqb k key') eqn:Hk'; [|done].
    apply String.eqb_eq in Hk' as ->. by rewrite String.eqb_sym, Hk.
Qed.

Lemma device_lookup_create key key' d ds :
  device_lookup key ds = None →
  device_lookup key' (device_create key d ds)
  = if String.eqb key key' then Some d else device_lookup key' ds.
Proof.
  induction ds as [|[k d0] ds IH]; simpl; [done|].
  destruct (String.eqb k key) eqn:Hk; [done|]. intros Hnone.
  destruct (String.ltb key k); simpl; [done|].
  rewrite IH by done. destruct (String.eqb k key') eqn:Hk'; [|done].
  apply String.eqb_eq in Hk' as ->. by rewrite String.eqb_sym, Hk.
Qed.

(** A document written and read back: the patch merged into what was
    stored; the other documents as they were. *)
Lemma device_lookup_set_merge key key' patch ds :
  device_lookup key' (device_set_merge key patch ds)
  = if String.eqb key key'
    then Some (merge_device patch (default blank_device (device_lookup key ds)))
    else device_lookup key' ds.
Proof.
  unfold device_set_merge. destruct (device_lookup key ds) as [d|] eqn:Hd.
  - rewrite device_lookup_update. destruct (String.eqb key key') eqn:Hk; [|done].
    apply String.eqb_eq in Hk as <-. by rewrite Hd.
  - by rewrite device_lookup_create.
Qed.

Lemma device_lookup_elem key d ds : device_lookup key ds = Some d → (key, d) ∈ ds.
Proof.
  induction ds as [|[k d0] ds IH]; simpl; [done|].
  destruct (String.eqb k key) eqn:Hk.
  - apply String.eqb_eq in Hk as ->. intros [= ->]. apply list_elem_of_here.
  - intros Hd. apply list_elem_of_further. by apply IH.
Qed.

Lemma device_update_length key f ds : length (device_update key f ds) = length ds.
Proof.
  induction ds as [|[k d] ds IH]; simpl; [done|].
  destruct (String.eqb k key); simpl; by rewrite ?IH.
Qed.

Lemma device_create_length key d ds : length (device_create key d ds) = S (length ds).
Proof.
  induction ds as [|[k d0] ds IH]; simpl; [done|].
  destruct (String.ltb key k); simpl; by rewrite ?IH.
Qed.

Lemma run_register_valid env req id w :
  firebase_ready env w → valid_register req → doc (register_name req) = Document id →
  devicesRegister env req w =
  (inr ok,
   set_devices (device_set_merge id (register_patch req (int (clock w))))
     (after_init env w)).
Proof.
  intros Hready (Hu & Hr & Ht) Hdoc. rewrite run_register.
  pose proof (initFirebase_same_data env w) as (Hc & _).
  unfold firebase_ready, after_init in *.
  destruct (initFirebase env w) as [[e|[]] w1]; [done|]. simpl in Hc.
  rewrite Hu, Hr, Ht, Hc. simpl. unfold device_written.
  unfold register_name in Hdoc. by rewrite Hdoc.
Qed.

(** X10.  A registration in which [user_id], [role] or [fcm_token] is
    missing or falsy (the number 0, the empty string) is answered 400
    and writes nothing.  Otherwise the answer depends on what Firestore
    makes of the name [<role>_<user_id>].  When it is the id of a
    document of the collection, the answer is 200 and the document holds
    exactly the fields of the request, coerced, with the heartbeat at the
    time of the call, whatever it held before; the other devices, the
    emergencies, the audit log and the messages are as they were.  When
    the name is refused, as a name with a [/] in it that is no path to a
    document is, the answer is 500 with the error and nothing is
    written.  When it is a path to a document further down, the answer
    is 200 and the collection is as it was. *)
Theorem register_stores_device env req w :
  firebase_ready env w →
  let out := devicesRegister env req w in
  let name := register_name req in
  (truthy (g_user_id req) = false ∨ truthy (g_role req) = false
   ∨ truthy (g_fcm_token req) = false →
     out.1 = inr (respond 400 (BodyError "user_id, role, fcm_token are required"))
     ∧ same_records w out.2)
  ∧ (valid_register req →
       (∀ id, doc name = Document id →
          out.1 = inr ok
          ∧ device_lookup id (devices out.2)
            = Some (registered_device req (int (clock w)))
          ∧ (∀ other, other ≠ id →
               device_lookup other (devices out.2) = device_lookup other (devices w))
          ∧ length (devices out.2)
            = match device_lookup id (devices w) with
              | Some _ => length (devices w)
              | None => S (length (devices w))
              end
          ∧ emergencies out.2 = emergencies w ∧ audit_logs out.2 = audit_logs w
          ∧ outbox out.2 = outbox w)
       ∧ (∀ e, doc name = Refused e →
            out.1 = inr (error_response e) ∧ same_records w out.2)
       ∧ (doc name = Nested → out.1 = inr ok ∧ same_records w out.2)).
Proof.
  intros Hready out name. subst out name. split.
  - intros Hbad. rewrite run_register.
    pose proof (same_records_init env w) as Hsame. unfold firebase_ready in Hready.
    destruct (initFirebase env w) as [[e|[]] w1]; [done|]. simpl in Hsame.
    assert (negb (truthy (g_user_id req)) || negb (truthy (g_role req))
            || negb (truthy (g_fcm_token req)) = true) as ->; [|done].
    destruct Hbad as [-> | [-> | ->]]; simpl; by rewrite ?orb_true_r.
  - intros Hvalid. split; [|split].
    + intros id Hdoc. rewrite (run_register_valid env req id) by done.
      destruct (initFirebase_same_data env w) as (_ & Hem & Hd & Ha & _ & Ho & _).
      cbn [fst snd]. simpl. rewrite Hd. split_and!; try done.
      * rewrite device_lookup_set_merge, String.eqb_refl.
        by destruct (device_lookup _ _).
      * intros other Hne. rewrite device_lookup_set_merge.
        apply not_eq_sym, String.eqb_neq in Hne. by rewrite Hne.
      * unfold device_set_merge. destruct (device_lookup _ _).
        -- apply device_update_length.
        -- apply device_create_length.
    + intros e Hdoc. rewrite run_register.
      pose proof (same_records_init env w) as Hsame. unfold firebase_ready in Hready.
      destruct (initFirebase env w) as [[e0|[]] w1]; [done|]. simpl in Hsame.
      destruct Hvalid as (-> & -> & ->). simpl. unfold device_written.
      unfold register_name in Hdoc. by rewrite Hdoc.
    + intros Hdoc. rewrite run_register.
      pose proof (same_records_init env w) as Hsame. unfold firebase_ready in Hready.
      destruct (initFirebase env w) as [[e0|[]] w1]; [done|]. simpl in Hsame.
      destruct Hvalid as (-> & -> & ->). simpl. unfold device_written.
      unfold register_name in Hdoc. by rewrite Hdoc.
Qed.

(** X11.  A heartbeat without a truthy [volunteer_id] is answered 400
    and writes nothing.  Otherwise the answer depends on what Firestore
    makes of the name [volunteer_<volunteer_id>].  When it is the id of a
    document of the collection, the answer is 200 and the document,
    created if it was not there, has role ['volunteer'], the availability
    and the time of this call; its location is replaced only by numbers
    and its token only by a string that is not blank, trimmed; what the
    body leaves out stays as stored; a body without [is_available] marks
    the volunteer unavailable.  When the name is refused, as a name with
    a [/] in it that is no path to a document is, the answer is 500 with
    the error and nothing is written. *)
Theorem availability_merges_heartbeat env req w :
  firebase_ready env w →
  let out := volunteersAvailability env req w in
  let name := availability_name req in
  (truthy (v_volunteer_id req) = false →
     out.1 = inr (respond 400 (BodyError "volunteer_id is required"))
     ∧ same_records w out.2)
  ∧ (truthy (v_volunteer_id req) = true →
       (∀ id, doc name = Document id →
          let old := default blank_device (device_lookup id (devices w)) in
          out.1 = inr ok
          ∧ (∃ d, device_lookup id (devices out.2) = Some d
               ∧ d_userId d = JNum (Number (v_volunteer_id req))
               ∧ d_role d = JStr "volunteer"
               ∧ d_isAvailable d = JBool (truthy (v_is_available req))
               ∧ d_lastSeenAt d = JNum (int (clock w))
               ∧ d_latitude d = (if typeof_number (v_latitude req)
                                 then v_latitude req else d_latitude old)
               ∧ d_longitude d = (if typeof_number (v_longitude req)
                                  then v_longitude req else d_longitude old)
               ∧ d_fcmToken d = match trimmed_token (v_fcm_token req) with
                                | Some token => JStr token
                                | None => d_fcmToken old
                                end)
          ∧ (∀ other, other ≠ id →
               device_lookup other (devices out.2) = device_lookup other (devices w))
          ∧ emergencies out.2 = emergencies w ∧ audit_logs out.2 = audit_logs w
          ∧ outbox out.2 = outbox w)
       ∧ (∀ e, doc name = Refused e →
            out.1 = inr (error_response e) ∧ same_records w out.2)
       ∧ (doc name = Nested → out.1 = inr ok ∧ same_records w out.2)).
Proof.
  intros Hready out name. subst out name. rewrite run_availability.
  pose proof (initFirebase_same_data env w) as (Hc & Hem & Hd & Ha & _ & Ho & _).
  pose proof (same_records_init env w) as Hsame.
  unfold firebase_ready, after_init, availability_name in *.
  destruct (initFirebase env w) as [[e|[]] w1]; [done|]. simpl in *. split.
  - intros ->. done.
  - intros ->. simpl. unfold device_written. split; [|split].
    + intros id ->. simpl. rewrite Hd, Hc. split_and!; try done.
      * eexists. split.
        { rewrite device_lookup_set_merge. by rewrite String.eqb_refl. }
        simpl. split_and!; try done.
        -- by destruct (typeof_number (v_latitude req)).
        -- by destruct (typeof_number (v_longitude req)).
        -- by destruct (trimmed_token (v_fcm_token req)).
      * intros other Hne. rewrite device_lookup_set_merge.
        apply not_eq_sym, String.eqb_neq in Hne. by rewrite Hne.
    + by intros e0 ->.
    + by intros ->.
Qed.

Lemma fresh_heartbeat (seen now : Z) d :
  d_lastSeenAt d = JNum (int seen) → (now ≤ seen + 600000)%Z →
  ¬ older_than 600000 (int now) d.
Proof.
  intros Hseen Hle (n & t & [= <-] & Ht & Hlt). unfold last_seen in Ht.
  rewrite Hseen in Ht. injection Ht as <-.
  rewrite <- Z2Qc_inj_sub in Hlt. apply Z2Qc_inj_lt in Hlt. lia.
Qed.

(** With at most ten available volunteers, each of them that has a token
    and a fresh heartbeat is selected. *)
Lemma report_tokens_all req w name d :
  (length (filter (λ d, is_available_volunteer d = true) (snd <$> devices w)) ≤ 10)%nat →
  (name, d) ∈ devices w → is_available_volunteer d = true →
  retained (int (clock w)) d →
  d_fcmToken d ∈ report_tokens req w.
Proof.
  intros Hlen Hin Hav Hret. rewrite report_tokens_top.
  apply list_elem_of_fmap. exists (entry_of (r_latitude req) (r_longitude req) d).
  split; [done|]. unfold report_top, selectVolunteers.
  rewrite (take_ge (filter _ _)) by lia.
  assert (length (Array_sort compareVolunteers
                    (collectVolunteers (int (clock w)) (r_latitude req) (r_longitude req)
                       (filter (λ d, is_available_volunteer d = true)
                          (snd <$> devices w)))) ≤ 10)%nat as Hsorted.
  { rewrite Array_sort_perm, collectVolunteers_spec, length_fmap.
    etrans; [apply length_filter|done]. }
  rewrite take_ge by done. rewrite Array_sort_perm, collectVolunteers_spec.
  apply list_elem_of_fmap. exists d. split; [done|].
  apply list_elem_of_filter. split; [done|].
  apply list_elem_of_filter. split; [done|].
  apply list_elem_of_fmap. by exists (name, d).
Qed.

(** X12.  A volunteer who registers as available with a push token,
    under a name that Firestore takes for a document of the collection,
    is notified of a report made within the next ten minutes, as long as
    at most ten volunteers are available: the push of the report goes to
    the registered token. *)
Theorem registered_volunteer_is_notified env reg token id req w w' :
  firebase_ready env w → g_fcm_token reg = JStr token → valid_register reg →
  doc (register_name reg) = Document id →
  String (g_role reg) = "volunteer" → truthy (g_is_available reg) = true →
  devices w' = devices (devicesRegister env reg w).2 →
  (clock w' ≤ clock w + 600000)%Z →
  (length (filter (λ d, is_available_volunteer d = true) (snd <$> devices w')) ≤ 10)%nat →
  firebase_ready env w' → passes_validation req → messaging w' = None →
  let out := run (postEmergencies env req) w' in
  ∃ msg, outbox out.2 = outbox w' ++ [msg] ∧ JStr token ∈ m_tokens msg.
Proof.
  intros Hready Htoken Hvalid Hdoc Hrole Hav Hdev Hclock Hlen Hready' Hreq Hmsg out.
  subst out.
  assert (JStr token ∈ report_tokens req w') as Hin.
  { assert (device_lookup id (devices w')
            = Some (registered_device reg (int (clock w)))) as Hd.
    { rewrite Hdev, (run_register_valid env reg id) by done. simpl.
      rewrite device_lookup_set_merge, String.eqb_refl.
      by destruct (device_lookup _ _). }
    apply device_lookup_elem in Hd.
    replace (JStr token) with (d_fcmToken (registered_device reg (int (clock w))))
      by (simpl; rewrite Htoken; done).
    eapply report_tokens_all; [done|exact Hd| |].
    - unfold is_available_volunteer. simpl. rewrite Hrole, Hav. done.
    - split.
      + simpl. destruct Hvalid as (_ & _ & Ht). by rewrite Htoken in Ht |- *.
      + by eapply fresh_heartbeat. }
  exists (report_message req w'). split; [|done].
  rewrite run_report_init by done. cbn zeta.
  pose proof (initFirebase_same_data env w') as Hsame.
  destruct (same_data_report req _ _ Hsame) as (_ & _ & _ & _ & -> & -> & _).
  destruct Hsame as (_ & _ & _ & _ & Hm & Ho & _). rewrite Hm, Hmsg.
  rewrite bool_decide_true.
  - simpl. by rewrite Ho.
  - destruct (report_tokens req w'); [by apply elem_of_nil in Hin|done].
Qed.

(** X13.  A reporter whose device is registered with role ['elderly']
    under the id of the emergency is sent the push of the accept, to the
    registered token.  The name [elderly_<id>], a number after the
    underscore, is the id of a document of the collection. *)
Theorem registered_reporter_is_notified env reg token id req w e :
  firebase_ready env w → g_fcm_token reg = JStr token → valid_register reg →
  names_document (register_name reg) →
  String (g_role reg) = "elderly" →
  String (g_user_id reg) = String (JNum (e_elderlyId e)) →
  valid_accept id req →
  emergencies w !! accept_key id = Some e → e_status e = "active" →
  messaging w = None →
  let out := run (putEmergency env id req) (devicesRegister env reg w).2 in
  out.1 = inr ok
  ∧ outbox out.2 = outbox w ++ [accepted_message id req (JStr token)].
Proof.
  intros Hready Htoken Hvalid Hdoc Hrole Huser Hacc He Hact Hmsg out. subst out.
  rewrite (run_register_valid env reg (register_name reg)) by done. cbn [snd].
  set (w1 := set_devices _ (after_init env w)).
  destruct (initFirebase_same_data env w) as (Hc & Hem & Hd & Ha & Hm & Ho & _).
  assert (firebase_ready env w1) as Hready1.
  { apply (ready_mono env (after_init env w)); [done|]. by apply ready_after_init. }
  assert (emergencies w1 !! accept_key id = Some e) as He1 by (simpl; by rewrite Hem).
  rewrite (run_accept env id req w1 e) by done. cbn zeta.
  assert (reporter_token e (after_init env w1) = JStr token) as ->.
  { unfold reporter_token.
    destruct (initFirebase_same_data env w1) as (_ & _ & -> & _).
    simpl. rewrite device_lookup_set_merge. unfold register_name.
    rewrite Hrole, Huser, String.eqb_refl. simpl. by rewrite Htoken. }
  assert (truthy (JStr token) = true) as ->.
  { destruct Hvalid as (_ & _ & Ht). by rewrite Htoken in Ht. }
  destruct (initFirebase_same_data env w1) as (_ & _ & _ & _ & -> & Ho1 & _).
  simpl. rewrite Hm, Hmsg. simpl. split; [done|]. by rewrite Ho1; simpl; rewrite Ho.
Qed.

End directory.

(** ** The list of emergencies *)

Section listing.
Context `{Runtime} `{StringMethods} `{Firestore}.

Lemma emergencies_where_elem P (m : gmap string EmergencyDoc) e :
  e ∈ emergencies_where P m → ∃ k, m !! k = Some e ∧ P e = true.
Proof.
  unfold emergencies_where. intros He.
  apply list_elem_of_fmap in He as ([k e'] & -> & He).
  apply elem_of_take in He as (i & He & _). apply list_elem_of_lookup_2 in He.
  rewrite Array_sort_perm in He. apply list_elem_of_filter in He as [HP He].
  apply elem_of_map_to_list in He. by exists k.
Qed.

Lemma emergencies_where_all P (m : gmap string EmergencyDoc) k e :
  (length (matching P m) ≤ 200)%nat → m !! k = Some e → P e = true →
  e ∈ emergencies_where P m.
Proof.
  unfold emergencies_where, matching. intros Hlen Hk HP.
  rewrite take_ge by by rewrite Array_sort_perm.
  apply list_elem_of_fmap. exists (k, e). split; [done|].
  rewrite Array_sort_perm. apply list_elem_of_filter. split; [done|].
  by apply elem_of_map_to_list.
Qed.

Lemma emergencies_where_length P (m : gmap string EmergencyDoc) :
  (length (emergencies_where P m) ≤ 200)%nat.
Proof. unfold emergencies_where. rewrite length_fmap, length_take. lia. Qed.

Lemma listed_for_elem q (m : gmap string EmergencyDoc) e :
  e ∈ listed_for q m →
  ∃ k, m !! k = Some e
    ∧ (is_open e = true
       ∨ names_volunteer q = true ∧ accepted_by_volunteer (Number q) e = true).
Proof.
  unfold listed_for. fold (names_volunteer q). intros He.
  apply elem_of_app in He as [He|He].
  - apply emergencies_where_elem in He as (k & Hk & HP). exists k. auto.
  - destruct (names_volunteer q) eqn:Hq; [|by apply elem_of_nil in He].
    apply emergencies_where_elem in He as (k & Hk & HP). exists k. auto.
Qed.

(** X14.  The read route changes nothing and lists at most 400 records,
    each of them stored: the open ones, then, for a caller whose
    [volunteer_id] reads as a number other than 0, the ones accepted by
    that volunteer.  A caller without such an id (none, the empty
    string, ["0"], not a number) is listed open records only.  Every open
    record is listed when at most 200 are, and every record accepted by
    the caller when at most 200 are. *)
Theorem active_lists_open_and_own env q w :
  firebase_ready env w →
  ∃ records,
    (emergenciesActive env q w).1 = inr (Listed (activeItem <$> records))
    ∧ same_records w (emergenciesActive env q w).2
    ∧ (length records ≤ 400)%nat
    ∧ (∀ e, e ∈ records →
         ∃ k, emergencies w !! k = Some e
           ∧ (e_status e = "active"
              ∨ names_volunteer q = true ∧ e_status e = "accepted"
                ∧ e_volunteerId e = Some (Number q)))
    ∧ (names_volunteer q = false → ∀ e, e ∈ records → e_status e = "active")
    ∧ ((length (matching is_open (emergencies w)) ≤ 200)%nat →
       ∀ k e, emergencies w !! k = Some e → e_status e = "active" → e ∈ records)
    ∧ ((length (matching (accepted_by_volunteer (Number q)) (emergencies w)) ≤ 200)%nat →
       names_volunteer q = true →
       ∀ k e, emergencies w !! k = Some e → e_status e = "accepted" →
              e_volunteerId e = Some (Number q) → e ∈ records).
Proof.
  intros Hready. rewrite run_active.
  pose proof (same_records_init env w) as Hsame.
  destruct (initFirebase_same_data env w) as (_ & Hem & _).
  unfold firebase_ready, after_init in *.
  destruct (initFirebase env w) as [[e|[]] w1]; [done|]. simpl in Hsame, Hem.
  exists (listed_for q (emergencies w1)). rewrite Hem. cbn [fst snd].
  assert (∀ e, e ∈ listed_for q (emergencies w) →
            ∃ k, emergencies w !! k = Some e
              ∧ (e_status e = "active"
                 ∨ names_volunteer q = true ∧ e_status e = "accepted"
                   ∧ e_volunteerId e = Some (Number q))) as Hsound.
  { intros e He. apply listed_for_elem in He as (k & Hk & [Ho|[Hq Ha]]).
    - exists k. split; [done|]. left. by apply String.eqb_eq.
    - exists k. split; [done|]. right. apply andb_true_iff in Ha as [Hs Hv].
      apply String.eqb_eq in Hs. by apply bool_decide_eq_true in Hv. }
  split_and!; try done.
  - unfold listed_for. rewrite length_app.
    pose proof (emergencies_where_length (λ e, String.eqb (e_status e) "active")
                  (emergencies w)).
    destruct (_ && _); simpl; [|lia].
    pose proof (emergencies_where_length
                  (λ e, String.eqb (e_status e) "accepted"
                        && bool_decide (e_volunteerId e = Some (Number q)))
                  (emergencies w)). lia.
  - intros Hq e He. apply Hsound in He as (k & _ & [?|[? _]]); [done|congruence].
  - intros Hlen k e Hk Hs. unfold listed_for. apply elem_of_app. left.
    eapply emergencies_where_all; [exact Hlen|exact Hk|]. by apply String.eqb_eq.
  - intros Hlen Hq k e Hk Hs Hv. unfold listed_for. apply elem_of_app. right.
    fold (names_volunteer q). rewrite Hq.
    eapply (emergencies_where_all (accepted_by_volunteer (Number q))); [exact Hlen|exact Hk|].
    unfold accepted_by_volunteer. apply andb_true_iff. split.
    + by apply String.eqb_eq.
    + by apply bool_decide_eq_true.
Qed.

End listing.

(** ** Validation *)

Section validation_more.
Context `{Runtime} `{StringMethods} `{Firestore}.

(** X16.  A report is answered 400 exactly when [elderly_id] is missing
    or falsy, or [latitude] or [longitude] is not a number (a numeric
    string is not one); it then writes nothing. *)
Theorem report_validation env req w :
  firebase_ready env w →
  let out := run (postEmergencies env req) w in
  (out.1 = inr (respond 400 (BodyError "elderly_id, latitude, longitude are required"))
   ↔ ¬ passes_validation req)
  ∧ (¬ passes_validation req → same_data w out.2).
Proof.
  intros Hready out. subst out.
  pose proof (initFirebase_same_data env w) as Hsame.
  assert (¬ passes_validation req →
          run (postEmergencies env req) w
          = (inr (respond 400 (BodyError "elderly_id, latitude, longitude are required")),
             after_init env w)) as Hbad.
  { intros Hnot. unfold postEmergencies.
    rewrite run_try_catch, run_bind, run_perform, run_init_ready by done.
    assert (negb (truthy (r_elderly_id req)) || negb (typeof_number (r_latitude req))
            || negb (typeof_number (r_longitude req)) = true) as ->; [|done].
    unfold passes_validation in Hnot.
    destruct (truthy (r_elderly_id req)), (typeof_number (r_latitude req)),
      (typeof_number (r_longitude req)); try done. by destruct Hnot. }
  split; [split|].
  - intros Hout Hvalid. rewrite run_report_init in Hout by done. cbn zeta in Hout.
    case_bool_decide; [destruct (messaging _)|]; simpl in Hout; done.
  - intros Hnot. by rewrite Hbad.
  - intros Hnot. by rewrite Hbad.
Qed.

(** X17.  A [PUT] is answered 400 in this order: when the id in the URL
    does not read as a number other than 0; when the body has no truthy
    [status]; when the status is ['accepted'] and the body has no truthy
    [volunteer_id].  Each of them writes nothing. *)
Theorem put_validation env id req w :
  firebase_ready env w →
  let out := run (putEmergency env id req) w in
  let refused msg := out.1 = inr (respond 400 (BodyError msg)) ∧ same_data w out.2 in
  (truthy (JNum (Number (JStr id))) = false → refused "Invalid emergency id")
  ∧ (truthy (JNum (Number (JStr id))) = true → truthy (u_status req) = false →
       refused "status is required")
  ∧ (truthy (JNum (Number (JStr id))) = true → truthy (u_status req) = true →
       String (u_status req) = "accepted" → truthy (u_volunteer_id req) = false →
       refused "volunteer_id is required for accepted").
Proof.
  intros Hready out refused. subst out refused. cbn beta.
  pose proof (initFirebase_same_data env w) as Hsame.
  unfold putEmergency.
  rewrite run_try_catch, run_bind, run_perform, run_init_ready by done.
  split_and!.
  - intros ->. done.
  - intros -> ->. done.
  - intros -> -> Hs ->. apply String.eqb_eq in Hs. rewrite Hs. done.
Qed.

End validation_more.

(** ** The audit log and the messages sent *)

Section appends.
Context `{Runtime} `{StringMethods} `{Firestore}.

Lemma appended_refl w : appended w w.
Proof. split; exists []; by rewrite app_nil_r. Qed.

Lemma appended_trans w1 w2 w3 : appended w1 w2 → appended w2 w3 → appended w1 w3.
Proof.
  intros [[a1 Ha1] [s1 Hs1]] [[a2 Ha2] [s2 Hs2]]. split.
  - exists (a1 ++ a2). by rewrite Ha2, Ha1, app_assoc.
  - exists (s1 ++ s2). by rewrite Hs2, Hs1, app_assoc.
Qed.

Lemma appended_same w w' :
  audit_logs w' = audit_logs w → outbox w' = outbox w → appended w w'.
Proof. intros Ha Ho. split; exists []; by rewrite app_nil_r. Qed.

Lemma exec_appended {X} (op : Op X) w : appended w (exec op w).2.
Proof.
  destruct op; simpl; unfold send_to_messaging; try (by apply appended_same).
  - destruct (initFirebase_same_data env w) as (_ & _ & _ & Ha & _ & Ho & _).
    by apply appended_same.
  - by case_match; apply appended_same.
  - by case_match; apply appended_same.
  - split; [by eexists|]. exists []. by rewrite app_nil_r.
  - case_match; [by apply appended_same|]. split; [|by eexists].
    exists []. by rewrite app_nil_r.
  - case_match; [by apply appended_same|]. split; [|by eexists].
    exists []. by rewrite app_nil_r.
  - by case_match; apply appended_same.
Qed.

Lemma run_appended {A} (p : Prog A) w : appended w (run p w).2.
Proof.
  revert w. induction p as [a|e|X op k IH]; intros w; [apply appended_refl..|].
  simpl. pose proof (exec_appended op w) as Hop.
  destruct (exec op w) as [r w']. eapply appended_trans; [exact Hop|apply IH].
Qed.

Lemma route_appended env r w : appended w (route env r w).2.
Proof.
  destruct (initFirebase_same_data env w) as (_ & _ & _ & Ha & _ & Ho & _).
  unfold after_init in *. destruct r as [|req|req|v|r].
  - apply appended_refl.
  - unfold route, mbind, handler_bind, mret, handler_ret. rewrite run_register.
    destruct (initFirebase env w) as [[e|[]] w1]; [by apply appended_same|].
    destruct (_ || _); [by apply appended_same|]. unfold device_written.
    destruct (doc _); by apply appended_same.
  - unfold route, mbind, handler_bind, mret, handler_ret. rewrite run_availability.
    destruct (initFirebase env w) as [[e|[]] w1]; [by apply appended_same|].
    destruct (negb _); [by apply appended_same|]. unfold device_written.
    destruct (doc _); by apply appended_same.
  - unfold route. rewrite run_active.
    destruct (initFirebase env w) as [[e|[]] w1]; by apply appended_same.
  - rewrite run_emergencies. pose proof (run_appended (handler env r) w) as Hrun.
    unfold serve. by destruct (run (handler env r) w) as [[e|r'] w'].
Qed.

(** X15.  Over any sequence of requests the audit log and the list of
    messages sent only grow: no route removes or rewrites an audit
    entry, the sweep included. *)
Theorem audit_log_only_grows env rs w :
  (∃ entries, audit_logs (route_all env rs w).2 = audit_logs w ++ entries)
  ∧ (∃ sent, outbox (route_all env rs w).2 = outbox w ++ sent).
Proof.
  change (appended w (route_all env rs w).2).
  revert w. induction rs as [|r rs IH]; intros w; [apply appended_refl|].
  simpl. pose proof (route_appended env r w) as Hr.
  destruct (route env r w) as [reply w1]. specialize (IH w1).
  destruct (route_all env rs w1) as [replies w2].
  eapply appended_trans; [exact Hr|exact IH].
Qed.

End appends.

(** ** From the accept to the list *)

Section listed_after.
Context `{Runtime} `{StringMethods} `{Firestore}.

Lemma accept_world env id req w e :
  firebase_ready env w → valid_accept id req →
  emergencies w !! accept_key id = Some e → e_status e = "active" →
  let w1 := (run (putEmergency env id req) w).2 in
  emergencies w1
  = <[accept_key id := apply_patch (accept_patch (u_volunteer_id req) (int (clock w))) e]>
      (emergencies w)
  ∧ firebase_ready env w1.
Proof.
  intros Hready Hvalid He Hact w1. subst w1.
  rewrite (run_accept env id req w e) by done. cbn zeta.
  destruct (initFirebase_same_data env w) as (Hc & Hem & _).
  assert (firebase_ready env (after_init env w)) as Hr1 by by apply ready_after_init.
  rewrite Hc. split.
  - destruct (truthy _); [destruct (messaging _)|]; simpl; rewrite Hem;
      by apply alter_lookup_insert.
  - destruct (truthy _); [destruct (messaging _)|];
      by apply (ready_mono env (after_init env w)).
Qed.

(** X18.  Once a volunteer has accepted an emergency, the read route
    lists it, with status ['accepted'] and the volunteer, for a caller
    whose [volunteer_id] reads as the number the accept stored (when at
    most 200 records are accepted by that volunteer), and does not list
    it for a caller who gives no id. *)
Theorem accepted_emergency_listed_for_volunteer env id req w e q :
  firebase_ready env w → valid_accept id req →
  emergencies w !! accept_key id = Some e → e_status e = "active" →
  let w1 := (run (putEmergency env id req) w).2 in
  names_volunteer q = true → Number q = Number (u_volunteer_id req) →
  (length (matching (accepted_by_volunteer (Number q)) (emergencies w1)) ≤ 200)%nat →
  ∃ e',
    emergencies w1 !! accept_key id = Some e'
    ∧ i_status (activeItem e') = "accepted"
    ∧ i_volunteer_id (activeItem e') = Some (Number (u_volunteer_id req))
    ∧ i_id (activeItem e') = e_id e
    ∧ (∃ items, (emergenciesActive env q w1).1 = inr (Listed items)
                ∧ activeItem e' ∈ items)
    ∧ (∃ items, (emergenciesActive env JUndefined w1).1 = inr (Listed items)
                ∧ activeItem e' ∉ items).
Proof.
  intros Hready Hvalid He Hact w1 Hq Hnum Hlen.
  destruct (accept_world env id req w e Hready Hvalid He Hact) as [Hem Hready1].
  fold w1 in Hem, Hready1.
  set (e' := apply_patch (accept_patch (u_volunteer_id req) (int (clock w))) e) in *.
  assert (emergencies w1 !! accept_key id = Some e') as He' by by rewrite Hem, lookup_insert_eq.
  assert (∀ q', (emergenciesActive env q' w1).1
                = inr (Listed (activeItem <$> listed_for q' (emergencies w1)))) as Hrun.
  { intros q'. rewrite run_active.
    destruct (initFirebase_same_data env w1) as (_ & Hem1 & _).
    unfold firebase_ready, after_init in *.
    destruct (initFirebase env w1) as [[err|[]] w2]; [done|]. simpl in *. by rewrite Hem1. }
  exists e'. split_and!; try done.
  - eexists. split; [apply Hrun|]. apply list_elem_of_fmap. exists e'. split; [done|].
    unfold listed_for. apply elem_of_app. right. fold (names_volunteer q). rewrite Hq.
    eapply (emergencies_where_all (accepted_by_volunteer (Number q))); [exact Hlen|exact He'|].
    unfold accepted_by_volunteer. simpl. rewrite Hnum. by rewrite bool_decide_true.
  - eexists. split; [apply Hrun|]. intros Hin.
    apply list_elem_of_fmap in Hin as (x & Hx & Hin).
    apply listed_for_elem in Hin as (k & _ & [Hopen|[Hn _]]); [|done].
    apply String.eqb_eq in Hopen.
    assert (i_status (activeItem x) = "active") as Hst by done.
    by rewrite <- Hx in Hst.
Qed.

End listed_after.

(** ** Records and their ids *)

Section keyed.
Context `{Runtime} `{StringMethods} `{Firestore}.

Lemma keyed_alter patch key (m : gmap string EmergencyDoc) :
  keyed m → keyed (alter (apply_patch patch) key m).
Proof.
  intros Hm k e. rewrite lookup_alter. case_decide; [|apply Hm].
  subst k. destruct (m !! key) as [e0|] eqn:He0; simpl; [|done].
  intros [= <-]. simpl. by apply Hm.
Qed.

Lemma keyed_quiet {X} (op : Op X) w : quiet_op op = true → keeps_keyed w (exec op w).2.
Proof. intros Hq Hw. by destruct (exec_untouched op w Hq) as (-> & _). Qed.

Lemma keyed_init env w : keeps_keyed w (exec (InitFirebase env) w).2.
Proof. intros Hw. simpl. unfold initFirebase. by repeat case_match. Qed.

Lemma keyed_set id doc w :
  e_id doc = id → keeps_keyed w (exec (EmergencySet (String (JNum id)) doc) w).2.
Proof.
  intros Hid Hw k e. simpl. rewrite lookup_insert.
  case_decide; [intros [= <-]; by rewrite Hid|apply Hw].
Qed.

Lemma keyed_update key patch w : keeps_keyed w (exec (EmergencyUpdate key patch) w).2.
Proof.
  intros Hw. simpl. destruct (emergencies w !! key); simpl; [|done].
  by apply keyed_alter.
Qed.

Lemma keyed_accept_tx key v w :
  keeps_keyed w (exec (RunTransaction (acceptTransaction key v)) w).2.
Proof.
  intros Hw. rewrite exec_accept_tx.
  destruct (emergencies w !! key) as [e|]; [|done].
  destruct (String.eqb (e_status e) "active"); [|done]. simpl.
  by apply keyed_alter.
Qed.

Lemma keyed_batch keys w : keeps_keyed w (exec (BatchCommit keys) w).2.
Proof.
  unfold keeps_keyed. simpl. generalize (emergencies w).
  induction keys as [|k keys IH]; intros m Hm; [done|].
  simpl. apply IH. intros k' e. rewrite lookup_delete. case_decide; [done|apply Hm].
Qed.

Ltac keyed_step :=
  apply Guarantees_do;
  [ intros ?; first [ by apply keyed_quiet | by apply keyed_init | by apply keyed_batch
                    | by apply keyed_update | by apply keyed_accept_tx
                    | by apply keyed_set ]
  | intros [?|?]; unfold_handler;
    try apply Guarantees_ret; try apply Guarantees_throw ].

Lemma keyed_report env req : Guarantees keeps_keyed (postEmergencies env req).
Proof.
  unfold postEmergencies. cbn [try_catch mbind prog_bind bind perform].
  keyed_step.
  destruct (_ || _); unfold_handler; [apply Guarantees_ret|].
  destruct (_ && _); unfold_handler; [|keyed_step].
  all: do 4 keyed_step.
  all: case_bool_decide; unfold_handler; [|apply Guarantees_ret].
  all: do 3 keyed_step.
Qed.

Lemma keyed_put env id req : Guarantees keeps_keyed (putEmergency env id req).
Proof.
  unfold putEmergency. cbn [try_catch mbind prog_bind bind perform].
  keyed_step.
  destruct (truthy (JNum _)); unfold_handler; [|apply Guarantees_ret].
  destruct (truthy (u_status req)); unfold_handler; [|apply Guarantees_ret].
  destruct (String.eqb (String (u_status req)) "accepted"); unfold_handler.
  - destruct (truthy (u_volunteer_id req)); unfold_handler; [|apply Guarantees_ret].
    apply Guarantees_do; [intros w; by apply keyed_accept_tx|].
    intros [e|[]]; unfold_handler.
    { unfold acceptCatch. repeat case_match; unfold_handler; apply Guarantees_ret. }
    do 3 keyed_step.
    case_match; unfold_handler; [|apply Guarantees_ret].
    keyed_step.
    case_match; unfold_handler; [|apply Guarantees_ret].
    keyed_step.
  - do 2 keyed_step.
    case_match; unfold_handler; [|apply Guarantees_ret].
    do 3 keyed_step.
Qed.

Lemma keyed_cleanup env token days : Guarantees keeps_keyed (adminCleanup env token days).
Proof.
  unfold adminCleanup. cbn [try_catch mbind prog_bind bind perform].
  keyed_step.
  destruct (_ || _); unfold_handler; [apply Guarantees_ret|].
  do 2 keyed_step.
  case_bool_decide; unfold_handler; [|apply Guarantees_ret].
  keyed_step.
Qed.

Lemma keyed_route env r w : keeps_keyed w (route env r w).2.
Proof.
  destruct (initFirebase_same_data env w) as (_ & Hem & _). unfold after_init in Hem.
  intros Hw. destruct r as [|req|req|v|r].
  - done.
  - unfold route, mbind, handler_bind, mret, handler_ret. rewrite run_register.
    destruct (initFirebase env w) as [[e|[]] w1]; simpl in *; [by rewrite Hem|].
    destruct (_ || _); simpl; [by rewrite Hem|]. unfold device_written.
    destruct (doc _); simpl; by rewrite Hem.
  - unfold route, mbind, handler_bind, mret, handler_ret. rewrite run_availability.
    destruct (initFirebase env w) as [[e|[]] w1]; simpl in *; [by rewrite Hem|].
    destruct (negb _); simpl; [by rewrite Hem|]. unfold device_written.
    destruct (doc _); simpl; by rewrite Hem.
  - unfold route. rewrite run_active.
    destruct (initFirebase env w) as [[e|[]] w1]; simpl in *; by rewrite Hem.
  - rewrite run_emergencies.
    assert (keeps_keyed w (run (handler env r) w).2) as Hrun.
    { apply run_guarantees; [by unfold keeps_keyed|unfold keeps_keyed; auto|].
      destruct r; simpl; [apply keyed_report|apply keyed_put|apply keyed_cleanup]. }
    unfold serve. destruct (run (handler env r) w) as [[e|r'] w']; by apply Hrun.
Qed.

(** X19.  On a server that starts without emergencies, after any
    sequence of requests every record is stored under the name its own
    [id] prints as: no route stores a record under another name or
    changes the [id] of a stored record. *)
Theorem records_stored_under_their_id env rs w k e :
  emergencies w = ∅ → emergencies (route_all env rs w).2 !! k = Some e →
  k = String (JNum (e_id e)).
Proof.
  intros Hempty. revert k e. change (keyed (emergencies (route_all env rs w).2)).
  assert (keyed (emergencies w)) as Hw.
  { intros k e. by rewrite Hempty, lookup_empty. }
  clear Hempty. revert w Hw. induction rs as [|r rs IH]; intros w Hw; [done|].
  simpl. pose proof (keyed_route env r w Hw) as Hr.
  destruct (route env r w) as [reply w1]. specialize (IH w1 Hr).
  by destruct (route_all env rs w1) as [replies w2].
Qed.

(** X20.  An emergency reported with no status can be accepted under the
    id the report answered, as long as that id reads back from its own
    print as a number other than 0: the accept finds the record open and
    leaves it accepted by the volunteer. *)
Theorem reported_emergency_can_be_accepted env req acc w :
  firebase_ready env w → passes_validation req → truthy (r_status req) = false →
  let id := report_key req w in
  Number (JStr id) = report_id req w → truthy (JNum (report_id req w)) = true →
  u_status acc = JStr "accepted" → truthy (u_volunteer_id acc) = true →
  let w1 := (run (postEmergencies env req) w).2 in
  let out := run (putEmergency env id acc) w1 in
  (messaging w1 = None → out.1 = inr ok)
  ∧ ∃ e, emergencies out.2 !! id = Some e
      ∧ e_status e = "accepted"
      ∧ e_volunteerId e = Some (Number (u_volunteer_id acc))
      ∧ e_elderlyId e = Number (r_elderly_id req).
Proof.
  intros Hready Hvalid Hst id Hback Hid Hacc Hvol w1 out.
  assert (accept_key id = id) as Hkey.
  { unfold accept_key. rewrite Hback. reflexivity. }
  assert (valid_accept id acc) as Hva.
  { split; [by rewrite Hback|done]. }
  destruct (run_report env req w Hready Hvalid) as (_ & Hem & _).
  fold w1 in Hem.
  assert (emergencies w1 !! accept_key id = Some (report_doc req w)) as Hdoc.
  { rewrite Hkey, Hem. apply lookup_insert_eq. }
  assert (e_status (report_doc req w) = "active") as Hactive.
  { simpl. by rewrite Hst. }
  assert (firebase_ready env w1) as Hready1.
  { pose proof (run_initialised_once (postEmergencies env req) w) as Honce.
    fold w1 in Honce. destruct Honce as [Heq | [_ Hone]].
    - by apply (ready_mono env w).
    - unfold firebase_ready, initFirebase. by rewrite Hone. }
  subst out. rewrite (run_accept env id acc w1 _ Hready1 Hva Hdoc Hactive). cbn zeta.
  destruct (initFirebase_same_data env w1) as (Hc & Hem1 & _ & _ & Hm & _).
  rewrite Hc, Hm.
  set (e' := apply_patch (accept_patch (u_volunteer_id acc) (int (clock w1)))
               (report_doc req w)).
  assert (alter (apply_patch (accept_patch (u_volunteer_id acc) (int (clock w1))))
            (accept_key id) (emergencies (after_init env w1)) !! id = Some e') as Hlook.
  { rewrite Hkey in Hdoc |- *. by rewrite Hem1, lookup_alter_eq, Hdoc. }
  split.
  - intros ->. by destruct (truthy (reporter_token _ _)).
  - exists e'. split; [|done].
    destruct (truthy (reporter_token _ _)); [destruct (messaging w1)|]; exact Hlook.
Qed.

End keyed.

(** ** A status change racing with an accept *)

Ltac tail_step :=
  apply Tail_do;
  [ intros; by apply exec_untouched
  | intros ? ?; cbn -[String Number acceptTransaction] ].

Section change_race.
Context `{Runtime} `{StringMethods} `{Firestore}.

Lemma changing_put env id req m :
  valid_change id req →
  Changing env (accept_key id) (String (u_status req)) m (putEmergency env id req).
Proof.
  intros (Hid & Hst & Hna). unfold putEmergency.
  cbn [try_catch mbind prog_bind bind perform].
  apply Changing_init. rewrite Hid, Hst. cbn -[String Number].
  apply String.eqb_neq in Hna. rewrite Hna. cbn -[String Number].
  apply Changing_now. intros now. cbn -[String Number].
  apply Changing_get. intros e. cbn -[String Number].
  apply Changing_update; [done..|]. cbn -[String Number].
  do 2 tail_step. by apply Tail_ret.
Qed.

Lemma record_is_eq key P w w' :
  emergencies w' = emergencies w → record_is key P w → record_is key P w'.
Proof. intros E (e & He & ?). exists e. by rewrite E. Qed.

Lemma record_is_impl key (P Q : EmergencyDoc → Prop) w :
  (∀ e, P e → Q e) → record_is key P w → record_is key Q w.
Proof. intros HPQ (e & He & ?). exists e. auto. Qed.

Lemma record_is_alter key f (P Q : EmergencyDoc → Prop) w w' :
  (∀ e, P e → Q (f e)) → emergencies w' = alter f key (emergencies w) →
  record_is key P w → record_is key Q w'.
Proof.
  intros HPQ E (e & He & HP). exists (f e). rewrite E, lookup_alter_eq, He. auto.
Qed.

Lemma record_is_stored key P w : record_is key P w → is_Some (emergencies w !! key).
Proof. intros (e & He & _). by eexists. Qed.

Section race.
Context (env : Env) (key s : string) (m : option Exn).

Let good (w : World) : Prop := firebase_ready env w ∧ messaging w = m.

(** One call of a status change that has not written yet: it leaves the
    records alone, or it is the update. *)
Lemma step_changing p w (P : EmergencyDoc → Prop) :
  Changing env key s m p → good w → record_is key P w →
  good (step p w).2
  ∧ ((Changing env key s m (step p w).1 ∧ emergencies (step p w).2 = emergencies w)
     ∨ (Tail m (λ r, r = ok) (step p w).1
        ∧ record_is key (λ e', ∃ e, P e ∧ e_status e' = s
                                 ∧ e_acceptedAt e' = e_acceptedAt e) (step p w).2)).
Proof.
  intros HC [Hr Hm] Hrec. pose proof Hrec as (e & He & HP).
  destruct HC as [k HC|k HC|k HC|patch k Hp Hacc HT].
  - cbn [step]. rewrite run_init_ready by done. cbn [fst snd].
    destruct (initFirebase_same_data env w) as (_ & Hem & _ & _ & Hmm & _).
    split; [split; [by apply ready_after_init|congruence]|]. by left.
  - simpl. split; [done|]. left. done.
  - simpl. rewrite He. split; [split; [by (eapply ready_mono; [|exact Hr])|done]|].
    left. done.
  - simpl. rewrite He. simpl. split; [split; [by (eapply ready_mono; [|exact Hr])|done]|].
    right. split; [done|].
    eapply (record_is_alter key (apply_patch patch) P); [|reflexivity|exact Hrec].
    intros e0 HP0. exists e0. simpl. by rewrite Hp, Hacc.
Qed.

Lemma run_changing p w (P : EmergencyDoc → Prop) :
  Changing env key s m p → good w → record_is key P w →
  ∃ w', run p w = (inr ok, w') ∧ good w'
    ∧ record_is key (λ e', ∃ e, P e ∧ e_status e' = s
                             ∧ e_acceptedAt e' = e_acceptedAt e) w'.
Proof.
  intros HC. revert w. induction HC as [k HC IH|k HC IH|k HC IH|patch k Hp Hacc HT];
    intros w [Hr Hm] Hrec; pose proof Hrec as (e & He & HP).
  - cbn [run]. rewrite run_init_ready by done.
    destruct (initFirebase_same_data env w) as (_ & Hem & _ & _ & Hmm & _).
    apply IH; [split; [by apply ready_after_init|congruence]|].
    by eapply record_is_eq.
  - simpl. by apply IH.
  - simpl. rewrite He.
    apply IH; [split; [by (eapply ready_mono; [|exact Hr])|done]|done].
  - simpl. rewrite He.
    destruct (run_tail _ _ _ (add_call (CallUpdate key patch)
                (set_emergencies (alter (apply_patch patch) key) w)) HT)
      as (r & w' & Hrun & -> & Hu); [done|].
    exists w'. split; [done|]. split.
    + split; [eapply untouched_ready; [exact Hu|by (eapply ready_mono; [|exact Hr])]|].
      destruct Hu as (_ & -> & _). done.
    + destruct Hu as (E & _). eapply record_is_eq; [exact E|].
      eapply (record_is_alter key (apply_patch patch) P); [|reflexivity|exact Hrec].
      intros e0 HP0. exists e0. simpl. by rewrite Hp, Hacc.
Qed.

(** A handler whose writes are behind it. *)
Lemma step_written Q p w :
  Tail m Q p → good w →
  Tail m Q (step p w).1 ∧ good (step p w).2
  ∧ emergencies (step p w).2 = emergencies w.
Proof.
  intros HT [Hr Hm].
  destruct (step_tail _ _ _ _ HT Hm) as (HT' & Hu).
  split; [done|]. split; [split|].
  - by eapply untouched_ready.
  - destruct Hu as (_ & -> & _). done.
  - by destruct Hu as (E & _).
Qed.

Lemma run_written Q p w :
  Tail m Q p → good w →
  ∃ r w', run p w = (inr r, w') ∧ Q r ∧ good w' ∧ emergencies w' = emergencies w.
Proof.
  intros HT [Hr Hm].
  destruct (run_tail _ _ _ _ HT Hm) as (r & w' & Hrun & HQ & Hu).
  exists r, w'. split; [done|]. split; [done|]. split; [split|].
  - by eapply untouched_ready.
  - destruct Hu as (_ & -> & _). done.
  - by destruct Hu as (E & _).
Qed.

(** One call of an accept that finds the record open: it leaves the
    records alone, or it is the transaction, which commits. *)
Lemma step_accept_open v stamp p w :
  Pending env key v m p → good w → record_is key (still_open stamp) w →
  good (step p w).2
  ∧ ((Pending env key v m (step p w).1 ∧ emergencies (step p w).2 = emergencies w)
     ∨ (Tail m (won m) (step p w).1 ∧ record_is key taken (step p w).2)).
Proof.
  intros HP [Hr Hm] Hrec.
  destruct (step_pending _ _ _ _ _ _ HP Hr Hm) as (Hm' & Hr' & _ & Hcase).
  split; [by split|]. destruct Hcase as [[HP' E]|Hcase]; [by left|].
  pose proof Hrec as (e & He & Hs & _). rewrite He, Hs in Hcase. simpl in Hcase.
  destruct Hcase as [HT E]. right. split; [done|].
  eapply record_is_alter; [|exact E|exact Hrec].
  intros e0 _. split; simpl; [done|by eexists].
Qed.

Lemma run_accept_open v stamp p w :
  Pending env key v m p → good w → record_is key (still_open stamp) w →
  ∃ r w', run p w = (inr r, w') ∧ won m r ∧ good w' ∧ record_is key taken w'.
Proof.
  intros HP [Hr Hm] Hrec.
  destruct (run_pending _ _ _ _ _ _ HP Hr Hm)
    as (r & w' & cs & Hrun & Hm' & Hr' & _ & _ & Hcase).
  pose proof Hrec as (e & He & Hs & _). rewrite He, Hs in Hcase. simpl in Hcase.
  destruct Hcase as [Hw E]. exists r, w'. split_and!; try done.
  eapply record_is_alter; [|exact E|exact Hrec].
  intros e0 _. split; simpl; [done|by eexists].
Qed.

(** One call of an accept that comes after the update: it leaves the
    records alone, and its transaction is turned down. *)
Lemma step_accept_late v (P : EmergencyDoc → Prop) p w :
  s ≠ "active" → (∀ e, P e → e_status e = s) →
  (Pending env key v m p ∨ p = Ret conflict) → good w → record_is key P w →
  (Pending env key v m (step p w).1 ∨ (step p w).1 = Ret conflict)
  ∧ good (step p w).2 ∧ emergencies (step p w).2 = emergencies w.
Proof.
  intros Hs HPs [HP| ->] [Hr Hm] Hrec; [|by split; [right|]].
  destruct (step_pending _ _ _ _ _ _ HP Hr Hm) as (Hm' & Hr' & _ & Hcase).
  destruct Hrec as (e & He & HPe). apply HPs in HPe.
  rewrite He, HPe in Hcase. apply String.eqb_neq in Hs. rewrite Hs in Hcase.
  split; [|split; [by split|]].
  - destruct Hcase as [[? _]|[? _]]; [by left|by right].
  - by destruct Hcase as [[_ ->]|[_ ->]].
Qed.

Lemma run_accept_late v (P : EmergencyDoc → Prop) p w :
  s ≠ "active" → (∀ e, P e → e_status e = s) →
  (Pending env key v m p ∨ p = Ret conflict) → good w → record_is key P w →
  ∃ w', run p w = (inr conflict, w') ∧ emergencies w' = emergencies w.
Proof.
  intros Hs HPs [HP| ->] [Hr Hm] Hrec; [|by exists w].
  destruct (run_pending _ _ _ _ _ _ HP Hr Hm)
    as (r & w' & cs & Hrun & Hm' & Hr' & _ & _ & Hcase).
  destruct Hrec as (e & He & HPe). apply HPs in HPe.
  rewrite He, HPe in Hcase. apply String.eqb_neq in Hs. rewrite Hs in Hcase.
  destruct Hcase as [-> E]. by exists w'.
Qed.

Context (stamp : option num) (v : jsval) (Hs : s ≠ "active").

Lemma untaken_after_change w :
  record_is key (λ e', ∃ e, still_open stamp e ∧ e_status e' = s
                         ∧ e_acceptedAt e' = e_acceptedAt e) w →
  record_is key (changed_untaken s stamp) w.
Proof.
  apply record_is_impl. intros e' (e & [_ Hst] & Hs' & Hacc).
  split; [done|congruence].
Qed.

Lemma taken_after_change w :
  record_is key (λ e', ∃ e, taken e ∧ e_status e' = s
                         ∧ e_acceptedAt e' = e_acceptedAt e) w →
  record_is key (changed_taken s) w.
Proof.
  apply record_is_impl. intros e' (e & [_ Hst] & Hs' & Hacc).
  split; [done|by rewrite Hacc].
Qed.

Lemma change_inv_step_first p1 p2 w :
  change_inv env key s stamp v m p1 p2 w → good w →
  change_inv env key s stamp v m (step p1 w).1 p2 (step p1 w).2 ∧ good (step p1 w).2.
Proof.
  intros [p1' p2' w' HC HP Hrec|p1' p2' w' HC HT Hrec|p1' p2' w' HT HP Hrec
         |p1' p2' w' HT1 HT2 Hrec] Hg.
  - destruct (step_changing _ _ _ HC Hg Hrec) as (Hg' & [[? E]|[? Hrec']]).
    + split; [|done]. apply change_open; [done..|]. by eapply record_is_eq.
    + split; [|done]. apply change_before_accept; [done|by left|].
      by apply untaken_after_change.
  - destruct (step_changing _ _ _ HC Hg Hrec) as (Hg' & [[? E]|[? Hrec']]).
    + split; [|done]. apply change_after_accept; [done..|]. by eapply record_is_eq.
    + split; [|done]. apply change_done; [done..|]. by apply taken_after_change.
  - destruct (step_written _ _ _ HT Hg) as (? & ? & E).
    split; [|done]. apply change_before_accept; [done..|]. by eapply record_is_eq.
  - destruct (step_written _ _ _ HT1 Hg) as (? & ? & E).
    split; [|done]. apply change_done; [done..|]. by eapply record_is_eq.
Qed.

Lemma change_inv_step_second p1 p2 w :
  change_inv env key s stamp v m p1 p2 w → good w →
  change_inv env key s stamp v m p1 (step p2 w).1 (step p2 w).2 ∧ good (step p2 w).2.
Proof.
  intros [p1' p2' w' HC HP Hrec|p1' p2' w' HC HT Hrec|p1' p2' w' HT HP Hrec
         |p1' p2' w' HT1 HT2 Hrec] Hg.
  - destruct (step_accept_open _ _ _ _ HP Hg Hrec) as (Hg' & [[? E]|[? ?]]).
    + split; [|done]. apply change_open; [done..|]. by eapply record_is_eq.
    + split; [|done]. by apply change_after_accept.
  - destruct (step_written _ _ _ HT Hg) as (? & ? & E).
    split; [|done]. apply change_after_accept; [done..|]. by eapply record_is_eq.
  - destruct (step_accept_late v (changed_untaken s stamp) _ _ Hs (λ e Hc, proj1 Hc) HP Hg Hrec)
      as (? & ? & E).
    split; [|done]. apply change_before_accept; [done..|]. by eapply record_is_eq.
  - destruct (step_written _ _ _ HT2 Hg) as (? & ? & E).
    split; [|done]. apply change_done; [done..|]. by eapply record_is_eq.
Qed.

Lemma change_inv_interleave sched p1 p2 w :
  change_inv env key s stamp v m p1 p2 w → good w →
  change_inv env key s stamp v m (interleave sched p1 p2 w).1.1
    (interleave sched p1 p2 w).1.2 (interleave sched p1 p2 w).2
  ∧ good (interleave sched p1 p2 w).2.
Proof.
  revert p1 p2 w. induction sched as [|[|] sched IH]; intros p1 p2 w Hinv Hg; [done|..];
    simpl.
  - destruct (change_inv_step_first _ _ _ Hinv Hg) as [Hinv' Hg'].
    destruct (step p1 w) as [p1' w']. by apply IH.
  - destruct (change_inv_step_second _ _ _ Hinv Hg) as [Hinv' Hg'].
    destruct (step p2 w) as [p2' w']. by apply IH.
Qed.

Lemma change_inv_finish p1 p2 w :
  change_inv env key s stamp v m p1 p2 w → good w →
  ∃ r2 w1 w2,
    run p1 w = (inr ok, w1) ∧ run p2 w1 = (inr r2, w2)
    ∧ ((r2 = conflict ∧ record_is key (changed_untaken s stamp) w2)
       ∨ (won m r2 ∧ record_is key (changed_taken s) w2)).
Proof.
  intros [p1' p2' w' HC HP Hrec|p1' p2' w' HC HT Hrec|p1' p2' w' HT HP Hrec
         |p1' p2' w' HT1 HT2 Hrec] Hg.
  - destruct (run_changing _ _ _ HC Hg Hrec) as (w1 & Hrun1 & Hg1 & Hrec1).
    apply untaken_after_change in Hrec1.
    destruct (run_accept_late v (changed_untaken s stamp) p2' w1 Hs (λ e Hc, proj1 Hc))
      as (w2 & Hrun2 & E); [by left|done..|].
    exists conflict, w1, w2. split_and!; [done..|]. left. split; [done|].
    by eapply record_is_eq.
  - destruct (run_changing _ _ _ HC Hg Hrec) as (w1 & Hrun1 & Hg1 & Hrec1).
    apply taken_after_change in Hrec1.
    destruct (run_written _ _ _ HT Hg1) as (r2 & w2 & Hrun2 & Hw & _ & E).
    exists r2, w1, w2. split_and!; [done..|]. right. split; [done|].
    by eapply record_is_eq.
  - destruct (run_written _ _ _ HT Hg) as (r1 & w1 & Hrun1 & -> & Hg1 & E1).
    destruct (run_accept_late v (changed_untaken s stamp) p2' w1 Hs (λ e Hc, proj1 Hc))
      as (w2 & Hrun2 & E2); [done..|by eapply record_is_eq|].
    exists conflict, w1, w2. split_and!; [done..|]. left. split; [done|].
    eapply record_is_eq; [exact E2|]. by eapply record_is_eq.
  - destruct (run_written _ _ _ HT1 Hg) as (r1 & w1 & Hrun1 & -> & Hg1 & E1).
    destruct (run_written _ _ _ HT2 Hg1) as (r2 & w2 & Hrun2 & Hw & _ & E2).
    exists r2, w1, w2. split_and!; [done..|]. right. split; [done|].
    eapply record_is_eq; [exact E2|]. by eapply record_is_eq.
Qed.

End race.

(** X21.  When a status change (to a status other than ['active']) and
    an accept of the same open record are in flight together, under
    every interleaving of their calls the status change is answered 200
    and the record ends with its status.  The accept is either answered
    409 and leaves no trace ([acceptedAt] is as before), or it committed
    first: it is answered as an accept that committed (200, or 500 if the
    push to the reporter was rejected) and the record keeps its
    [acceptedAt] under the status of the status change. *)
Theorem status_change_overrides_racing_accept env id change acc sched w e :
  firebase_ready env w → valid_change id change →
  String (u_status change) ≠ "active" → valid_accept id acc →
  emergencies w !! accept_key id = Some e → e_status e = "active" →
  ∃ r2 w' e',
    race sched (putEmergency env id change) (putEmergency env id acc) w
    = (inr ok, inr r2, w')
    ∧ emergencies w' !! accept_key id = Some e'
    ∧ e_status e' = String (u_status change)
    ∧ ((r2 = conflict ∧ e_acceptedAt e' = e_acceptedAt e)
       ∨ (won (messaging w) r2 ∧ is_Some (e_acceptedAt e'))).
Proof.
  intros Hready Hchange Hs Hacc He Hact.
  assert (change_inv env (accept_key id) (String (u_status change)) (e_acceptedAt e)
            (u_volunteer_id acc) (messaging w)
            (putEmergency env id change) (putEmergency env id acc) w) as Hinv.
  { apply change_open; [by apply changing_put|by apply pending_put|by exists e]. }
  unfold race.
  destruct (change_inv_interleave env _ _ _ _ _ Hs sched _ _ _ Hinv (conj Hready eq_refl))
    as [Hinv' Hg'].
  destruct (interleave sched _ _ w) as [[p1' p2'] w']. simpl in *.
  destruct (change_inv_finish env _ _ _ _ _ Hs _ _ _ Hinv' Hg')
    as (r2 & w1 & w2 & -> & -> & [[-> (e' & He' & Hst & Hstamp)]
                                  |[Hwon (e' & He' & Hst & Hstamp)]]).
  - exists conflict, w2, e'. split_and!; [done..|]. by left.
  - exists r2, w2, e'. split_and!; [done..|]. by right.
Qed.

End change_race.

(** ** Two status changes at once *)

Section changes_race.
Context `{Runtime} `{StringMethods} `{Firestore}.
Context (env : Env) (key s1 s2 : string) (m : option Exn).

Let good (w : World) : Prop := firebase_ready env w ∧ messaging w = m.

Lemma changed_status s w (P : EmergencyDoc → Prop) :
  record_is key (λ e', ∃ e, P e ∧ e_status e' = s
                         ∧ e_acceptedAt e' = e_acceptedAt e) w →
  has_status key s w.
Proof. apply record_is_impl. by intros e' (e & _ & Hs & _). Qed.

Lemma stored_record w :
  is_Some (emergencies w !! key) → record_is key (λ _, True) w.
Proof. intros [e He]. by exists e. Qed.

Lemma changes_inv_step_first p1 p2 w :
  changes_inv env key s1 s2 m p1 p2 w → good w →
  changes_inv env key s1 s2 m (step p1 w).1 p2 (step p1 w).2 ∧ good (step p1 w).2.
Proof.
  intros [p1' p2' w' HC1 HC2 Hst|p1' p2' w' HT1 HC2 Hst|p1' p2' w' HC1 HT2 Hst
         |p1' p2' w' HT1 HT2 Hst] Hg.
  - destruct (step_changing env key s1 m _ _ _ HC1 Hg (stored_record _ Hst))
      as (Hg' & [[? E]|[? Hs]]).
    + split; [|done]. apply changes_open; [done..|]. by rewrite E.
    + split; [|done]. apply changes_first; [done..|]. by eapply record_is_stored.
  - destruct (step_written env m _ _ _ HT1 Hg) as (? & ? & E).
    split; [|done]. apply changes_first; [done..|]. by rewrite E.
  - destruct (step_changing env key s1 m _ _ _ HC1 Hg (stored_record _ Hst))
      as (Hg' & [[? E]|[? Hs]]).
    + split; [|done]. apply changes_second; [done..|]. by rewrite E.
    + split; [|done]. apply changes_done; [done..|]. left. by apply (changed_status _ _ (λ _, True)).
  - destruct (step_written env m _ _ _ HT1 Hg) as (? & ? & E).
    split; [|done]. apply changes_done; [done..|].
    destruct Hst as [Hs|Hs]; [left|right]; by eapply record_is_eq.
Qed.

Lemma changes_inv_step_second p1 p2 w :
  changes_inv env key s1 s2 m p1 p2 w → good w →
  changes_inv env key s1 s2 m p1 (step p2 w).1 (step p2 w).2 ∧ good (step p2 w).2.
Proof.
  intros [p1' p2' w' HC1 HC2 Hst|p1' p2' w' HT1 HC2 Hst|p1' p2' w' HC1 HT2 Hst
         |p1' p2' w' HT1 HT2 Hst] Hg.
  - destruct (step_changing env key s2 m _ _ _ HC2 Hg (stored_record _ Hst))
      as (Hg' & [[? E]|[? Hs]]).
    + split; [|done]. apply changes_open; [done..|]. by rewrite E.
    + split; [|done]. apply changes_second; [done..|]. by eapply record_is_stored.
  - destruct (step_changing env key s2 m _ _ _ HC2 Hg (stored_record _ Hst))
      as (Hg' & [[? E]|[? Hs]]).
    + split; [|done]. apply changes_first; [done..|]. by rewrite E.
    + split; [|done]. apply changes_done; [done..|]. right. by apply (changed_status _ _ (λ _, True)).
  - destruct (step_written env m _ _ _ HT2 Hg) as (? & ? & E).
    split; [|done]. apply changes_second; [done..|]. by rewrite E.
  - destruct (step_written env m _ _ _ HT2 Hg) as (? & ? & E).
    split; [|done]. apply changes_done; [done..|].
    destruct Hst as [Hs|Hs]; [left|right]; by eapply record_is_eq.
Qed.

Lemma changes_inv_interleave sched p1 p2 w :
  changes_inv env key s1 s2 m p1 p2 w → good w →
  changes_inv env key s1 s2 m (interleave sched p1 p2 w).1.1
    (interleave sched p1 p2 w).1.2 (interleave sched p1 p2 w).2
  ∧ good (interleave sched p1 p2 w).2.
Proof.
  revert p1 p2 w. induction sched as [|[|] sched IH]; intros p1 p2 w Hinv Hg; [done|..];
    simpl.
  - destruct (changes_inv_step_first _ _ _ Hinv Hg) as [Hinv' Hg'].
    destruct (step p1 w) as [p1' w']. by apply IH.
  - destruct (changes_inv_step_second _ _ _ Hinv Hg) as [Hinv' Hg'].
    destruct (step p2 w) as [p2' w']. by apply IH.
Qed.

Lemma changes_inv_finish p1 p2 w :
  changes_inv env key s1 s2 m p1 p2 w → good w →
  ∃ w1 w2,
    run p1 w = (inr ok, w1) ∧ run p2 w1 = (inr ok, w2)
    ∧ (has_status key s1 w2 ∨ has_status key s2 w2).
Proof.
  intros [p1' p2' w' HC1 HC2 Hst|p1' p2' w' HT1 HC2 Hst|p1' p2' w' HC1 HT2 Hst
         |p1' p2' w' HT1 HT2 Hst] Hg.
  - destruct (run_changing env key s1 m _ _ _ HC1 Hg (stored_record _ Hst))
      as (w1 & Hrun1 & Hg1 & Hs1).
    destruct (run_changing env key s2 m _ _ _ HC2 Hg1
                (stored_record _ (record_is_stored _ _ _ Hs1)))
      as (w2 & Hrun2 & _ & Hs2).
    exists w1, w2. split_and!; [done..|]. right. by apply (changed_status _ _ (λ _, True)).
  - destruct (run_written env m _ _ _ HT1 Hg) as (r1 & w1 & Hrun1 & -> & Hg1 & E).
    destruct (run_changing env key s2 m _ w1 (λ _, True) HC2 Hg1) as (w2 & Hrun2 & _ & Hs2).
    { apply stored_record. by rewrite E. }
    exists w1, w2. split_and!; [done..|]. right. by apply (changed_status _ _ (λ _, True)).
  - destruct (run_changing env key s1 m _ _ _ HC1 Hg (stored_record _ Hst))
      as (w1 & Hrun1 & Hg1 & Hs1).
    destruct (run_written env m _ _ _ HT2 Hg1) as (r2 & w2 & Hrun2 & -> & _ & E).
    exists w1, w2. split_and!; [done..|]. left.
    eapply record_is_eq; [exact E|]. by apply (changed_status _ _ (λ _, True)).
  - destruct (run_written env m _ _ _ HT1 Hg) as (r1 & w1 & Hrun1 & -> & Hg1 & E1).
    destruct (run_written env m _ _ _ HT2 Hg1) as (r2 & w2 & Hrun2 & -> & _ & E2).
    exists w1, w2. split_and!; [done..|].
    destruct Hst as [Hs|Hs]; [left|right];
      (eapply record_is_eq; [exact E2|]; by eapply record_is_eq).
Qed.

End changes_race.

Section last_writer.
Context `{Runtime} `{StringMethods} `{Firestore}.

(** X22.  Two status changes of the same stored record that are in
    flight together are both answered 200, under every interleaving of
    their calls, and the record ends with the status of one of them:
    neither request is told that the other wrote. *)
Theorem concurrent_status_changes_both_succeed env id change1 change2 sched w e :
  firebase_ready env w → valid_change id change1 → valid_change id change2 →
  emergencies w !! accept_key id = Some e →
  ∃ w',
    race sched (putEmergency env id change1) (putEmergency env id change2) w
    = (inr ok, inr ok, w')
    ∧ (has_status (accept_key id) (String (u_status change1)) w'
       ∨ has_status (accept_key id) (String (u_status change2)) w').
Proof.
  intros Hready Hc1 Hc2 He.
  assert (changes_inv env (accept_key id) (String (u_status change1))
            (String (u_status change2)) (messaging w)
            (putEmergency env id change1) (putEmergency env id change2) w) as Hinv.
  { apply changes_open; [by apply changing_put|by apply changing_put|by eexists]. }
  unfold race.
  destruct (changes_inv_interleave env _ _ _ _ sched _ _ _ Hinv (conj Hready eq_refl))
    as [Hinv' Hg'].
  destruct (interleave sched _ _ w) as [[p1' p2'] w']. simpl in *.
  destruct (changes_inv_finish env _ _ _ _ _ _ _ Hinv' Hg')
    as (w1 & w2 & -> & -> & Hst).
  by exists w2.
Qed.

(** X23.  A heartbeat that marks a volunteer available, under a name
    that Firestore takes for a document of the collection, makes them
    eligible for the next ten minutes: if the document then has a push
    token and at most ten volunteers are available, a report made in
    that time sends its push to that token. *)
Theorem heartbeat_keeps_volunteer_notified env hb id d req w w' :
  firebase_ready env w → truthy (v_volunteer_id hb) = true →
  truthy (v_is_available hb) = true →
  doc (availability_name hb) = Document id →
  device_lookup id (devices (volunteersAvailability env hb w).2) = Some d →
  truthy (d_fcmToken d) = true →
  devices w' = devices (volunteersAvailability env hb w).2 →
  (clock w' ≤ clock w + 600000)%Z →
  (length (filter (λ d, is_available_volunteer d = true) (snd <$> devices w')) ≤ 10)%nat →
  firebase_ready env w' → passes_validation req → messaging w' = None →
  let out := run (postEmergencies env req) w' in
  ∃ msg, outbox out.2 = outbox w' ++ [msg] ∧ d_fcmToken d ∈ m_tokens msg.
Proof.
  intros Hready Hid Hav Hdoc Hd Htok Hdev Hclock Hlen Hready' Hreq Hmsg out. subst out.
  assert (d_role d = JStr "volunteer" ∧ d_isAvailable d = JBool true
          ∧ d_lastSeenAt d = JNum (int (clock w))) as (Hrole & Havail & Hseen).
  { revert Hd. rewrite run_availability.
    pose proof (initFirebase_same_data env w) as (Hc & _).
    unfold firebase_ready, after_init in *.
    destruct (initFirebase env w) as [[e|[]] w1]; [done|]. simpl in Hc.
    rewrite Hid. simpl. unfold device_written.
    unfold availability_name in Hdoc. rewrite Hdoc. simpl.
    rewrite device_lookup_set_merge, String.eqb_refl.
    intros [= <-]. simpl. by rewrite Hav, Hc. }
  assert (d_fcmToken d ∈ report_tokens req w') as Hin.
  { rewrite <- Hdev in Hd. apply device_lookup_elem in Hd.
    eapply report_tokens_all; [done|exact Hd| |].
    - unfold is_available_volunteer. by rewrite Hrole, Havail.
    - split; [done|]. by eapply fresh_heartbeat. }
  exists (report_message req w'). split; [|done].
  rewrite run_report_init by done. cbn zeta.
  pose proof (initFirebase_same_data env w') as Hsame.
  destruct (same_data_report req _ _ Hsame) as (_ & _ & _ & _ & -> & -> & _).
  destruct Hsame as (_ & _ & _ & _ & Hm & Ho & _). rewrite Hm, Hmsg.
  rewrite bool_decide_true.
  - simpl. by rewrite Ho.
  - destruct (report_tokens req w'); [by apply elem_of_nil in Hin|done].
Qed.

(** X24.  A cleanup that found at most 200 records to delete leaves
    nothing for a second cleanup with the same cutoff: run again at the
    same time with the same [days], a number, it answers 200 with zero
    deleted and changes no record. *)
Theorem second_sweep_deletes_nothing env token days w :
  firebase_ready env w → authorised env token → cleanup_days env days ≠ NaN →
  (length (older_records (cleanup_cutoff env days w) (emergencies w)) ≤ 200)%nat →
  let w1 := (run (adminCleanup env token days) w).2 in
  let out := run (adminCleanup env token days) w1 in
  out.1 = inr (respond 200 (BodyCleanup 0 (cleanup_days env days)))
  ∧ emergencies out.2 = emergencies w1.
Proof.
  intros Hready Hauth Hnum Hlen w1 out.
  assert (clock w1 = clock w ∧ firebase_ready env w1
          ∧ emergencies w1
            = foldl (λ m k, delete k m) (emergencies w)
                (created_before (cleanup_cutoff env days w) (emergencies w)))
    as (Hclock & Hready1 & Hem1).
  { subst w1. rewrite run_cleanup by done. cbn zeta.
    destruct (initFirebase_same_data env w) as (Hc & Hem & _).
    assert (cleanup_cutoff env days (after_init env w) = cleanup_cutoff env days w) as ->.
    { unfold cleanup_cutoff. by rewrite Hc. }
    rewrite Hem.
    assert (firebase_ready env (after_init env w)) as Hr by by apply ready_after_init.
    case_bool_decide as Hkeys; simpl.
    - split; [done|]. split; [by apply (ready_mono env (after_init env w))|].
      by rewrite Hem.
    - split; [done|]. split; [by apply (ready_mono env (after_init env w))|].
      apply nil_length_inv in Hkeys. by rewrite Hem, Hkeys. }
  assert (cleanup_cutoff env days w1 = cleanup_cutoff env days w) as Hcut.
  { unfold cleanup_cutoff. by rewrite Hclock. }
  assert (created_before (cleanup_cutoff env days w) (emergencies w1) = []) as Hnone.
  { destruct (created_before (cleanup_cutoff env days w) (emergencies w1))
      as [|k l] eqn:Hl; [done|].
    assert (k ∈ created_before (cleanup_cutoff env days w) (emergencies w1)) as Hk
      by (rewrite Hl; apply list_elem_of_here).
    apply created_before_elem in Hk as (e & He & Hlt).
    rewrite Hem1, lookup_foldl_delete in He.
    destruct (decide (k ∈ created_before (cleanup_cutoff env days w) (emergencies w)))
      as [Hin|Hout]; [done|].
    destruct Hout. by eapply created_before_all. }
  subst out. rewrite run_cleanup by done. cbn zeta.
  destruct (initFirebase_same_data env w1) as (Hc1 & Hem & _).
  assert (cleanup_cutoff env days (after_init env w1) = cleanup_cutoff env days w) as ->.
  { unfold cleanup_cutoff. by rewrite Hc1, Hclock. }
  rewrite Hem, Hnone. simpl. by rewrite Hem.
Qed.

End last_writer.

(** ** Closed examples for the other routes *)

#[local] Existing Instance Samples.strings.
#[local] Existing Instance Samples.firestore.

(** [uninitialised_routes_answer_500] on a registration sent to a server
    without a service account. *)
Lemma uninitialised_routes_answer_500_witness :
  apps_length Samples.cold = 0%nat
  ∧ route Demo.env (PostDevicesRegister Samples.volunteer_registration) Samples.cold
    = (inr (Responded (respond 500 (BodyError "Missing FIREBASE_SERVICE_ACCOUNT_JSON"))),
       Samples.cold).
Proof.
  assert (apps_length Samples.cold = 0%nat) as Happs by reflexivity.
  assert (PostDevicesRegister Samples.volunteer_registration ≠ GetHealth) as Hr
    by discriminate.
  destruct (uninitialised_routes_answer_500 Demo.env
              (PostDevicesRegister Samples.volunteer_registration) Samples.cold Happs Hr)
    as (Hmissing & _).
  split; [exact Happs|]. apply Hmissing. by left.
Defined.

(** [client_errors_change_nothing] on a second accept of the emergency
    volunteer 7 has accepted. *)
Lemma client_errors_change_nothing_witness :
  (route Demo.env (Emergencies (Put Demo.key (Demo.accept 9))) Samples.accepted_by_7).1
  = inr (Responded conflict)
  ∧ client_error (reply_status (Responded conflict))
  ∧ same_records Samples.accepted_by_7
      (route Demo.env (Emergencies (Put Demo.key (Demo.accept 9))) Samples.accepted_by_7).2.
Proof.
  assert ((route Demo.env (Emergencies (Put Demo.key (Demo.accept 9)))
             Samples.accepted_by_7).1 = inr (Responded conflict)) as Hreply
    by (vm_compute; reflexivity).
  assert (client_error (reply_status (Responded conflict))) as Hclient
    by (unfold client_error; simpl; lia).
  split; [exact Hreply|]. split; [exact Hclient|].
  exact (client_errors_change_nothing Demo.env _ _ _ Hreply Hclient).
Defined.


(** [sweep_without_numeric_days] on [days=soon]. *)
Lemma sweep_without_numeric_days_witness :
  firebase_ready Demo.env Samples.archive
  ∧ authorised Demo.env (JStr "s3cret")
  ∧ cleanup_days Demo.env (JStr "soon") = NaN
  ∧ (run (adminCleanup Demo.env (JStr "s3cret") (JStr "soon")) Samples.archive).1
    = inr (respond 500 (BodyError (message nan_filter)))
  ∧ emergencies (run (adminCleanup Demo.env (JStr "s3cret") (JStr "soon"))
                   Samples.archive).2
    = emergencies Samples.archive.
Proof.
  assert (firebase_ready Demo.env Samples.archive) as Hready by reflexivity.
  assert (authorised Demo.env (JStr "s3cret")) as Hauth by (split; reflexivity).
  assert (cleanup_days Demo.env (JStr "soon") = NaN) as Hnan by reflexivity.
  destruct (sweep_without_numeric_days Demo.env (JStr "s3cret") (JStr "soon")
              Samples.archive Hready Hauth Hnan) as (Hresp & _ & Hem & _).
  split; [exact Hready|]. split; [exact Hauth|]. split; [exact Hnan|].
  split; [exact Hresp|exact Hem].
Defined.

(** [status_change_rewrites_record] on a cancellation of the open
    emergency of [Demo.world] that names no volunteer. *)
Lemma status_change_rewrites_record_witness :
  firebase_ready Demo.env Demo.world
  ∧ valid_change Demo.key (Demo.set_status "cancelled" JUndefined)
  ∧ (run (putEmergency Demo.env Demo.key (Demo.set_status "cancelled" JUndefined))
       Demo.world).1 = inr ok
  ∧ outbox (run (putEmergency Demo.env Demo.key (Demo.set_status "cancelled" JUndefined))
              Demo.world).2 = outbox Demo.world.
Proof.
  assert (firebase_ready Demo.env Demo.world) as Hready by reflexivity.
  assert (valid_change Demo.key (Demo.set_status "cancelled" JUndefined)) as Hvalid.
  { split; [reflexivity|]. split; [reflexivity|]. vm_compute. discriminate. }
  destruct (status_change_rewrites_record Demo.env Demo.key
              (Demo.set_status "cancelled" JUndefined) Demo.world Hready Hvalid)
    as (_ & Hstored).
  destruct (Hstored Demo.open_emergency) as (Hresp & _ & _ & Hout & _);
    [vm_compute; reflexivity|].
  split; [exact Hready|]. split; [exact Hvalid|]. split; [exact Hresp|exact Hout].
Defined.

(** [accept_records_and_notifies] on volunteer 7 and the open emergency
    of [Demo.world], whose reporter has no device. *)
Lemma accept_records_and_notifies_witness :
  firebase_ready Demo.env Demo.world
  ∧ valid_accept Demo.key (Demo.accept 7)
  ∧ emergencies Demo.world !! accept_key Demo.key = Some Demo.open_emergency
  ∧ (run (putEmergency Demo.env Demo.key (Demo.accept 7)) Demo.world).1 = inr ok
  ∧ outbox (run (putEmergency Demo.env Demo.key (Demo.accept 7)) Demo.world).2
    = outbox Demo.world.
Proof.
  assert (firebase_ready Demo.env Demo.world) as Hready by reflexivity.
  assert (valid_accept Demo.key (Demo.accept 7)) as Hvalid by (by vm_compute).
  assert (emergencies Demo.world !! accept_key Demo.key = Some Demo.open_emergency)
    as Hopen by (vm_compute; reflexivity).
  assert (e_status Demo.open_emergency = "active") as Hactive by reflexivity.
  destruct (accept_records_and_notifies Demo.env Demo.key (Demo.accept 7) Demo.world
              Demo.open_emergency Hready Hvalid Hopen Hactive)
    as (_ & _ & _ & Hquiet & _).
  destruct Hquiet as (Hresp & Hout); [reflexivity|].
  split; [exact Hready|]. split; [exact Hvalid|]. split; [exact Hopen|].
  split; [exact Hresp|exact Hout].
Defined.

(** [report_notifies_fresh_volunteers] on a report by user 5 in
    [Demo.world]: volunteers 9, 7 and 8 are notified. *)
Lemma report_notifies_fresh_volunteers_witness :
  firebase_ready Demo.env Demo.world
  ∧ passes_validation (Demo.report 5 JUndefined JUndefined)
  ∧ (length (report_tokens (Demo.report 5 JUndefined JUndefined) Demo.world) ≤ 10)%nat
  ∧ devices (run (postEmergencies Demo.env (Demo.report 5 JUndefined JUndefined))
               Demo.world).2 = devices Demo.world.
Proof.
  assert (firebase_ready Demo.env Demo.world) as Hready by reflexivity.
  assert (passes_validation (Demo.report 5 JUndefined JUndefined)) as Hvalid
    by (by vm_compute).
  destruct (report_notifies_fresh_volunteers Demo.env (Demo.report 5 JUndefined JUndefined)
              Demo.world Hready Hvalid) as (Hlen & _ & _ & _ & _ & Hdev).
  split; [exact Hready|]. split; [exact Hvalid|]. split; [exact Hlen|exact Hdev].
Defined.

(** [register_stores_device] on the registration of volunteer 12, and
    on a registration whose role has a [/] in it. *)
Lemma register_stores_device_witness :
  firebase_ready Demo.env Demo.world
  ∧ valid_register Samples.volunteer_registration
  ∧ (devicesRegister Demo.env Samples.volunteer_registration Demo.world).1 = inr ok
  ∧ device_lookup "volunteer_12"
      (devices (devicesRegister Demo.env Samples.volunteer_registration Demo.world).2)
    = Some (registered_device Samples.volunteer_registration (int 1700000600000))
  ∧ (∃ e, (devicesRegister Demo.env Samples.registration_with_slash Demo.world).1
          = inr (error_response e))
  ∧ devices (devicesRegister Demo.env Samples.registration_with_slash Demo.world).2
    = devices Demo.world.
Proof.
  assert (firebase_ready Demo.env Demo.world) as Hready by reflexivity.
  assert (valid_register Samples.volunteer_registration) as Hvalid by (by vm_compute).
  assert (valid_register Samples.registration_with_slash) as Hvalid' by (by vm_compute).
  destruct (register_stores_device Demo.env Samples.volunteer_registration Demo.world
              Hready) as (_ & Hstored).
  destruct (Hstored Hvalid) as (Hdocument & _).
  destruct (Hdocument "volunteer_12") as (Hresp & Hdoc & _); [reflexivity|].
  destruct (register_stores_device Demo.env Samples.registration_with_slash Demo.world
              Hready) as (_ & Hslash).
  destruct (Hslash Hvalid') as (_ & Hrefused & _).
  destruct (Hrefused _ eq_refl) as (Hresp' & _ & Hdevices & _).
  split; [exact Hready|]. split; [exact Hvalid|]. split; [exact Hresp|].
  split; [exact Hdoc|]. split; [eexists; exact Hresp'|exact Hdevices].
Defined.

(** [availability_merges_heartbeat] on a heartbeat of volunteer 7 with a
    new latitude and a blank token: the longitude and the token stay. *)
Lemma availability_merges_heartbeat_witness :
  firebase_ready Demo.env Demo.world
  ∧ (volunteersAvailability Demo.env Samples.heartbeat Demo.world).1 = inr ok
  ∧ ∃ d, device_lookup "volunteer_7"
           (devices (volunteersAvailability Demo.env Samples.heartbeat Demo.world).2)
         = Some d
      ∧ d_latitude d = JNum (int 13) ∧ d_longitude d = JNum (int 20)
      ∧ d_fcmToken d = JStr "token-7".
Proof.
  assert (firebase_ready Demo.env Demo.world) as Hready by reflexivity.
  destruct (availability_merges_heartbeat Demo.env Samples.heartbeat Demo.world Hready)
    as (_ & Hstored).
  destruct Hstored as (Hdocument & _); [reflexivity|].
  destruct (Hdocument "volunteer_7")
    as (Hresp & (d & Hd & _ & _ & _ & _ & Hlat & Hlon & Htok) & _); [reflexivity|].
  split; [exact Hready|]. split; [exact Hresp|]. exists d.
  split; [exact Hd|]. split; [exact Hlat|]. split; [exact Hlon|exact Htok].
Defined.

(** [registered_volunteer_is_notified] on volunteer 12, who registers in
    [Demo.world], and a report made at once. *)
Lemma registered_volunteer_is_notified_witness :
  ∃ msg,
    outbox (run (postEmergencies Demo.env (Demo.report 5 JUndefined JUndefined))
              (devicesRegister Demo.env Samples.volunteer_registration Demo.world).2).2
    = outbox (devicesRegister Demo.env Samples.volunteer_registration Demo.world).2 ++ [msg]
    ∧ JStr "token-12" ∈ m_tokens msg.
Proof.
  apply (registered_volunteer_is_notified Demo.env Samples.volunteer_registration
           "token-12" "volunteer_12" (Demo.report 5 JUndefined JUndefined) Demo.world
           (devicesRegister Demo.env Samples.volunteer_registration Demo.world).2).
  - reflexivity.
  - reflexivity.
  - by vm_compute.
  - reflexivity.
  - reflexivity.
  - reflexivity.
  - reflexivity.
  - vm_compute. discriminate.
  - vm_compute. lia.
  - reflexivity.
  - by vm_compute.
  - reflexivity.
Defined.

(** [registered_reporter_is_notified] on user 5, who registers a device,
    and the accept of the emergency of user 5 by volunteer 7. *)
Lemma registered_reporter_is_notified_witness :
  (run (putEmergency Demo.env Demo.key (Demo.accept 7))
     (devicesRegister Demo.env Samples.reporter_registration Demo.world).2).1 = inr ok
  ∧ outbox (run (putEmergency Demo.env Demo.key (Demo.accept 7))
              (devicesRegister Demo.env Samples.reporter_registration Demo.world).2).2
    = outbox Demo.world
      ++ [accepted_message Demo.key (Demo.accept 7) (JStr "token-5")].
Proof.
  apply (registered_reporter_is_notified Demo.env Samples.reporter_registration
           "token-5" Demo.key (Demo.accept 7) Demo.world Demo.open_emergency).
  - reflexivity.
  - reflexivity.
  - by vm_compute.
  - reflexivity.
  - reflexivity.
  - reflexivity.
  - by vm_compute.
  - vm_compute. reflexivity.
  - reflexivity.
  - reflexivity.
Defined.

(** [active_lists_open_and_own] on a caller without an id, in
    [Demo.world]. *)
Lemma active_lists_open_and_own_witness :
  firebase_ready Demo.env Demo.world
  ∧ ∃ records,
      (emergenciesActive Demo.env JUndefined Demo.world).1
      = inr (Listed (activeItem <$> records))
      ∧ ∀ e, e ∈ records → e_status e = "active".
Proof.
  assert (firebase_ready Demo.env Demo.world) as Hready by reflexivity.
  destruct (active_lists_open_and_own Demo.env JUndefined Demo.world Hready)
    as (records & Hlist & _ & _ & _ & Honly & _).
  split; [exact Hready|]. exists records. split; [exact Hlist|].
  apply Honly. reflexivity.
Defined.

(** [report_validation] on a report whose latitude is the string
    ["10.5"]. *)
Lemma report_validation_witness :
  firebase_ready Demo.env Demo.world
  ∧ (run (postEmergencies Demo.env
            {| r_elderly_id := JNum (int 5); r_latitude := JStr "10.5";
               r_longitude := JNum (int 20); r_timestamp := JUndefined;
               r_status := JUndefined |}) Demo.world).1
    = inr (respond 400 (BodyError "elderly_id, latitude, longitude are required")).
Proof.
  assert (firebase_ready Demo.env Demo.world) as Hready by reflexivity.
  destruct (report_validation Demo.env
              {| r_elderly_id := JNum (int 5); r_latitude := JStr "10.5";
                 r_longitude := JNum (int 20); r_timestamp := JUndefined;
                 r_status := JUndefined |} Demo.world Hready) as ((_ & Hbad) & _).
  split; [exact Hready|]. apply Hbad. intros (_ & Hlat & _). discriminate.
Defined.

(** [put_validation] on a [PUT] of the id ["abc"]. *)
Lemma put_validation_witness :
  firebase_ready Demo.env Demo.world
  ∧ (run (putEmergency Demo.env "abc" (Demo.accept 7)) Demo.world).1
    = inr (respond 400 (BodyError "Invalid emergency id")).
Proof.
  assert (firebase_ready Demo.env Demo.world) as Hready by reflexivity.
  destruct (put_validation Demo.env "abc" (Demo.accept 7) Demo.world Hready)
    as (Hid & _).
  destruct Hid as (Hresp & _); [reflexivity|].
  split; [exact Hready|exact Hresp].
Defined.

(** [accepted_emergency_listed_for_volunteer] on volunteer 7, who
    accepts the open emergency of [Demo.world] and asks for the list. *)
Lemma accepted_emergency_listed_for_volunteer_witness :
  ∃ e',
    emergencies (run (putEmergency Demo.env Demo.key (Demo.accept 7)) Demo.world).2
      !! accept_key Demo.key = Some e'
    ∧ (∃ items,
         (emergenciesActive Demo.env (JStr "7")
            (run (putEmergency Demo.env Demo.key (Demo.accept 7)) Demo.world).2).1
         = inr (Listed items)
         ∧ activeItem e' ∈ items)
    ∧ (∃ items,
         (emergenciesActive Demo.env JUndefined
            (run (putEmergency Demo.env Demo.key (Demo.accept 7)) Demo.world).2).1
         = inr (Listed items)
         ∧ activeItem e' ∉ items).
Proof.
  destruct (accepted_emergency_listed_for_volunteer Demo.env Demo.key (Demo.accept 7)
              Demo.world Demo.open_emergency (JStr "7"))
    as (e' & He' & _ & _ & _ & Hown & Hother).
  - reflexivity.
  - by vm_compute.
  - vm_compute. reflexivity.
  - reflexivity.
  - reflexivity.
  - reflexivity.
  - vm_compute. lia.
  - exists e'. split; [exact He'|]. split; [exact Hown|exact Hother].
Defined.

(** [records_stored_under_their_id] on the record a report and an
    accept leave on a server without emergencies. *)
Lemma records_stored_under_their_id_witness :
  emergencies Demo.fresh = ∅
  ∧ emergencies (route_all Demo.env (Emergencies <$> Demo.report_then_accept)
                   Demo.fresh).2 !! Demo.key
    = Some Demo.accepted_emergency
  ∧ Demo.key = String (JNum (e_id Demo.accepted_emergency)).
Proof.
  assert (emergencies Demo.fresh = ∅) as Hempty by reflexivity.
  assert (emergencies (route_all Demo.env (Emergencies <$> Demo.report_then_accept)
                         Demo.fresh).2 !! Demo.key
          = Some Demo.accepted_emergency) as Hlook by (vm_compute; reflexivity).
  split; [exact Hempty|]. split; [exact Hlook|].
  exact (records_stored_under_their_id Demo.env _ Demo.fresh Demo.key _ Hempty Hlook).
Defined.

(** [reported_emergency_can_be_accepted] on a report by user 5 with a
    timestamp and the accept of the answered id by volunteer 7. *)
Lemma reported_emergency_can_be_accepted_witness :
  ∃ e,
    emergencies
      (run (putEmergency Demo.env Demo.key (Demo.accept 7))
         (run (postEmergencies Demo.env
                 (Demo.report 5 (JNum (int 1700000000000)) JUndefined)) Demo.fresh).2).2
      !! Demo.key = Some e
    ∧ e_status e = "accepted"
    ∧ e_volunteerId e = Some (int 7)
    ∧ e_elderlyId e = int 5.
Proof.
  destruct (reported_emergency_can_be_accepted Demo.env
              (Demo.report 5 (JNum (int 1700000000000)) JUndefined) (Demo.accept 7)
              Demo.fresh) as (_ & He).
  - reflexivity.
  - by vm_compute.
  - reflexivity.
  - vm_compute. reflexivity.
  - reflexivity.
  - reflexivity.
  - reflexivity.
  - exact He.
Defined.

(** [status_change_overrides_racing_accept] on a cancellation and the
    accept of volunteer 7, racing under [Demo.schedule]. *)
Lemma status_change_overrides_racing_accept_witness :
  ∃ r2 w' e',
    race Demo.schedule
      (putEmergency Demo.env Demo.key (Demo.set_status "cancelled" JUndefined))
      (putEmergency Demo.env Demo.key (Demo.accept 7)) Demo.world
    = (inr ok, inr r2, w')
    ∧ emergencies w' !! accept_key Demo.key = Some e'
    ∧ e_status e' = "cancelled"
    ∧ ((r2 = conflict ∧ e_acceptedAt e' = None)
       ∨ (won (messaging Demo.world) r2 ∧ is_Some (e_acceptedAt e'))).
Proof.
  apply (status_change_overrides_racing_accept Demo.env Demo.key
           (Demo.set_status "cancelled" JUndefined) (Demo.accept 7) Demo.schedule
           Demo.world Demo.open_emergency).
  - reflexivity.
  - split; [reflexivity|]. split; [reflexivity|]. vm_compute. discriminate.
  - vm_compute. discriminate.
  - by vm_compute.
  - vm_compute. reflexivity.
  - reflexivity.
Defined.

(** [concurrent_status_changes_both_succeed] on a cancellation and a
    resolution of the open emergency, racing under [Demo.schedule]. *)
Lemma concurrent_status_changes_both_succeed_witness :
  ∃ w',
    race Demo.schedule
      (putEmergency Demo.env Demo.key (Demo.set_status "cancelled" JUndefined))
      (putEmergency Demo.env Demo.key (Demo.set_status "resolved" JUndefined)) Demo.world
    = (inr ok, inr ok, w')
    ∧ (has_status (accept_key Demo.key) "cancelled" w'
       ∨ has_status (accept_key Demo.key) "resolved" w').
Proof.
  apply (concurrent_status_changes_both_succeed Demo.env Demo.key
           (Demo.set_status "cancelled" JUndefined) (Demo.set_status "resolved" JUndefined)
           Demo.schedule Demo.world Demo.open_emergency).
  - reflexivity.
  - split; [reflexivity|]. split; [reflexivity|]. vm_compute. discriminate.
  - split; [reflexivity|]. split; [reflexivity|]. vm_compute. discriminate.
  - vm_compute. reflexivity.
Defined.

(** [heartbeat_keeps_volunteer_notified] on the heartbeat of volunteer 7
    and a report made at once. *)
Lemma heartbeat_keeps_volunteer_notified_witness :
  ∃ msg,
    outbox (run (postEmergencies Demo.env (Demo.report 5 JUndefined JUndefined))
              (volunteersAvailability Demo.env Samples.heartbeat Demo.world).2).2
    = outbox (volunteersAvailability Demo.env Samples.heartbeat Demo.world).2 ++ [msg]
    ∧ JStr "token-7" ∈ m_tokens msg.
Proof.
  apply (heartbeat_keeps_volunteer_notified Demo.env Samples.heartbeat "volunteer_7"
           (Demo.volunteer_device 7 (JStr "token-7") (JNum (int 13)) (JNum (int 20))
              (JNum (int 1700000600000)))
           (Demo.report 5 JUndefined JUndefined) Demo.world
           (volunteersAvailability Demo.env Samples.heartbeat Demo.world).2).
  - reflexivity.
  - reflexivity.
  - reflexivity.
  - reflexivity.
  - vm_compute. reflexivity.
  - reflexivity.
  - reflexivity.
  - vm_compute. discriminate.
  - vm_compute. lia.
  - reflexivity.
  - by vm_compute.
  - reflexivity.
Defined.

(** [second_sweep_deletes_nothing] on two sweeps of ten days over
    [Samples.archive]. *)
Lemma second_sweep_deletes_nothing_witness :
  (run (adminCleanup Demo.env (JStr "s3cret") (JStr "10"))
     (run (adminCleanup Demo.env (JStr "s3cret") (JStr "10")) Samples.archive).2).1
  = inr (respond 200 (BodyCleanup 0 (int 10))).
Proof.
  destruct (second_sweep_deletes_nothing Demo.env (JStr "s3cret") (JStr "10")
              Samples.archive) as (Hresp & _).
  - reflexivity.
  - split; reflexivity.
  - by vm_compute.
  - vm_compute. lia.
  - exact Hresp.
Defined.
